(** * aioice/stun.py: the STUN message codec and transaction state machine

    A shallow embedding of [src/aioice/stun.py].  Python integers are [Z],
    [bytes] objects are [list byte], Python exceptions are the [Raise]
    results of a small error monad, dictionaries are stdpp [gmap]s and the
    [OrderedDict] of message attributes is an association list updated in
    place. *)

From Stdlib Require Import ZArith List Lia Bool String QArith.
From Stdlib Require Import Init.Byte Strings.Byte.
From stdpp Require Import base gmap strings list fin_maps.
Import ListNotations.

#[local] Open Scope Z_scope.

(** ** Exceptions and the error monad *)

(** The exceptions the module (and the library calls it makes) can raise. *)
Inductive exn : Type :=
| ValueError (msg : string)
| StructError          (* struct.error *)
| IndexError
| KeyError
| TypeError
| AttributeError
| OverflowError
| UnicodeEncodeError
| UnicodeDecodeError
| InvalidStateError    (* asyncio.InvalidStateError *)
| PyException (msg : string)  (* a plain Exception(msg) *)
| LoopBound.           (* no Python exception: the iteration bound of a
                          modelled while loop was hit (shown unreachable) *)

Inductive result (A : Type) : Type :=
| Ok (a : A)
| Raise (e : exn).
Arguments Ok {A} a.
Arguments Raise {A} e.

#[global] Instance result_ret : MRet result := fun A a => Ok a.

#[global] Instance result_bind : MBind result := fun A B k c =>
  match c with
  | Ok a => k a
  | Raise e => Raise e
  end.

Definition is_ok {A : Type} (c : result A) : bool :=
  match c with Ok _ => true | Raise _ => false end.

(** ** Bytes *)

Abbreviation bytes := (list byte).

Definition byte_to_Z (b : byte) : Z := Z.of_N (Byte.to_N b).

(** The byte whose value is [z mod 256]. *)
Definition byte_of_Z (z : Z) : byte :=
  match Byte.of_N (Z.to_N (z mod 256)) with
  | Some b => b
  | None => x00
  end.

(** [len(data)] *)
Definition len {A : Type} (data : list A) : Z := Z.of_nat (length data).

(** [data[lo:hi]] for [0 <= lo] (the module never slices from the end);
    an empty slice when [hi <= lo]. *)
Definition slice {A : Type} (data : list A) (lo hi : Z) : list A :=
  firstn (Z.to_nat (hi - lo)) (skipn (Z.to_nat lo) data).

(** [data[lo:]] for [0 <= lo]. *)
Definition slice_from {A : Type} (data : list A) (lo : Z) : list A :=
  skipn (Z.to_nat lo) data.

(** [data[i]] for [0 <= i] (the module never indexes from the end);
    raises [IndexError] out of range. *)
Definition index (data : bytes) (i : Z) : result Z :=
  if i <? 0 then Raise IndexError
  else match nth_error data (Z.to_nat i) with
       | Some b => Ok (byte_to_Z b)
       | None => Raise IndexError
       end.

(** [b'\x00' * n] *)
Definition zeros (n : Z) : bytes := repeat x00 (Z.to_nat n).

(** [int.to_bytes(z, 1, 'big', signed=False)] *)
Definition int_to_bytes_1 (z : Z) : result bytes :=
  if (0 <=? z) && (z <? 256) then Ok [byte_of_Z z] else Raise OverflowError.

(** ** struct.pack / struct.unpack, network byte order *)

Module Struct.

(** Big-endian bytes of [z], [n] of them, most significant first. *)
Fixpoint be_bytes (n : nat) (z : Z) : bytes :=
  match n with
  | O => []
  | S n' => be_bytes n' (z / 256) ++ [byte_of_Z z]
  end.

(** The unsigned integer a big-endian byte string stands for. *)
Definition be_value (bs : bytes) : Z :=
  fold_left (fun acc b => acc * 256 + byte_to_Z b) bs 0.

(** A field of format [B], [H] or [I]: [n] bytes, range checked. *)
Definition pack_uint (n : nat) (z : Z) : result bytes :=
  if (0 <=? z) && (z <? 256 ^ Z.of_nat n) then Ok (be_bytes n z)
  else Raise StructError.

Definition pack_B : Z -> result bytes := pack_uint 1.
Definition pack_H : Z -> result bytes := pack_uint 2.
Definition pack_I : Z -> result bytes := pack_uint 4.

(** A field of format [12s]: truncated or zero-padded to 12 bytes. *)
Definition pack_12s (s : bytes) : bytes :=
  firstn 12 (s ++ repeat x00 12).

(** [pack('!HI', a, b)] *)
Definition pack_HI (a b : Z) : result bytes :=
  x ← pack_H a; y ← pack_I b; Ok (x ++ y).

(** [pack('!HH', a, b)] *)
Definition pack_HH (a b : Z) : result bytes :=
  x ← pack_H a; y ← pack_H b; Ok (x ++ y).

(** [pack('!BBH', a, b, c)] *)
Definition pack_BBH (a b c : Z) : result bytes :=
  x ← pack_B a; y ← pack_B b; z ← pack_H c; Ok (x ++ y ++ z).

(** [pack('!HHI12s', a, b, c, s)] *)
Definition pack_HHI12s (a b c : Z) (s : bytes) : result bytes :=
  x ← pack_H a; y ← pack_H b; z ← pack_I c;
  Ok (x ++ y ++ z ++ pack_12s s).

(** [unpack] checks the buffer size against the format. *)
Definition sized (n : nat) (data : bytes) : result unit :=
  if Nat.eqb (length data) n then Ok tt else Raise StructError.

(** [unpack('!I', data)[0]] *)
Definition unpack_I (data : bytes) : result Z :=
  _ ← sized 4 data; Ok (be_value data).

(** [unpack('!HH', data)] *)
Definition unpack_HH (data : bytes) : result (Z * Z) :=
  _ ← sized 4 data;
  Ok (be_value (firstn 2 data), be_value (skipn 2 data)).

(** [unpack('!BBH', data)] *)
Definition unpack_BBH (data : bytes) : result (Z * Z * Z) :=
  _ ← sized 4 data;
  Ok (be_value (firstn 1 data), be_value (firstn 1 (skipn 1 data)),
      be_value (skipn 2 data)).

(** [unpack('!HHI12s', data)] *)
Definition unpack_HHI12s (data : bytes) : result (Z * Z * Z * bytes) :=
  _ ← sized 20 data;
  Ok (be_value (firstn 2 data), be_value (firstn 2 (skipn 2 data)),
      be_value (firstn 4 (skipn 4 data)), skipn 8 data).

End Struct.

Arguments Struct.be_bytes : simpl never.

(** ** Constants *)

Definition COOKIE : Z := 0x2112a442.
Definition FINGERPRINT_XOR : Z := 0x5354554e.
Definition HEADER_LENGTH : Z := 20.
Definition IPV4_PROTOCOL : Z := 1.
Definition IPV6_PROTOCOL : Z := 2.

Definition RETRY_INTERVAL : Q := 1 # 2.
Definition RETRY_MAX : Z := 7.

(** ** xor_address *)

(** The body of [for i in range(2, len(data))], over the list of indices. *)
Fixpoint xor_loop (data xpad : bytes) (range : list nat) (xdata : bytes)
  : result bytes :=
  match range with
  | [] => Ok xdata
  | i :: range' =>
      d ← index data (Z.of_nat i);
      x ← index xpad (Z.of_nat i - 2);
      b ← int_to_bytes_1 (Z.lxor d x);
      xor_loop data xpad range' (xdata ++ b)
  end.

Definition xor_address (data transaction_id : bytes) : result bytes :=
  p ← Struct.pack_HI (Z.shiftr COOKIE 16) COOKIE;
  let xpad := p ++ transaction_id in
  let xdata := slice data 0 2 in
  xor_loop data xpad (seq 2 (length data - 2)) xdata.

(** ** The utf8 codec of [str.encode] and [bytes.decode]

    A Python [str] is a sequence of code points.  [encode] and [decode] are
    the strict codec of the standard library (well-formed UTF-8 only: no
    surrogates, no overlong forms, nothing above U+10FFFF). *)

Abbreviation str := (list Z).

Module Utf8.

Definition encode_cp (c : Z) : result bytes :=
  if c <? 0 then Raise UnicodeEncodeError
  else if c <? 0x80 then Ok [byte_of_Z c]
  else if c <? 0x800 then
    Ok [byte_of_Z (0xC0 + c / 64); byte_of_Z (0x80 + c mod 64)]
  else if c <? 0x10000 then
    if (0xD800 <=? c) && (c <=? 0xDFFF) then Raise UnicodeEncodeError
    else Ok [byte_of_Z (0xE0 + c / 4096);
             byte_of_Z (0x80 + (c / 64) mod 64);
             byte_of_Z (0x80 + c mod 64)]
  else if c <? 0x110000 then
    Ok [byte_of_Z (0xF0 + c / 262144);
        byte_of_Z (0x80 + (c / 4096) mod 64);
        byte_of_Z (0x80 + (c / 64) mod 64);
        byte_of_Z (0x80 + c mod 64)]
  else Raise UnicodeEncodeError.

Fixpoint encode (s : str) : result bytes :=
  match s with
  | [] => Ok []
  | c :: s' => b ← encode_cp c; r ← encode s'; Ok (b ++ r)
  end.

(** The six payload bits of a continuation byte [10xxxxxx]. *)
Definition continuation (b : byte) : result Z :=
  let z := byte_to_Z b in
  if (0x80 <=? z) && (z <? 0xC0) then Ok (z - 0x80)
  else Raise UnicodeDecodeError.

(** A decoded code point is kept when it needed that many bytes and is
    a scalar value. *)
Definition checked (lo c : Z) : result Z :=
  if (c <? lo) || ((0xD800 <=? c) && (c <=? 0xDFFF)) || (0x10FFFF <? c)
  then Raise UnicodeDecodeError else Ok c.

Fixpoint decode (data : bytes) : result str :=
  match data with
  | [] => Ok []
  | b0 :: t0 =>
      let z0 := byte_to_Z b0 in
      if z0 <? 0x80 then s ← decode t0; Ok (z0 :: s)
      else if z0 <? 0xC0 then Raise UnicodeDecodeError
      else if z0 <? 0xE0 then
        match t0 with
        | b1 :: t1 =>
            c1 ← continuation b1;
            c ← checked 0x80 ((z0 - 0xC0) * 64 + c1);
            s ← decode t1; Ok (c :: s)
        | _ => Raise UnicodeDecodeError
        end
      else if z0 <? 0xF0 then
        match t0 with
        | b1 :: b2 :: t2 =>
            c1 ← continuation b1;
            c2 ← continuation b2;
            c ← checked 0x800 ((z0 - 0xE0) * 4096 + c1 * 64 + c2);
            s ← decode t2; Ok (c :: s)
        | _ => Raise UnicodeDecodeError
        end
      else if z0 <? 0xF8 then
        match t0 with
        | b1 :: b2 :: b3 :: t3 =>
            c1 ← continuation b1;
            c2 ← continuation b2;
            c3 ← continuation b3;
            c ← checked 0x10000
                  ((z0 - 0xF0) * 262144 + c1 * 4096 + c2 * 64 + c3);
            s ← decode t3; Ok (c :: s)
        | _ => Raise UnicodeDecodeError
        end
      else Raise UnicodeDecodeError
  end.

End Utf8.

(** ** Attribute values *)

(** [ipaddress.IPv4Address] and [ipaddress.IPv6Address], by their [packed]
    bytes (4 and 16 of them). *)
Inductive ipaddress : Type :=
| IPv4Address (packed : bytes)
| IPv6Address (packed : bytes).

Definition packed (a : ipaddress) : bytes :=
  match a with IPv4Address p | IPv6Address p => p end.

(** The Python values stored in a message's attributes. *)
Inductive value : Type :=
| VAddress (host : ipaddress) (port : Z)   (* a tuple (address, port) *)
| VInt (n : Z)
| VStr (s : str)
| VBytes (b : bytes)
| VNone.

(** ** Packing *)

Definition pack_address (v : value) : result bytes :=
  match v with
  | VAddress host port =>
      let protocol :=
        match host with
        | IPv4Address _ => IPV4_PROTOCOL
        | IPv6Address _ => IPV6_PROTOCOL
        end in
      h ← Struct.pack_BBH 0 protocol port;
      Ok (h ++ packed host)
  | VBytes (_ :: _) | VStr (_ :: _) =>
      Raise (ValueError "Value must be an IPv4Address or IPv6Address")
  | VBytes [] | VStr [] => Raise IndexError
  | VInt _ | VNone => Raise TypeError
  end.

(** [pack_bytes] returns its argument.  When that is not [bytes] it is
    [__bytes__] that raises: [TypeError] on [len(v)] of an integer or of
    [None] and on the concatenation with a tuple or a [str], or, before
    that concatenation, [struct.error] on the length of a [str] that does
    not fit 16 bits. *)
Definition pack_bytes (v : value) : result bytes :=
  match v with
  | VBytes b => Ok b
  | VStr s => if len s <? 65536 then Raise TypeError else Raise StructError
  | _ => Raise TypeError
  end.

Definition pack_none (v : value) : result bytes := Ok [].

Definition pack_string (v : value) : result bytes :=
  match v with
  | VStr s => Utf8.encode s
  | _ => Raise AttributeError
  end.

Definition pack_unsigned (v : value) : result bytes :=
  match v with
  | VInt n => Struct.pack_I n
  | _ => Raise StructError
  end.

Definition pack_xor_address (v : value) (transaction_id : bytes)
  : result bytes :=
  p ← pack_address v;
  xor_address p transaction_id.

(** ** Unpacking *)

Definition unpack_address (data : bytes) : result value :=
  if len data <? 4 then
    Raise (ValueError "STUN address length is less than 4 bytes")
  else
    '(reserved, protocol, port) ← Struct.unpack_BBH (slice data 0 4);
    let address := slice_from data 4 in
    if protocol =? IPV4_PROTOCOL then
      if negb (len address =? 4) then
        Raise (ValueError "STUN address has invalid length for IPv4")
      else Ok (VAddress (IPv4Address address) port)
    else if protocol =? IPV6_PROTOCOL then
      if negb (len address =? 16) then
        Raise (ValueError "STUN address has invalid length for IPv6")
      else Ok (VAddress (IPv6Address address) port)
    else Raise (ValueError "STUN address protocol is unsupported").

Definition unpack_xor_address (data transaction_id : bytes) : result value :=
  d ← xor_address data transaction_id;
  unpack_address d.

Definition unpack_bytes (data : bytes) : result value := Ok (VBytes data).

Definition unpack_none (data : bytes) : result value := Ok VNone.

Definition unpack_string (data : bytes) : result value :=
  s ← Utf8.decode data; Ok (VStr s).

Definition unpack_unsigned (data : bytes) : result value :=
  n ← Struct.unpack_I data; Ok (VInt n).

(** ** The attribute registry *)

(** The pack and unpack functions as first-class values: the table stores
    them and the codec compares them with [==]. *)
Inductive packer : Type :=
| PackAddress | PackBytes | PackNone | PackString | PackUnsigned
| PackXorAddress.

Inductive unpacker : Type :=
| UnpackAddress | UnpackBytes | UnpackNone | UnpackString | UnpackUnsigned
| UnpackXorAddress.

#[global] Instance packer_eq_dec : EqDecision packer.
Proof. solve_decision. Defined.

#[global] Instance unpacker_eq_dec : EqDecision unpacker.
Proof. solve_decision. Defined.

(** A call [attr_pack(attr_value)] with one argument. *)
Definition call_pack (f : packer) (v : value) : result bytes :=
  match f with
  | PackAddress => pack_address v
  | PackBytes => pack_bytes v
  | PackNone => pack_none v
  | PackString => pack_string v
  | PackUnsigned => pack_unsigned v
  | PackXorAddress => Raise TypeError   (* transaction_id is missing *)
  end.

(** A call [attr_unpack(v)] with one argument. *)
Definition call_unpack (f : unpacker) (data : bytes) : result value :=
  match f with
  | UnpackAddress => unpack_address data
  | UnpackBytes => unpack_bytes data
  | UnpackNone => unpack_none data
  | UnpackString => unpack_string data
  | UnpackUnsigned => unpack_unsigned data
  | UnpackXorAddress => Raise TypeError   (* transaction_id is missing *)
  end.

(** A row of the table: [(type, name, pack, unpack)]. *)
Abbreviation attribute := (Z * string * packer * unpacker)%type.

Definition ATTRIBUTES : list attribute :=
  [ (0x0001, "MAPPED-ADDRESS"%string, PackAddress, UnpackAddress);
    (0x0003, "CHANGE-REQUEST"%string, PackUnsigned, UnpackUnsigned);
    (0x0004, "SOURCE-ADDRESS"%string, PackAddress, UnpackAddress);
    (0x0005, "CHANGED-ADDRESS"%string, PackAddress, UnpackAddress);
    (0x0006, "USERNAME"%string, PackString, UnpackString);
    (0x0008, "MESSAGE-INTEGRITY"%string, PackBytes, UnpackBytes);
    (0x0012, "XOR-PEER-ADDRESS"%string, PackXorAddress, UnpackXorAddress);
    (0x0014, "REALM"%string, PackString, UnpackString);
    (0x0015, "NONCE"%string, PackBytes, UnpackBytes);
    (0x0016, "XOR-RELAYED-ADDRESS"%string, PackXorAddress, UnpackXorAddress);
    (0x0020, "XOR-MAPPED-ADDRESS"%string, PackXorAddress, UnpackXorAddress);
    (0x0024, "PRIORITY"%string, PackUnsigned, UnpackUnsigned);
    (0x0025, "USE-CANDIDATE"%string, PackNone, UnpackNone);
    (0x8022, "SOFTWARE"%string, PackString, UnpackString);
    (0x8028, "FINGERPRINT"%string, PackUnsigned, UnpackUnsigned);
    (0x8029, "ICE-CONTROLLED"%string, PackBytes, UnpackBytes);
    (0x802a, "ICE-CONTROLLING"%string, PackBytes, UnpackBytes);
    (0x802b, "RESPONSE-ORIGIN"%string, PackAddress, UnpackAddress);
    (0x802c, "OTHER-ADDRESS"%string, PackAddress, UnpackAddress) ].

(** [attr[0]] and [attr[1]] *)
Definition type_of (attr : attribute) : Z := attr.1.1.1.
Definition name_of (attr : attribute) : string := attr.1.1.2.

(** The two dictionaries filled by the module-level loop
    [for attr in ATTRIBUTES: ...], for any table. *)
Definition index_attributes (table : list attribute)
  : gmap Z attribute * gmap string attribute :=
  fold_left
    (fun '(by_type, by_name) attr =>
       (<[type_of attr := attr]> by_type, <[name_of attr := attr]> by_name))
    table (∅, ∅).

(** Running that loop at import time: it completes, or raises. *)
Definition build_registry (table : list attribute)
  : result (gmap Z attribute * gmap string attribute) :=
  Ok (index_attributes table).

Definition ATTRIBUTES_BY_TYPE : gmap Z attribute :=
  (index_attributes ATTRIBUTES).1.

Definition ATTRIBUTES_BY_NAME : gmap string attribute :=
  (index_attributes ATTRIBUTES).2.

Arguments ATTRIBUTES_BY_TYPE : simpl never.
Arguments ATTRIBUTES_BY_NAME : simpl never.

(** ** Message *)

(** [class Class(enum.IntEnum)] *)
Module Class.
Definition REQUEST : Z := 0x000.
Definition INDICATION : Z := 0x010.
Definition RESPONSE : Z := 0x100.
Definition ERROR : Z := 0x110.
End Class.

(** [class Method(enum.IntEnum)] *)
Module Method.
Definition BINDING : Z := 0x1.
End Method.

(** An [OrderedDict] from attribute names to values: the items in
    insertion order, each key once. *)
Abbreviation odict := (list (string * value)).

(** [d[k] = v]: an existing key keeps its place, a new one goes last. *)
Fixpoint odict_set (k : string) (v : value) (d : odict) : odict :=
  match d with
  | [] => [(k, v)]
  | (k', v') :: d' =>
      if String.eqb k k' then (k', v) :: d'
      else (k', v') :: odict_set k v d'
  end.

Record Message : Type := mkMessage {
  message_method : Z;
  message_class : Z;
  transaction_id : bytes;
  attributes : odict
}.

Definition pad_len (attr_len : Z) : Z := 4 * ((attr_len + 3) / 4) - attr_len.

(** The loop of [Message.__bytes__] over [self.attributes.items()]. *)
Fixpoint bytes_loop (tid : bytes) (items : odict) (data : bytes)
  : result bytes :=
  match items with
  | [] => Ok data
  | (attr_name, attr_value) :: items' =>
      match ATTRIBUTES_BY_NAME !! attr_name with
      | None => Raise KeyError
      | Some (attr_type, _, attr_pack, attr_unpack) =>
          v ← (if decide (attr_pack = PackXorAddress)
               then pack_xor_address attr_value tid
               else call_pack attr_pack attr_value);
          let attr_len := len v in
          h ← Struct.pack_HH attr_type attr_len;
          bytes_loop tid items' (data ++ h ++ v ++ zeros (pad_len attr_len))
      end
  end.

Definition __bytes__ (self : Message) : result bytes :=
  data ← bytes_loop (transaction_id self) (attributes self) [];
  h ← Struct.pack_HHI12s
        (Z.lor (message_method self) (message_class self))
        (len data) COOKIE (transaction_id self);
  Ok (h ++ data).

(** ** parse_message *)

(** The [while pos <= len(data) - 4] loop; [fuel] bounds the number of
    iterations (each one advances [pos] by at least 4). *)
Fixpoint parse_loop (fuel : nat) (data transaction_id : bytes) (pos : Z)
    (attributes : odict) : result odict :=
  if pos <=? len data - 4 then
    match fuel with
    | O => Raise LoopBound
    | S fuel' =>
        '(attr_type, attr_len) ← Struct.unpack_HH (slice data pos (pos + 4));
        let v := slice data (pos + 4) (pos + 4 + attr_len) in
        let pad_len := pad_len attr_len in
        attributes' ←
          match ATTRIBUTES_BY_TYPE !! attr_type with
          | Some (_, attr_name, attr_pack, attr_unpack) =>
              x ← (if decide (attr_unpack = UnpackXorAddress)
                   then unpack_xor_address v transaction_id
                   else call_unpack attr_unpack v);
              Ok (odict_set attr_name x attributes)
          | None => Ok attributes
          end;
        parse_loop fuel' data transaction_id (pos + 4 + attr_len + pad_len)
          attributes'
    end
  else Ok attributes.

Definition parse_message (data : bytes) : result Message :=
  if len data <? HEADER_LENGTH then
    Raise (ValueError "STUN message length is less than 20 bytes")
  else
    '(message_type, length, cookie, transaction_id) ←
      Struct.unpack_HHI12s (slice data 0 HEADER_LENGTH);
    if negb (len data =? HEADER_LENGTH + length) then
      Raise (ValueError "STUN message length does not match")
    else
      attributes ←
        parse_loop (List.length data) data transaction_id HEADER_LENGTH [];
      Ok (mkMessage (Z.land message_type 0x3eef) (Z.land message_type 0x0100)
            transaction_id attributes).

(** ** binascii.crc32

    The CRC-32 of the standard library (reflected polynomial 0xEDB88320,
    initial value and final xor 0xFFFFFFFF), bit by bit. *)

Module Crc32.

Definition step (crc : Z) : Z :=
  if Z.odd crc then Z.lxor (Z.shiftr crc 1) 0xEDB88320 else Z.shiftr crc 1.

Definition update (crc : Z) (b : byte) : Z :=
  Nat.iter 8 step (Z.lxor crc (byte_to_Z b)).

Definition crc32 (data : bytes) : Z :=
  Z.lxor (fold_left update data 0xFFFFFFFF) 0xFFFFFFFF.

End Crc32.

(** ** hmac.new(key, data, 'sha1').digest()

    SHA-1 (FIPS 180) and HMAC (RFC 2104) of the standard library, on 32-bit
    words held in [Z]. *)

Module Sha1.

Definition w32 (z : Z) : Z := z mod 2 ^ 32.

Definition rotl (n x : Z) : Z :=
  w32 (Z.lor (Z.shiftl x n) (Z.shiftr x (32 - n))).

(** The message followed by the bit 1, zeros and its bit length on
    64 bits, a multiple of 64 bytes in all. *)
Definition pad (data : bytes) : bytes :=
  data ++ [byte_of_Z 0x80] ++ zeros ((55 - len data) mod 64)
    ++ Struct.be_bytes 8 (8 * len data).

(** The big-endian 32-bit words of a block. *)
Fixpoint words (n : nat) (block : bytes) : list Z :=
  match n with
  | O => []
  | S n' => Struct.be_value (firstn 4 block) :: words n' (skipn 4 block)
  end.

(** The message schedule, most recent word first. *)
Definition extend (rev_w : list Z) : list Z :=
  rotl 1 (Z.lxor (Z.lxor (Z.lxor (nth 2 rev_w 0) (nth 7 rev_w 0))
                    (nth 13 rev_w 0)) (nth 15 rev_w 0)) :: rev_w.

Definition schedule (block : bytes) : list Z :=
  rev (Nat.iter 64 extend (rev (words 16 block))).

Definition state : Type := Z * Z * Z * Z * Z.

Definition round (s : state) (tw : nat * Z) : state :=
  let '(a, b, c, d, e) := s in
  let '(t, w) := tw in
  let '(f, k) :=
    if (t <? 20)%nat then
      (Z.lor (Z.land b c) (Z.land (Z.lxor b 0xFFFFFFFF) d), 0x5A827999)
    else if (t <? 40)%nat then
      (Z.lxor (Z.lxor b c) d, 0x6ED9EBA1)
    else if (t <? 60)%nat then
      (Z.lor (Z.lor (Z.land b c) (Z.land b d)) (Z.land c d), 0x8F1BBCDC)
    else
      (Z.lxor (Z.lxor b c) d, 0xCA62C1D6) in
  (w32 (rotl 5 a + f + e + k + w), a, rotl 30 b, c, d).

Definition compress (h : state) (block : bytes) : state :=
  let '(h0, h1, h2, h3, h4) := h in
  let '(a, b, c, d, e) :=
    fold_left round (combine (seq 0 80) (schedule block)) h in
  (w32 (h0 + a), w32 (h1 + b), w32 (h2 + c), w32 (h3 + d), w32 (h4 + e)).

Fixpoint blocks (n : nat) (data : bytes) (h : state) : state :=
  match n with
  | O => h
  | S n' => blocks n' (skipn 64 data) (compress h (firstn 64 data))
  end.

Definition initial : state :=
  (0x67452301, 0xEFCDAB89, 0x98BADCFE, 0x10325476, 0xC3D2E1F0).

Definition sha1 (data : bytes) : bytes :=
  let padded := pad data in
  let '(h0, h1, h2, h3, h4) :=
    blocks (length padded / 64) padded initial in
  Struct.be_bytes 4 h0 ++ Struct.be_bytes 4 h1 ++ Struct.be_bytes 4 h2
    ++ Struct.be_bytes 4 h3 ++ Struct.be_bytes 4 h4.

Definition xor_with (c : Z) (bs : bytes) : bytes :=
  map (fun b => byte_of_Z (Z.lxor (byte_to_Z b) c)) bs.

Definition hmac_sha1 (key data : bytes) : bytes :=
  let key0 := if 64 <? len key then sha1 key else key in
  let block := key0 ++ zeros (64 - len key0) in
  sha1 (xor_with 0x5c block ++ sha1 (xor_with 0x36 block ++ data)).

End Sha1.

(** ** Message.add_fingerprint and Message.add_message_integrity

    Both mutate [self.attributes]; the model returns the message after the
    call. *)

Definition set_attribute (self : Message) (name : string) (v : value)
  : Message :=
  mkMessage (message_method self) (message_class self) (transaction_id self)
    (odict_set name v (attributes self)).

Definition add_fingerprint (self : Message) : result Message :=
  data ← __bytes__ self;
  l ← Struct.pack_H (len data - HEADER_LENGTH + 8);
  let data := slice data 0 2 ++ l ++ slice_from data 4 in
  Ok (set_attribute self "FINGERPRINT"
        (VInt (Z.lxor (Crc32.crc32 data) FINGERPRINT_XOR))).

Definition add_message_integrity (self : Message) (key : bytes)
  : result Message :=
  data ← __bytes__ self;
  l ← Struct.pack_H (len data - HEADER_LENGTH + 24);
  let data := slice data 0 2 ++ l ++ slice_from data 4 in
  Ok (set_attribute self "MESSAGE-INTEGRITY"
        (VBytes (Sha1.hmac_sha1 key data))).

(** ** The event loop, the transport and futures

    Time is the loop's clock: a timer set by [call_later] runs when the
    clock reaches its deadline.  [RETRY_INTERVAL] and its doublings are
    exact as floats, so rationals stand for them. *)

(** A peer address, [(host, port)]. *)
Abbreviation address := (string * Z)%type.

(** An [asyncio.Future]. *)
Inductive Future : Type :=
| Pending
| Done (message : Message)
| Failed (e : exn).

Definition set_result (f : Future) (message : Message) : result Future :=
  match f with
  | Pending => Ok (Done message)
  | _ => Raise InvalidStateError
  end.

Definition set_exception (f : Future) (e : exn) : result Future :=
  match f with
  | Pending => Ok (Failed e)
  | _ => Raise InvalidStateError
  end.

(** What [await future] gives its caller once the future is resolved. *)
Definition awaited (f : Future) : option (result Message) :=
  match f with
  | Pending => None
  | Done message => Some (Ok message)
  | Failed e => Some (Raise e)
  end.

(** The event loop: its clock, the timers still to run (handle and
    deadline) and the journal of the [call_later] calls (time of the call
    and delay asked for). *)
Record Loop : Type := mkLoop {
  time : Q;
  scheduled : list (nat * Q);
  next_handle : nat;
  call_later_log : list (Q * Q)
}.

Definition call_later (delay : Q) (loop : Loop) : nat * Loop :=
  (next_handle loop,
   mkLoop (time loop)
     (scheduled loop ++ [(next_handle loop, (time loop + delay)%Q)])
     (S (next_handle loop))
     (call_later_log loop ++ [(time loop, delay)])).

(** [handle.cancel()]: the timer will not run; no effect once it has. *)
Definition cancel (handle : nat) (loop : Loop) : Loop :=
  mkLoop (time loop)
    (filter (fun t => negb (Nat.eqb t.1 handle)) (scheduled loop))
    (next_handle loop) (call_later_log loop).

(** The timer with the earliest deadline, the first set among equals. *)
Fixpoint earliest (timers : list (nat * Q)) : option (nat * Q) :=
  match timers with
  | [] => None
  | t :: timers' =>
      match earliest timers' with
      | Some t' => if Qle_bool t.2 t'.2 then Some t else Some t'
      | None => Some t
      end
  end.

(** ** Transaction *)

Record Transaction : Type := mkTransaction {
  addr : address;
  future : Future;
  request : Message;
  timeout_handle : option nat;
  timeout_delay : option Q;     (* unset until the first send *)
  tries : Z
}.

(** The transaction with the loop that runs it and the transport's
    journal of [protocol.send] calls (time, datagram, destination). *)
Record World : Type := mkWorld {
  loop : Loop;
  sent : list (Q * Message * address);
  txn : Transaction
}.

(** [Transaction(request, addr, protocol)] on a fresh loop and transport. *)
Definition init (request : Message) (addr : address) : World :=
  mkWorld (mkLoop 0 [] 0 []) []
    (mkTransaction addr Pending request None None 0).

Definition message_received (message : Message) (from : address) (w : World)
  : result World :=
  let t := txn w in
  match timeout_handle t with
  | None => Raise AttributeError      (* None has no cancel() *)
  | Some handle =>
      let loop' := cancel handle (loop w) in
      f ← set_result (future t) message;
      Ok (mkWorld loop' (sent w)
            (mkTransaction (addr t) f (request t) (timeout_handle t)
               (timeout_delay t) (tries t)))
  end.

Definition __retry (w : World) : result World :=
  let t := txn w in
  if RETRY_MAX <=? tries t then
    f ← set_exception (future t) (PyException "Timeout");
    Ok (mkWorld (loop w) (sent w)
          (mkTransaction (addr t) f (request t) (timeout_handle t)
             (timeout_delay t) (tries t)))
  else
    let sent' := sent w ++ [(time (loop w), request t, addr t)] in
    delay ←
      (if negb (tries t =? 0) then
         match timeout_delay t with
         | Some d => Ok (2 * d)%Q
         | None => Raise AttributeError
         end
       else Ok RETRY_INTERVAL);
    let '(handle, loop') := call_later delay (loop w) in
    Ok (mkWorld loop' sent'
          (mkTransaction (addr t) (future t) (request t) (Some handle)
             (Some delay) (tries t + 1))).

(** One turn of the loop: the earliest timer, if any, is due; the clock
    moves to its deadline and its callback [__retry] runs. *)
Definition fire (w : World) : result World :=
  match earliest (scheduled (loop w)) with
  | None => Ok w
  | Some (handle, deadline) =>
      let l := cancel handle (loop w) in
      __retry
        (mkWorld (mkLoop deadline (scheduled l) (next_handle l)
                    (call_later_log l))
           (sent w) (txn w))
  end.

(** [turns] turns of the loop. *)
Fixpoint fire_n (turns : nat) (w : World) : result World :=
  match turns with
  | O => Ok w
  | S n => w' ← fire w; fire_n n w'
  end.

(** [await self.__future] when nothing but the loop's timers runs: the
    loop turns until the future is resolved.  [None]: still pending after
    [fuel] turns. *)
Fixpoint await_future (fuel : nat) (w : World)
  : option (result Message * World) :=
  match awaited (future (txn w)) with
  | Some r => Some (r, w)
  | None =>
      match fuel with
      | O => None
      | S fuel' =>
          match fire w with
          | Ok w' => await_future fuel' w'
          | Raise e => Some (Raise e, w)
          end
      end
  end.

(** [run()], called on a transaction to which no response is delivered. *)
Definition run (fuel : nat) (w : World) : option (result Message * World) :=
  match __retry w with
  | Ok w' => await_future fuel w'
  | Raise e => Some (Raise e, w)
  end.

(** ** Definitions used in the statements *)

(** The xor of two bytes, as a byte. *)
Definition bxor (a b : byte) : byte :=
  byte_of_Z (Z.lxor (byte_to_Z a) (byte_to_Z b)).

(** The byte the loop of [xor_address] appends for index [j]. *)
Definition xor_at (data pad : bytes) (j : nat) : byte :=
  bxor (nth j data x00) (nth (j - 2) pad x00).

(** The pad [xor_address] builds: the upper 16 bits of the cookie, the
    cookie, the transaction id. *)
Definition xpad (transaction_id : bytes) : bytes :=
  Struct.be_bytes 2 (Z.shiftr COOKIE 16) ++ Struct.be_bytes 4 COOKIE
    ++ transaction_id.

(** The 4-byte big-endian cookie followed by the transaction id. *)
Definition cookie_pad (transaction_id : bytes) : bytes :=
  Struct.be_bytes 4 COOKIE ++ transaction_id.

(** [xdata] is [data] with its first two bytes kept and each later byte
    xored with the byte of [pad] two places before. *)
Definition xored_with (pad data xdata : bytes) : Prop :=
  length xdata = length data /\
  take 2 xdata = take 2 data /\
  forall (i : nat) (d : byte), (2 <= i)%nat -> data !! i = Some d ->
    exists p, pad !! (i - 2)%nat = Some p /\ xdata !! i = Some (bxor d p).

(** A dictionary filled by [d[key(x)] = x] for each row in turn. *)
Definition filled {K : Type} `{Countable K} {V : Type} (key : V -> K)
    (rows : list V) (d : gmap K V) : gmap K V :=
  fold_left (fun d x => <[key x := x]> d) rows d.

(** [d.get(k)] *)
Fixpoint odict_get (k : string) (d : odict) : option value :=
  match d with
  | [] => None
  | (k', v) :: d' => if String.eqb k k' then Some v else odict_get k d'
  end.

(** The 16-bit message type field, [message_method | message_class]. *)
Definition message_type (self : Message) : Z :=
  Z.lor (message_method self) (message_class self).

(** The 20-byte header: type, length of the attribute section, cookie,
    transaction id. *)
Definition header (type length : Z) (tid : bytes) : bytes :=
  Struct.be_bytes 2 type ++ Struct.be_bytes 2 length
    ++ Struct.be_bytes 4 COOKIE ++ Struct.pack_12s tid.

(** The protocol byte of a packed address. *)
Definition protocol_of (v : bytes) : Z := byte_to_Z (nth 1 v x00).

(** A packed address [unpack_address] accepts: the 4-byte prefix, then
    4 address bytes for IPv4 or 16 for IPv6. *)
Definition valid_address (v : bytes) : bool :=
  (4 <=? len v)
  && (((protocol_of v =? IPV4_PROTOCOL) && (len v =? 8))
      || ((protocol_of v =? IPV6_PROTOCOL) && (len v =? 20))).

(** The value bytes an unpack function of the table accepts. *)
Definition accepts (f : unpacker) (v : bytes) : bool :=
  match f with
  | UnpackAddress | UnpackXorAddress => valid_address v
  | UnpackUnsigned => len v =? 4
  | UnpackString => is_ok (Utf8.decode v)
  | UnpackBytes | UnpackNone => true
  end.

(** The attributes met by walking the attribute section from [pos], with
    the offset arithmetic of [parse_message] and no look at the registry:
    each type code with its value bytes. *)
Fixpoint walk (fuel : nat) (data : bytes) (pos : Z) : list (Z * bytes) :=
  if pos <=? len data - 4 then
    match fuel with
    | O => []
    | S fuel' =>
        let attr_type := Struct.be_value (slice data pos (pos + 2)) in
        let attr_len := Struct.be_value (slice data (pos + 2) (pos + 4)) in
        (attr_type, slice data (pos + 4) (pos + 4 + attr_len))
          :: walk fuel' data (pos + 4 + attr_len + pad_len attr_len)
    end
  else [].

(** The walk from the end of the header; [length data] steps are more
    than it takes. *)
Definition raw_attributes (data : bytes) : list (Z * bytes) :=
  walk (length data) data HEADER_LENGTH.

(** The length field of the header. *)
Definition declared_length (data : bytes) : Z :=
  Struct.be_value (slice data 2 4).

(** The type code is in the registry. *)
Definition known (tv : Z * bytes) : bool :=
  bool_decide (is_Some (ATTRIBUTES_BY_TYPE !! tv.1)).

(** The type code is in the registry and its unpack function refuses the
    value bytes. *)
Definition rejected (tv : Z * bytes) : bool :=
  match ATTRIBUTES_BY_TYPE !! tv.1 with
  | Some (_, _, _, attr_unpack) => negb (accepts attr_unpack tv.2)
  | None => false
  end.

(** Unpacking each attribute of a list in turn and storing it under its
    name; an unknown type code raises [KeyError]. *)
Fixpoint store_all (tid : bytes) (items : list (Z * bytes)) (attrs : odict)
  : result odict :=
  match items with
  | [] => Ok attrs
  | (attr_type, v) :: items' =>
      match ATTRIBUTES_BY_TYPE !! attr_type with
      | None => Raise KeyError
      | Some (_, attr_name, _, attr_unpack) =>
          x ← (if decide (attr_unpack = UnpackXorAddress)
               then unpack_xor_address v tid
               else call_unpack attr_unpack v);
          store_all tid items' (odict_set attr_name x attrs)
      end
  end.

(** ** Well-formed messages *)

(** An address object: 4 packed bytes for IPv4, 16 for IPv6. *)
Definition wf_host (h : ipaddress) : bool :=
  match h with
  | IPv4Address p => Nat.eqb (length p) 4
  | IPv6Address p => Nat.eqb (length p) 16
  end.

(** The value has the Python type the attribute's pack function takes. *)
Definition wf_value (f : packer) (v : value) : bool :=
  match f, v with
  | (PackAddress | PackXorAddress), VAddress h _ => wf_host h
  | PackBytes, VBytes _ => true
  | PackNone, VNone => true
  | PackString, VStr _ => true
  | PackUnsigned, VInt _ => true
  | _, _ => false
  end.

(** A registered attribute name with a value of its type. *)
Definition wf_item (item : string * value) : bool :=
  match ATTRIBUTES_BY_NAME !! item.1 with
  | Some (_, _, attr_pack, _) => wf_value attr_pack item.2
  | None => false
  end.

(** The twelve method bits of the message type field. *)
Definition METHOD_MASK : Z := 0x3eef.

Definition classes : list Z :=
  [Class.REQUEST; Class.INDICATION; Class.RESPONSE; Class.ERROR].

Definition wf_message (m : Message) : Prop :=
  Z.land (message_method m) METHOD_MASK = message_method m
  /\ In (message_class m) classes
  /\ length (transaction_id m) = 12%nat
  /\ NoDup (map fst (attributes m))
  /\ Forall (fun item => wf_item item = true) (attributes m).

(** The type code and the packed value of an attribute of a message. *)
Definition pack_item (tid : bytes) (item : string * value)
  : result (Z * bytes) :=
  match ATTRIBUTES_BY_NAME !! item.1 with
  | None => Raise KeyError
  | Some (attr_type, _, attr_pack, _) =>
      v ← (if decide (attr_pack = PackXorAddress)
           then pack_xor_address item.2 tid
           else call_pack attr_pack item.2);
      _ ← Struct.pack_HH attr_type (len v);
      Ok (attr_type, v)
  end.

(** An attribute on the wire: type, length, value, padding. *)
Definition frame (tv : Z * bytes) : bytes :=
  Struct.be_bytes 2 tv.1 ++ Struct.be_bytes 2 (len tv.2) ++ tv.2
    ++ zeros (pad_len (len tv.2)).

(** The pack and unpack functions that go together. *)
Definition paired (f : packer) (g : unpacker) : bool :=
  match f, g with
  | PackAddress, UnpackAddress
  | PackBytes, UnpackBytes
  | PackNone, UnpackNone
  | PackString, UnpackString
  | PackUnsigned, UnpackUnsigned
  | PackXorAddress, UnpackXorAddress => true
  | _, _ => false
  end.

(** Some attribute met by the walk declares more value bytes than the
    input holds after its header. *)
Fixpoint truncated (fuel : nat) (data : bytes) (pos : Z) : bool :=
  if pos <=? len data - 4 then
    match fuel with
    | O => false
    | S fuel' =>
        let attr_len := Struct.be_value (slice data (pos + 2) (pos + 4)) in
        (len data <? pos + 4 + attr_len)
        || truncated fuel' data (pos + 4 + attr_len + pad_len attr_len)
    end
  else false.

(** An address attribute (plain or xored) whose value is not a valid
    packed address. *)
Definition bad_address (tv : Z * bytes) : bool :=
  match ATTRIBUTES_BY_TYPE !! tv.1 with
  | Some (_, _, _, (UnpackAddress | UnpackXorAddress)) =>
      negb (valid_address tv.2)
  | _ => false
  end.

(** The four error conditions named for [parse_message]: a short input,
    a length mismatch, a truncated attribute, an invalid address. *)
Definition short_mismatched_truncated_or_bad_address (data : bytes) : bool :=
  (len data <? HEADER_LENGTH)
  || negb (len data =? HEADER_LENGTH + declared_length data)
  || truncated (length data) data HEADER_LENGTH
  || existsb bad_address (raw_attributes data).

(** ** Sample inputs *)

Definition sample_tid : bytes :=
  map byte_of_Z [1; 2; 3; 4; 5; 6; 7; 8; 9; 10; 11; 12].

(** 192.168.1.2 port 8080, packed. *)
Definition sample_packed_address : bytes :=
  map byte_of_Z [0; 1; 0x1f; 0x90; 192; 168; 1; 2].

(** A binding indication and a binding error response. *)
Definition sample_indication : Message :=
  mkMessage Method.BINDING Class.INDICATION sample_tid [].

Definition sample_error : Message :=
  mkMessage Method.BINDING Class.ERROR sample_tid [].

(** A binding request with four attributes. *)
Definition sample_request : Message :=
  mkMessage Method.BINDING Class.REQUEST sample_tid
    [("USERNAME"%string, VStr [0x41; 0xe9; 0x20ac; 0x1f600]);
     ("XOR-MAPPED-ADDRESS"%string,
      VAddress (IPv4Address (map byte_of_Z [192; 168; 1; 2])) 8080);
     ("USE-CANDIDATE"%string, VNone);
     ("PRIORITY"%string, VInt 12345678)].

Definition sample_address : address := ("192.0.2.1"%string, 3478).

Definition sample_response : Message :=
  mkMessage Method.BINDING Class.RESPONSE sample_tid
    [("XOR-MAPPED-ADDRESS"%string,
      VAddress (IPv4Address (map byte_of_Z [192; 168; 1; 2])) 8080)].

(** A request whose NONCE fills the attribute section up to 65528
    bytes. *)
Definition long_nonce_request : Message :=
  mkMessage Method.BINDING Class.REQUEST sample_tid
    [("NONCE"%string, VBytes (zeros 65524))].

(** A header announcing 4 attribute bytes, then the header of a NONCE
    attribute that announces 8 value bytes: none follows. *)
Definition truncated_nonce : bytes :=
  map byte_of_Z [0; 1; 0; 4; 0x21; 0x12; 0xa4; 0x42;
                 1; 2; 3; 4; 5; 6; 7; 8; 9; 10; 11; 12;
                 0; 0x15; 0; 8].

(** A complete PRIORITY attribute of 2 value bytes and 2 of padding. *)
Definition short_priority : bytes :=
  map byte_of_Z [0; 1; 0; 8; 0x21; 0x12; 0xa4; 0x42;
                 1; 2; 3; 4; 5; 6; 7; 8; 9; 10; 11; 12;
                 0; 0x24; 0; 2; 1; 1; 0; 0].

(** A complete USERNAME attribute whose 4 value bytes are not utf8. *)
Definition bad_username : bytes :=
  map byte_of_Z [0; 1; 0; 8; 0x21; 0x12; 0xa4; 0x42;
                 1; 2; 3; 4; 5; 6; 7; 8; 9; 10; 11; 12;
                 0; 0x06; 0; 4; 0xff; 0xfe; 0xfd; 0xfc].

(** A table with the type code 1 twice. *)
Definition duplicate_table : list attribute :=
  [ (0x0001, "MAPPED-ADDRESS"%string, PackAddress, UnpackAddress);
    (0x0001, "USERNAME"%string, PackString, UnpackString) ].

(** A binding request with a PRIORITY attribute, and the same bytes with
    another value in the cookie field. *)
Definition request_head : bytes := map byte_of_Z [0; 1; 0; 8].

Definition request_tail : bytes :=
  map byte_of_Z [1; 2; 3; 4; 5; 6; 7; 8; 9; 10; 11; 12;
                 0; 0x24; 0; 4; 0; 0xbc; 0x61; 0x4e].

Definition magic_cookie : bytes := Struct.be_bytes 4 COOKIE.

Definition other_cookie : bytes := map byte_of_Z [0xde; 0xad; 0xbe; 0xef].

(** The serialization of [sample_request]. *)
Definition sample_request_bytes : bytes :=
  map byte_of_Z
    [0; 1; 0; 40; 0x21; 0x12; 0xa4; 0x42;
     1; 2; 3; 4; 5; 6; 7; 8; 9; 10; 11; 12;
     0; 6; 0; 10; 65; 195; 169; 226; 130; 172; 240; 159; 152; 128; 0; 0;
     0; 32; 0; 8; 0; 1; 62; 130; 225; 186; 165; 64;
     0; 37; 0; 0;
     0; 36; 0; 4; 0; 188; 97; 78].

(** The bytes of an ASCII string literal. *)
Definition ascii_bytes (s : string) : bytes :=
  map (fun a => byte_of_Z (Z.of_nat (Ascii.nat_of_ascii a)))
    (list_ascii_of_string s).

(** ** What happens to a running transaction *)

(** The two things that wake a transaction: the loop finds its timer due,
    or the transport hands it a datagram matched to it. *)
Inductive event : Type :=
| Tick
| Deliver (message : Message) (from : address).

Definition handle (ev : event) (w : World) : result World :=
  match ev with
  | Tick => fire w
  | Deliver message from => message_received message from w
  end.

(** A sequence of events, up to the first that raises. *)
Fixpoint run_events (evs : list event) (w : World) : result World :=
  match evs with
  | [] => Ok w
  | ev :: evs' => w' ← handle ev w; run_events evs' w'
  end.

(** [run()] up to its [await], then the events. *)
Definition started (request : Message) (addr : address) (evs : list event)
  : result World :=
  w ← __retry (init request addr); run_events evs w.

(** [await self.__future] in a loop that runs the events [evs] in turn,
    expired timers and delivered responses alike: the coroutine resumes
    as soon as the future is resolved, whatever events are left, and is
    still suspended ([None]) when the events run out first. *)
Fixpoint await_future_under (evs : list event) (w : World)
  : option (result Message * World) :=
  match awaited (future (txn w)) with
  | Some r => Some (r, w)
  | None =>
      match evs with
      | [] => None
      | ev :: evs' =>
          match handle ev w with
          | Ok w' => await_future_under evs' w'
          | Raise e => Some (Raise e, w)
          end
      end
  end.

(** [run()]: the first [__retry], then [await self.__future] while the
    loop runs the events [evs].  With expired timers for only events it
    is [run]. *)
Definition run_under (evs : list event) (w : World)
  : option (result Message * World) :=
  match __retry w with
  | Ok w' => await_future_under evs w'
  | Raise e => Some (Raise e, w)
  end.

(** The delay of try number [n]: [RETRY_INTERVAL] doubled [n - 1] times. *)
Definition backoff (n : Z) : Q := (inject_Z (2 ^ (n - 1)) * RETRY_INTERVAL)%Q.

(** ** Attributes on the wire with any padding *)

(** An attribute followed by the padding bytes [pad]. *)
Definition frame_padded (tv : Z * bytes) (pad : bytes) : bytes :=
  Struct.be_bytes 2 tv.1 ++ Struct.be_bytes 2 (len tv.2) ++ tv.2 ++ pad.

(** The padding has the length the codec skips, whatever its bytes. *)
Definition pads_fit (tvs : list (Z * bytes)) (pads : list bytes) : Prop :=
  Forall2 (fun tv pad => len pad = pad_len (len tv.2)) tvs pads.

(** ** More sample inputs *)

(** 2001:db8::1 port 3478. *)
Definition sample_host6 : ipaddress :=
  IPv6Address (map byte_of_Z [0x20; 0x01; 0x0d; 0xb8; 0; 0; 0; 0;
                              0; 0; 0; 0; 0; 0; 0; 1]).

Definition sample_host4 : ipaddress :=
  IPv4Address (map byte_of_Z [192; 168; 1; 2]).

Definition other_tid : bytes := map byte_of_Z [9; 9; 9; 9; 9; 9; 9; 9; 9; 9; 9; 9].

(** The attribute section made of the frames of [tvs], each followed by
    its padding from [pads]. *)
Definition padded_frames (tvs : list (Z * bytes)) (pads : list bytes)
  : bytes :=
  concat (zip_with frame_padded tvs pads).

(** The exception the unpack function [g] raises on value bytes [v] it
    refuses, the transaction id having 12 bytes. *)
Definition refusal (g : unpacker) (v : bytes) (e : exn) : Prop :=
  match g with
  | UnpackAddress =>
      valid_address v = false /\ exists msg : string, e = ValueError msg
  | UnpackXorAddress =>
      (20 < len v /\ e = IndexError)
      \/ (len v <= 20 /\ valid_address v = false
          /\ exists msg : string, e = ValueError msg)
  | UnpackString => is_ok (Utf8.decode v) = false /\ e = UnicodeDecodeError
  | UnpackUnsigned => len v <> 4 /\ e = StructError
  | UnpackBytes | UnpackNone => False
  end.

(** A XOR-MAPPED-ADDRESS of 24 value bytes. *)
Definition long_xor_address : bytes :=
  map byte_of_Z [0; 1; 0; 28; 0x21; 0x12; 0xa4; 0x42;
                 1; 2; 3; 4; 5; 6; 7; 8; 9; 10; 11; 12;
                 0; 0x20; 0; 24;
                 0; 1; 0; 0; 0; 0; 0; 0; 0; 0; 0; 0;
                 0; 0; 0; 0; 0; 0; 0; 0; 0; 0; 0; 0].

(** The time of send number [i], counted from 0: the delays before it
    add up to [(2 ^ i - 1) * RETRY_INTERVAL]. *)
Definition send_time (i : nat) : Q :=
  (inject_Z (2 ^ Z.of_nat i - 1) * RETRY_INTERVAL)%Q.

(** The state of a transaction once [run()] has made its first send:
    what the sends, the delay, the timer and the future are after [tries]
    sends. *)
Definition running (req : Message) (peer : address) (w : World) : Prop :=
  let t := txn w in
  1 <= tries t <= RETRY_MAX
  /\ request t = req
  /\ addr t = peer
  /\ Z.of_nat (length (sent w)) = tries t
  /\ (forall (i : nat) (s : Q * Message * address),
        sent w !! i = Some s ->
        (s.1.1 == send_time i)%Q /\ s.1.2 = req /\ s.2 = peer)
  /\ (exists d : Q, timeout_delay t = Some d /\ (d == backoff (tries t))%Q)
  /\ exists h : nat,
       timeout_handle t = Some h
       /\ match future t with
          | Pending =>
              exists deadline : Q,
                scheduled (loop w) = [(h, deadline)]
                /\ (deadline == send_time (Z.to_nat (tries t)))%Q
          | Done _ => scheduled (loop w) = []
          | Failed e =>
              scheduled (loop w) = []
              /\ e = PyException "Timeout" /\ tries t = RETRY_MAX
          end.

(** A Unicode scalar value: a code point that is not a surrogate. *)
Definition scalar (c : Z) : bool :=
  (0 <=? c) && (c <? 0x110000) && negb ((0xD800 <=? c) && (c <=? 0xDFFF)).

(** An IPv6 XOR-MAPPED-ADDRESS in a message whose transaction id has 8
    bytes. *)
Definition short_tid_message : Message :=
  mkMessage Method.BINDING Class.RESPONSE
    (map byte_of_Z [1; 2; 3; 4; 5; 6; 7; 8])
    [("XOR-MAPPED-ADDRESS"%string, VAddress sample_host6 3478)].

(** * Properties *)

(** ** Bytes and integers *)

Lemma byte_to_Z_range (b : byte) : 0 <= byte_to_Z b < 256.
Proof.
  unfold byte_to_Z. pose proof (Byte.to_N_bounded b). lia.
Qed.

Lemma byte_of_to_Z (b : byte) : byte_of_Z (byte_to_Z b) = b.
Proof.
  unfold byte_of_Z. pose proof (byte_to_Z_range b) as Hr.
  rewrite Z.mod_small by lia. unfold byte_to_Z.
  rewrite N2Z.id, Byte.of_to_N. reflexivity.
Qed.

Lemma byte_to_of_Z (z : Z) : byte_to_Z (byte_of_Z z) = z mod 256.
Proof.
  unfold byte_of_Z, byte_to_Z.
  pose proof (Z.mod_pos_bound z 256 ltac:(lia)) as Hm.
  destruct (Byte.of_N (Z.to_N (z mod 256))) as [b|] eqn:E.
  - apply Byte.to_of_N in E. rewrite E. lia.
  - apply Byte.of_N_None_iff in E. lia.
Qed.

Lemma byte_to_Z_inj (a b : byte) : byte_to_Z a = byte_to_Z b -> a = b.
Proof.
  intros H. rewrite <- (byte_of_to_Z a), <- (byte_of_to_Z b), H. reflexivity.
Qed.

Lemma lxor_range (n a b : Z) :
  0 <= n -> 0 <= a < 2 ^ n -> 0 <= b < 2 ^ n -> 0 <= Z.lxor a b < 2 ^ n.
Proof.
  intros Hn Ha Hb.
  assert (H0 : 0 <= Z.lxor a b) by (apply Z.lxor_nonneg; lia).
  split; [exact H0|].
  destruct (Z.eq_dec (Z.lxor a b) 0) as [->|Hne]; [lia|].
  apply Z.log2_lt_pow2; [lia|].
  pose proof (Z.log2_lxor a b ltac:(lia) ltac:(lia)) as Hl.
  destruct (Z.eq_dec a 0) as [->|Ha0]; destruct (Z.eq_dec b 0) as [->|Hb0].
  - rewrite Z.lxor_0_l in Hne. lia.
  - rewrite Z.lxor_0_l. apply Z.log2_lt_pow2; lia.
  - rewrite Z.lxor_0_r. apply Z.log2_lt_pow2; lia.
  - assert (Z.log2 a < n) by (apply Z.log2_lt_pow2; lia).
    assert (Z.log2 b < n) by (apply Z.log2_lt_pow2; lia).
    lia.
Qed.

Lemma byte_lxor_range (a b : byte) :
  0 <= Z.lxor (byte_to_Z a) (byte_to_Z b) < 256.
Proof.
  apply (lxor_range 8); [lia | apply byte_to_Z_range | apply byte_to_Z_range].
Qed.

Lemma bxor_involutive (a b : byte) : bxor (bxor a b) b = a.
Proof.
  unfold bxor. rewrite byte_to_of_Z.
  rewrite Z.mod_small by apply byte_lxor_range.
  rewrite Z.lxor_assoc, Z.lxor_nilpotent, Z.lxor_0_r.
  apply byte_of_to_Z.
Qed.

(** ** The error monad *)

Lemma bind_Ok {A B} (a : A) (k : A -> result B) : (Ok a ≫= k) = k a.
Proof. reflexivity. Qed.

Lemma bind_Raise {A B} (e : exn) (k : A -> result B) :
  (Raise e ≫= k) = Raise e.
Proof. reflexivity. Qed.

Lemma bind_Ok_inv {A B} (c : result A) (k : A -> result B) (b : B) :
  (c ≫= k) = Ok b -> exists a, c = Ok a /\ k a = Ok b.
Proof. destruct c as [a|e]; [eauto | discriminate]. Qed.

Lemma bind_Raise_inv {A B} (c : result A) (k : A -> result B) (e : exn) :
  (c ≫= k) = Raise e -> c = Raise e \/ exists a, c = Ok a /\ k a = Raise e.
Proof. destruct c as [a|e']; [eauto | intros [= ->]; auto]. Qed.

Lemma len_nonneg {A} (l : list A) : 0 <= len l.
Proof. unfold len. lia. Qed.

Lemma len_app {A} (l1 l2 : list A) : len (l1 ++ l2) = len l1 + len l2.
Proof. unfold len. rewrite length_app. lia. Qed.

(** ** struct *)

Lemma be_bytes_S n z :
  Struct.be_bytes (S n) z = Struct.be_bytes n (z / 256) ++ [byte_of_Z z].
Proof. reflexivity. Qed.

Lemma be_bytes_length n z : length (Struct.be_bytes n z) = n.
Proof.
  revert z. induction n as [|n IH]; intros z; [reflexivity|].
  rewrite be_bytes_S, length_app, IH. simpl. lia.
Qed.

Lemma be_value_app bs b :
  Struct.be_value (bs ++ [b]) = Struct.be_value bs * 256 + byte_to_Z b.
Proof. unfold Struct.be_value. rewrite fold_left_app. reflexivity. Qed.

Lemma be_value_be_bytes n z :
  0 <= z < 256 ^ Z.of_nat n -> Struct.be_value (Struct.be_bytes n z) = z.
Proof.
  revert z. induction n as [|n IH]; intros z Hz.
  - change (Struct.be_bytes 0 z) with (@nil byte).
    simpl in *. unfold Struct.be_value. simpl. lia.
  - rewrite be_bytes_S, be_value_app, byte_to_of_Z.
    rewrite Nat2Z.inj_succ, Z.pow_succ_r in Hz by lia.
    rewrite IH.
    + pose proof (Z.div_mod z 256 ltac:(lia)). lia.
    + split; [apply Z.div_pos; lia|].
      apply Z.div_lt_upper_bound; lia.
Qed.

Lemma be_value_range bs :
  0 <= Struct.be_value bs < 256 ^ Z.of_nat (length bs).
Proof.
  induction bs as [|b bs IH] using rev_ind.
  - unfold Struct.be_value. simpl. lia.
  - rewrite be_value_app, length_app. simpl length.
    replace (Z.of_nat (length bs + 1)) with (Z.succ (Z.of_nat (length bs))) by lia.
    rewrite Z.pow_succ_r by lia.
    pose proof (byte_to_Z_range b). lia.
Qed.

Lemma pack_uint_ok n z :
  0 <= z < 256 ^ Z.of_nat n -> Struct.pack_uint n z = Ok (Struct.be_bytes n z).
Proof.
  intros Hz. unfold Struct.pack_uint.
  destruct (Z.leb_spec 0 z); [|lia].
  destruct (Z.ltb_spec z (256 ^ Z.of_nat n)); [|lia]. reflexivity.
Qed.

Lemma pack_uint_inv n z bs :
  Struct.pack_uint n z = Ok bs ->
  0 <= z < 256 ^ Z.of_nat n /\ bs = Struct.be_bytes n z.
Proof.
  unfold Struct.pack_uint.
  destruct (Z.leb_spec 0 z); destruct (Z.ltb_spec z (256 ^ Z.of_nat n));
    simpl; intros Heq; inversion Heq; subst; auto.
Qed.

Lemma pack_uint_error n z :
  ~ (0 <= z < 256 ^ Z.of_nat n) -> Struct.pack_uint n z = Raise StructError.
Proof.
  intros Hz. unfold Struct.pack_uint.
  destruct (Z.leb_spec 0 z); destruct (Z.ltb_spec z (256 ^ Z.of_nat n));
    simpl; auto; lia.
Qed.

(** ** xor_address *)

Lemma index_nat (data : bytes) (i : nat) :
  index data (Z.of_nat i) =
  match nth_error data i with
  | Some b => Ok (byte_to_Z b)
  | None => Raise IndexError
  end.
Proof.
  unfold index. destruct (Z.ltb_spec (Z.of_nat i) 0); [lia|].
  rewrite Nat2Z.id. reflexivity.
Qed.

Lemma nth_error_nth_lt (data : bytes) (i : nat) :
  (i < length data)%nat -> nth_error data i = Some (nth i data x00).
Proof. intros Hi. apply nth_error_nth'. exact Hi. Qed.

Lemma int_to_bytes_1_xor (a b : byte) :
  int_to_bytes_1 (Z.lxor (byte_to_Z a) (byte_to_Z b)) = Ok [bxor a b].
Proof.
  unfold int_to_bytes_1. pose proof (byte_lxor_range a b) as Hr.
  destruct (Z.leb_spec 0 (Z.lxor (byte_to_Z a) (byte_to_Z b))); [|lia].
  destruct (Z.ltb_spec (Z.lxor (byte_to_Z a) (byte_to_Z b)) 256); [|lia].
  reflexivity.
Qed.

Lemma xor_loop_ok (data pad : bytes) (n : nat) :
  forall (i : nat) (xdata : bytes),
    (2 <= i)%nat -> (i + n <= length data)%nat ->
    (i + n <= 2 + length pad)%nat ->
    xor_loop data pad (seq i n) xdata
    = Ok (xdata ++ map (xor_at data pad) (seq i n)).
Proof.
  induction n as [|n IH]; intros i xdata Hi Hd Hp; simpl.
  - rewrite app_nil_r. reflexivity.
  - rewrite index_nat, nth_error_nth_lt by lia. simpl.
    replace (Z.of_nat i - 2) with (Z.of_nat (i - 2)) by lia.
    rewrite index_nat, nth_error_nth_lt by lia. simpl.
    rewrite int_to_bytes_1_xor. simpl.
    rewrite IH by lia. rewrite <- app_assoc. reflexivity.
Qed.

Lemma xor_loop_index_error (data pad : bytes) (n : nat) :
  forall (i : nat) (xdata : bytes),
    (2 <= i <= 2 + length pad)%nat -> (i + n <= length data)%nat ->
    (2 + length pad < i + n)%nat ->
    xor_loop data pad (seq i n) xdata = Raise IndexError.
Proof.
  induction n as [|n IH]; intros i xdata Hi Hd Hp; simpl; [lia|].
  rewrite index_nat, nth_error_nth_lt by lia. simpl.
  replace (Z.of_nat i - 2) with (Z.of_nat (i - 2)) by lia.
  rewrite index_nat.
  destruct (Nat.eq_dec i (2 + length pad)%nat) as [->|Hne].
  - replace (nth_error pad (2 + length pad - 2)) with (@None byte); [reflexivity|].
    symmetry. apply nth_error_None. lia.
  - rewrite nth_error_nth_lt by lia. simpl.
    rewrite int_to_bytes_1_xor. simpl. apply IH; lia.
Qed.

Lemma xpad_length (tid : bytes) : length (xpad tid) = (6 + length tid)%nat.
Proof. unfold xpad. rewrite !length_app, !be_bytes_length. lia. Qed.

Lemma xor_address_unfold (data tid : bytes) :
  xor_address data tid
  = xor_loop data (xpad tid) (seq 2 (length data - 2)) (take 2 data).
Proof. reflexivity. Qed.

Lemma xor_address_ok (data tid : bytes) :
  (length data <= 8 + length tid)%nat ->
  xor_address data tid
  = Ok (take 2 data ++ map (xor_at data (xpad tid)) (seq 2 (length data - 2))).
Proof.
  intros Hlen. rewrite xor_address_unfold.
  destruct (le_lt_dec (length data) 2) as [Hs|Hs].
  - replace (length data - 2)%nat with 0%nat by lia. simpl.
    rewrite app_nil_r. reflexivity.
  - apply xor_loop_ok; rewrite ?xpad_length; lia.
Qed.

Lemma xor_address_too_long (data tid : bytes) :
  (8 + length tid < length data)%nat ->
  xor_address data tid = Raise IndexError.
Proof.
  intros Hlen. rewrite xor_address_unfold.
  apply xor_loop_index_error; rewrite ?xpad_length; lia.
Qed.

Lemma xor_address_length (data tid xdata : bytes) :
  xor_address data tid = Ok xdata -> length xdata = length data.
Proof.
  destruct (le_lt_dec (length data) (8 + length tid)) as [Hs|Hs].
  - rewrite xor_address_ok by exact Hs. intros [= <-].
    rewrite length_app, length_map, length_seq, length_take. lia.
  - rewrite xor_address_too_long by exact Hs. discriminate.
Qed.

Lemma drop_as_map_nth (data : bytes) (k : nat) :
  drop k data = map (fun j => nth j data x00) (seq k (length data - k)).
Proof.
  revert k. induction data as [|b data IH]; intros k.
  - rewrite drop_nil. reflexivity.
  - destruct k as [|k].
    + simpl. f_equal. specialize (IH 0%nat). rewrite drop_0 in IH.
      rewrite IH at 1. rewrite Nat.sub_0_r.
      rewrite <- seq_shift, map_map. reflexivity.
    + simpl. rewrite IH. rewrite <- seq_shift, map_map. reflexivity.
Qed.

Lemma lookup_nth_error {A} (l : list A) (i : nat) : l !! i = nth_error l i.
Proof.
  revert i. induction l as [|a l IH]; intros [|i]; simpl; auto.
Qed.

Lemma take_2_prefix (data rest : bytes) :
  ((length data <= 2)%nat -> rest = []) ->
  take 2 (take 2 data ++ rest) = take 2 data.
Proof.
  intros Hrest. destruct (le_lt_dec (length data) 2) as [Hs|Hs].
  - rewrite (Hrest Hs), app_nil_r, take_take. f_equal.
  - rewrite take_app_le by (rewrite length_take; lia).
    rewrite take_take. f_equal.
Qed.

Lemma map_seq_short {A} (f : nat -> A) (data : bytes) :
  (length data <= 2)%nat -> map f (seq 2 (length data - 2)) = [].
Proof. intros Hs. replace (length data - 2)%nat with 0%nat by lia. reflexivity. Qed.

Lemma xor_address_xored (data tid : bytes) :
  (length data <= 8 + length tid)%nat ->
  exists xdata, xor_address data tid = Ok xdata
                /\ xored_with (xpad tid) data xdata.
Proof.
  intros Hlen. eexists. split; [apply xor_address_ok; exact Hlen|].
  split; [|split].
  - rewrite length_app, length_map, length_seq, length_take. lia.
  - apply take_2_prefix, map_seq_short.
  - intros i d Hi Hd.
    assert (Hlt : (i < length data)%nat) by (eapply lookup_lt_Some; eauto).
    exists (nth (i - 2) (xpad tid) x00). split.
    + rewrite lookup_nth_error. apply nth_error_nth_lt.
      rewrite xpad_length. lia.
    + rewrite lookup_app_r by (rewrite length_take; lia).
      rewrite length_take. replace (i - 2 `min` length data)%nat with (i - 2)%nat by lia.
      rewrite list_lookup_fmap, lookup_seq_lt by lia. cbn -[xpad nth].
      replace (S (S (i - 2)))%nat with i by lia.

      rewrite lookup_nth_error, (nth_error_nth_lt data i Hlt) in Hd.
      unfold xor_at. congruence.
Qed.

Lemma xor_address_twice (data tid : bytes) :
  (length data <= 8 + length tid)%nat ->
  (xdata ← xor_address data tid; xor_address xdata tid) = Ok data.
Proof.
  intros Hlen. rewrite xor_address_ok by exact Hlen. simpl.
  set (xdata := take 2 data ++ _).
  assert (Hl : length xdata = length data).
  { unfold xdata. rewrite length_app, length_map, length_seq, length_take. lia. }
  rewrite xor_address_ok by lia. rewrite Hl.
  f_equal. symmetry. rewrite <- (take_drop 2 data) at 1. symmetry. f_equal.
  - apply take_2_prefix, map_seq_short.
  - rewrite drop_as_map_nth. apply map_ext_in. intros j Hj.
    apply in_seq in Hj.
    assert (Hx : nth j xdata x00 = xor_at data (xpad tid) j).
    { unfold xdata. rewrite app_nth2 by (rewrite length_take; lia).
      rewrite length_take. replace (2 `min` length data)%nat with 2%nat by lia.
      rewrite (nth_indep _ x00 (xor_at data (xpad tid) 0%nat))
        by (rewrite length_map, length_seq; lia).
      rewrite map_nth, seq_nth by lia. f_equal; lia. }
    unfold xor_at at 1. rewrite Hx. unfold xor_at.
    apply bxor_involutive.
Qed.

(** ** The attribute registry *)

Section Indexing.
Context {K : Type} `{Countable K} {V : Type} (key : V -> K).

Lemma filled_lookup_other (rows : list V) (d : gmap K V) (k : K) :
  k ∉ map key rows -> filled key rows d !! k = d !! k.
Proof.
  revert d. induction rows as [|x rows IH]; intros d Hk; simpl; [reflexivity|].
  simpl in Hk. rewrite not_elem_of_cons in Hk. destruct Hk as [Hne Hk].
  rewrite IH by exact Hk. apply lookup_insert_ne. congruence.
Qed.

Lemma filled_lookup_inv (rows : list V) (d : gmap K V) (k : K) (x : V) :
  filled key rows d !! k = Some x ->
  (x ∈ rows /\ key x = k) \/ d !! k = Some x.
Proof.
  revert d. induction rows as [|y rows IH]; intros d Hx; simpl in *; [auto|].
  apply IH in Hx as [[Hin Hk]|Hx].
  - left. split; [apply elem_of_cons; auto | exact Hk].
  - destruct (decide (key y = k)) as [Heq|Hne].
    + rewrite <- Heq, lookup_insert_eq in Hx. injection Hx as <-.
      left. split; [apply elem_of_cons; auto | exact Heq].
    + rewrite lookup_insert_ne in Hx by exact Hne. auto.
Qed.

Lemma filled_lookup_nodup (rows : list V) (d : gmap K V) (x : V) :
  NoDup (map key rows) -> x ∈ rows -> filled key rows d !! key x = Some x.
Proof.
  revert d. induction rows as [|y rows IH]; intros d Hnd Hin; simpl in *.
  - apply elem_of_nil in Hin. contradiction.
  - apply NoDup_cons in Hnd as [Hy Hnd].
    apply elem_of_cons in Hin as [->|Hin].
    + rewrite filled_lookup_other by exact Hy. apply lookup_insert_eq.
    + apply IH; assumption.
Qed.

(** With a repeated key the row met last is the one kept. *)
Lemma filled_lookup_last (rows : list V) (d : gmap K V) (x : V) :
  filled key (rows ++ [x]) d !! key x = Some x.
Proof.
  unfold filled. rewrite fold_left_app. simpl. apply lookup_insert_eq.
Qed.
End Indexing.

Lemma index_attributes_eq (table : list attribute) :
  index_attributes table
  = (filled type_of table ∅,
     filled name_of table ∅).
Proof.
  unfold index_attributes, filled.
  generalize (∅ : gmap Z attribute) (∅ : gmap string attribute).
  induction table as [|a table IH]; intros bt bn; simpl; [reflexivity|].
  apply IH.
Qed.

Lemma registry_unique (table : list attribute) :
  NoDup (map type_of table) ->
  NoDup (map name_of table) ->
  forall a : attribute,
    ((index_attributes table).1 !! type_of a = Some a <-> a ∈ table) /\
    ((index_attributes table).2 !! name_of a = Some a <-> a ∈ table).
Proof.
  intros Ht Hn a. rewrite index_attributes_eq. simpl. split; split.
  - intros Hl. apply filled_lookup_inv in Hl as [[Hin _]|Hl]; [exact Hin|].
    rewrite lookup_empty in Hl. discriminate.
  - apply (filled_lookup_nodup type_of). exact Ht.
  - intros Hl. apply filled_lookup_inv in Hl as [[Hin _]|Hl]; [exact Hin|].
    rewrite lookup_empty in Hl. discriminate.
  - apply (filled_lookup_nodup name_of). exact Hn.
Qed.

Lemma ATTRIBUTES_types_NoDup :
  NoDup (map type_of ATTRIBUTES).
Proof. apply (bool_decide_unpack _). vm_compute. exact I. Qed.

Lemma ATTRIBUTES_names_NoDup :
  NoDup (map name_of ATTRIBUTES).
Proof. apply (bool_decide_unpack _). vm_compute. exact I. Qed.

(** ** The transaction state machine *)

Lemma await_future_resolved (fuel : nat) (w : World) (r : result Message) :
  awaited (future (txn w)) = Some r -> await_future fuel w = Some (r, w).
Proof. intros Hr. destruct fuel; simpl; rewrite Hr; reflexivity. Qed.

Lemma await_future_more_fuel (n : nat) :
  forall (m : nat) (w : World) (x : result Message * World),
    (n <= m)%nat -> await_future n w = Some x -> await_future m w = Some x.
Proof.
  induction n as [|n IH]; intros m w x Hle Hx.
  - simpl in Hx. destruct (awaited (future (txn w))) as [r|] eqn:Hr; [|discriminate].
    rewrite (await_future_resolved m w r Hr). exact Hx.
  - destruct m as [|m]; [lia|]. simpl in *.
    destruct (awaited (future (txn w))) as [r|]; [exact Hx|].
    destruct (fire w) as [w'|e]; [|exact Hx].
    apply IH; [lia | exact Hx].
Qed.

Lemma run_more_fuel (n m : nat) (w : World) (x : result Message * World) :
  (n <= m)%nat -> run n w = Some x -> run m w = Some x.
Proof.
  unfold run. intros Hle. destruct (__retry w) as [w'|e]; [|auto].
  apply await_future_more_fuel. exact Hle.
Qed.

Lemma fire_idle (w : World) : scheduled (loop w) = [] -> fire w = Ok w.
Proof. unfold fire. intros ->. reflexivity. Qed.

Lemma fire_n_idle (n : nat) (w : World) :
  scheduled (loop w) = [] -> fire_n n w = Ok w.
Proof.
  intros Hs. induction n as [|n IH]; simpl; [reflexivity|].
  rewrite (fire_idle w Hs). simpl. exact IH.
Qed.

(** ** crc32 and hmac *)

Lemma crc32_step_range (crc : Z) :
  0 <= crc < 2 ^ 32 -> 0 <= Crc32.step crc < 2 ^ 32.
Proof.
  intros Hc. unfold Crc32.step.
  assert (Hs : 0 <= Z.shiftr crc 1 < 2 ^ 31).
  { rewrite Z.shiftr_div_pow2 by lia. change (2 ^ 1) with 2.
    split; [apply Z.div_pos; lia | apply Z.div_lt_upper_bound; lia]. }
  destruct (Z.odd crc); [|lia].
  apply (lxor_range 32); lia.
Qed.

Lemma crc32_update_range (crc : Z) (b : byte) :
  0 <= crc < 2 ^ 32 -> 0 <= Crc32.update crc b < 2 ^ 32.
Proof.
  intros Hc. unfold Crc32.update.
  assert (H0 : 0 <= Z.lxor crc (byte_to_Z b) < 2 ^ 32).
  { pose proof (byte_to_Z_range b). apply (lxor_range 32); lia. }
  generalize dependent (Z.lxor crc (byte_to_Z b)). intros c Hcr.
  do 8 (apply crc32_step_range). exact Hcr.
Qed.

Lemma crc32_range (data : bytes) : 0 <= Crc32.crc32 data < 2 ^ 32.
Proof.
  unfold Crc32.crc32.
  assert (H0 : 0 <= fold_left Crc32.update data 0xFFFFFFFF < 2 ^ 32).
  { assert (Hi : 0 <= 0xFFFFFFFF < 2 ^ 32) by lia.
    generalize dependent 0xFFFFFFFF. induction data as [|b data IH]; intros c Hc.
    - exact Hc.
    - simpl. apply IH, crc32_update_range, Hc. }
  apply (lxor_range 32); lia.
Qed.

Lemma fingerprint_range (data : bytes) :
  0 <= Z.lxor (Crc32.crc32 data) FINGERPRINT_XOR < 256 ^ 4.
Proof.
  pose proof (crc32_range data). change (256 ^ 4) with (2 ^ 32).
  apply (lxor_range 32); unfold FINGERPRINT_XOR; lia.
Qed.

(** Check values: CRC-32 of "123456789", SHA-1 of "abc" (FIPS 180) and
    the second test case of RFC 2202. *)
Example crc32_check :
  Crc32.crc32 (ascii_bytes "123456789") = 0xCBF43926.
Proof. vm_compute. reflexivity. Qed.

Example sha1_abc :
  map byte_to_Z (Sha1.sha1 (ascii_bytes "abc"))
  = [0xa9; 0x99; 0x3e; 0x36; 0x47; 0x06; 0x81; 0x6a; 0xba; 0x3e;
     0x25; 0x71; 0x78; 0x50; 0xc2; 0x6c; 0x9c; 0xd0; 0xd8; 0x9d].
Proof. vm_compute. reflexivity. Qed.

Example hmac_sha1_rfc2202 :
  map byte_to_Z
    (Sha1.hmac_sha1 (ascii_bytes "Jefe")
       (ascii_bytes "what do ya want for nothing?"))
  = [0xef; 0xfc; 0xdf; 0x6a; 0xe5; 0xeb; 0x2f; 0xa2; 0xd2; 0x74;
     0x16; 0xd5; 0xf1; 0x84; 0xdf; 0x9c; 0x25; 0x9a; 0x7c; 0x79].
Proof. vm_compute. reflexivity. Qed.

Lemma sha1_length (data : bytes) : length (Sha1.sha1 data) = 20%nat.
Proof.
  unfold Sha1.sha1.
  destruct (Sha1.blocks _ _ _) as [[[[h0 h1] h2] h3] h4].
  rewrite !length_app, !be_bytes_length. reflexivity.
Qed.

Lemma hmac_sha1_length (key data : bytes) :
  length (Sha1.hmac_sha1 key data) = 20%nat.
Proof. unfold Sha1.hmac_sha1. apply sha1_length. Qed.

(** ** Message.__bytes__ *)

Lemma pack_12s_length (s : bytes) : length (Struct.pack_12s s) = 12%nat.
Proof.
  unfold Struct.pack_12s. rewrite length_take, length_app, repeat_length. lia.
Qed.

Lemma pack_12s_exact (s : bytes) : length s = 12%nat -> Struct.pack_12s s = s.
Proof.
  intros Hs. unfold Struct.pack_12s.
  rewrite take_app_le by lia. apply take_ge. lia.
Qed.

(** The 20-byte header of a serialized message. *)
Lemma header_length (ty n : Z) (tid : bytes) :
  length (header ty n tid) = 20%nat.
Proof.
  unfold header. rewrite !length_app, !be_bytes_length, pack_12s_length.
  reflexivity.
Qed.

Lemma len_header_app (ty n : Z) (tid body : bytes) :
  len (header ty n tid ++ body) = 20 + len body.
Proof. rewrite len_app. unfold len at 1. rewrite header_length. lia. Qed.

Lemma pack_HHI12s_inv (ty n : Z) (tid h : bytes) :
  Struct.pack_HHI12s ty n COOKIE tid = Ok h ->
  0 <= ty < 65536 /\ 0 <= n < 65536 /\ h = header ty n tid.
Proof.
  unfold Struct.pack_HHI12s, Struct.pack_H, Struct.pack_I.
  destruct (Struct.pack_uint 2 ty) as [x|] eqn:Ex; [|discriminate].
  destruct (Struct.pack_uint 2 n) as [y|] eqn:Ey; [|discriminate].
  apply pack_uint_inv in Ex as [Hx ->]. apply pack_uint_inv in Ey as [Hy ->].
  rewrite pack_uint_ok by (unfold COOKIE; simpl; lia). simpl.
  intros [= <-]. change (256 ^ Z.of_nat 2) with 65536 in *.
  split; [lia|]. split; [lia|]. reflexivity.
Qed.

Lemma pack_HHI12s_ok (ty n : Z) (tid : bytes) :
  0 <= ty < 65536 -> 0 <= n < 65536 ->
  Struct.pack_HHI12s ty n COOKIE tid = Ok (header ty n tid).
Proof.
  intros Hty Hn. unfold Struct.pack_HHI12s, Struct.pack_H, Struct.pack_I.
  rewrite !pack_uint_ok by (unfold COOKIE; simpl; lia). reflexivity.
Qed.

(** A serialization is a header followed by the attribute section. *)
Lemma bytes_inv (self : Message) (data : bytes) :
  __bytes__ self = Ok data ->
  exists body,
    bytes_loop (transaction_id self) (attributes self) [] = Ok body
    /\ 0 <= message_type self < 65536
    /\ len body < 65536
    /\ data = header (message_type self) (len body) (transaction_id self)
              ++ body.
Proof.
  unfold __bytes__.
  destruct (bytes_loop _ _ _) as [body|] eqn:Eb; [|discriminate]. simpl.
  destruct (Struct.pack_HHI12s _ _ _ _) as [h|] eqn:Eh; [|discriminate]. simpl.
  intros [= <-]. apply pack_HHI12s_inv in Eh as (Hty & Hn & ->).
  exists body. unfold message_type. repeat split; auto; lia.
Qed.

Lemma bytes_ok (self : Message) (body : bytes) :
  bytes_loop (transaction_id self) (attributes self) [] = Ok body ->
  0 <= message_type self < 65536 -> len body < 65536 ->
  __bytes__ self
  = Ok (header (message_type self) (len body) (transaction_id self) ++ body).
Proof.
  intros Hb Hty Hn. unfold __bytes__. rewrite Hb. simpl.
  fold (message_type self).
  rewrite pack_HHI12s_ok by (pose proof (len_nonneg body); lia).
  reflexivity.
Qed.

Lemma bytes_loop_cons (tid : bytes) (name : string) (x : value)
    (items : odict) (data : bytes) :
  bytes_loop tid ((name, x) :: items) data
  = match ATTRIBUTES_BY_NAME !! name with
    | None => Raise KeyError
    | Some (attr_type, _, attr_pack, _) =>
        v ← (if decide (attr_pack = PackXorAddress)
             then pack_xor_address x tid
             else call_pack attr_pack x);
        h ← Struct.pack_HH attr_type (len v);
        bytes_loop tid items (data ++ h ++ v ++ zeros (pad_len (len v)))
    end.
Proof. reflexivity. Qed.

Lemma pack_HH_ok (a b : Z) :
  0 <= a < 65536 -> 0 <= b < 65536 ->
  Struct.pack_HH a b = Ok (Struct.be_bytes 2 a ++ Struct.be_bytes 2 b).
Proof.
  intros Ha Hb. unfold Struct.pack_HH, Struct.pack_H.
  rewrite !pack_uint_ok by (change (256 ^ Z.of_nat 2) with 65536; lia).
  reflexivity.
Qed.

Lemma pack_HH_inv (a b : Z) (h : bytes) :
  Struct.pack_HH a b = Ok h ->
  0 <= a < 65536 /\ 0 <= b < 65536
  /\ h = Struct.be_bytes 2 a ++ Struct.be_bytes 2 b.
Proof.
  unfold Struct.pack_HH, Struct.pack_H. intros Hh.
  apply bind_Ok_inv in Hh as (x & Hx & Hh).
  apply bind_Ok_inv in Hh as (y & Hy & Hh).
  apply pack_uint_inv in Hx as [Ha ->]. apply pack_uint_inv in Hy as [Hb ->].
  change (256 ^ Z.of_nat 2) with 65536 in *. injection Hh as <-. auto.
Qed.

Lemma bytes_loop_acc (tid : bytes) (items : odict) :
  forall data : bytes,
    bytes_loop tid items data
    = (body ← bytes_loop tid items []; Ok (data ++ body)).
Proof.
  induction items as [|[name v] items IH]; intros data.
  - cbn [bytes_loop]. rewrite bind_Ok, app_nil_r. reflexivity.
  - rewrite !bytes_loop_cons.
    destruct (ATTRIBUTES_BY_NAME !! name) as [[[[ty nm] pk] un]|]; [|reflexivity].
    destruct (if decide (pk = PackXorAddress) then _ else _) as [x|];
      [|reflexivity].
    rewrite !bind_Ok.
    destruct (Struct.pack_HH ty (len x)) as [h|]; [|reflexivity].
    rewrite !bind_Ok, IH. rewrite (IH ([] ++ h ++ x ++ zeros (pad_len (len x)))).
    destruct (bytes_loop tid items []) as [body|]; [|reflexivity].
    rewrite !bind_Ok, <- !app_assoc. reflexivity.
Qed.

Lemma bytes_loop_app (tid : bytes) (items1 items2 : odict) :
  forall data : bytes,
    bytes_loop tid (items1 ++ items2) data
    = (r ← bytes_loop tid items1 data; bytes_loop tid items2 r).
Proof.
  induction items1 as [|[name v] items1 IH]; intros data; [reflexivity|].
  cbn [app]. rewrite !bytes_loop_cons.
  destruct (ATTRIBUTES_BY_NAME !! name) as [[[[ty nm] pk] un]|]; [|reflexivity].
  destruct (if decide (pk = PackXorAddress) then _ else _) as [x|];
    [|reflexivity].
  rewrite !bind_Ok.
  destruct (Struct.pack_HH ty (len x)) as [h|]; [|reflexivity].
  rewrite !bind_Ok. apply IH.
Qed.

Lemma odict_set_new (k : string) (v : value) (d : odict) :
  odict_get k d = None -> odict_set k v d = d ++ [(k, v)].
Proof.
  induction d as [|[k' v'] d IH]; simpl; [reflexivity|].
  destruct (String.eqb k k'); [discriminate|].
  intros Hk. rewrite IH by exact Hk. reflexivity.
Qed.

(** ** add_fingerprint and add_message_integrity *)

(** Replacing bytes 2 and 3 of a serialization replaces the length field
    of its header. *)
Lemma patch_length (ty n n' : Z) (tid body : bytes) :
  slice (header ty n tid ++ body) 0 2 ++ Struct.be_bytes 2 n'
    ++ slice_from (header ty n tid ++ body) 4
  = header ty n' tid ++ body.
Proof.
  unfold slice, slice_from, header.
  change (Z.to_nat (2 - 0)) with 2%nat. change (Z.to_nat 0) with 0%nat.
  change (Z.to_nat 4) with 4%nat.
  rewrite drop_0, <- !app_assoc.
  rewrite take_app_length' by (rewrite be_bytes_length; reflexivity).
  rewrite (app_assoc (Struct.be_bytes 2 ty) (Struct.be_bytes 2 n)).
  rewrite drop_app_length'
    by (rewrite length_app, !be_bytes_length; reflexivity).
  reflexivity.
Qed.

(** The serialization once [value], [n] bytes long with [n] a multiple
    of 4, is stored under a [name] the message did not have. *)
Lemma bytes_set_new (self : Message) (body v : bytes) (name : string)
    (x : value) (ty : Z) (pk : packer) (un : unpacker) :
  bytes_loop (transaction_id self) (attributes self) [] = Ok body ->
  0 <= message_type self < 65536 ->
  odict_get name (attributes self) = None ->
  ATTRIBUTES_BY_NAME !! name = Some (ty, name, pk, un) ->
  pk <> PackXorAddress ->
  call_pack pk x = Ok v ->
  0 <= ty < 65536 ->
  pad_len (len v) = 0 ->
  len body + 4 + len v < 65536 ->
  __bytes__ (set_attribute self name x)
  = Ok (header (message_type self) (len body + 4 + len v) (transaction_id self)
          ++ body ++ Struct.be_bytes 2 ty ++ Struct.be_bytes 2 (len v) ++ v).
Proof.
  intros Hb Hty Hnew Hreg Hpk Hv Hcode Hpad Hlen.
  pose proof (len_nonneg body) as Hb0. pose proof (len_nonneg v) as Hv0.
  assert (Hloop : bytes_loop (transaction_id self)
                    (attributes (set_attribute self name x)) []
                  = Ok (body ++ Struct.be_bytes 2 ty
                          ++ Struct.be_bytes 2 (len v) ++ v)).
  { unfold set_attribute, attributes at 1.
    rewrite odict_set_new by exact Hnew.
    rewrite bytes_loop_app, Hb, bind_Ok, bytes_loop_cons, Hreg.
    destruct (decide (pk = PackXorAddress)) as [?|_]; [contradiction|].
    rewrite Hv, bind_Ok, pack_HH_ok, bind_Ok, Hpad by lia.
    unfold zeros. change (Z.to_nat 0) with 0%nat. cbn [repeat bytes_loop].
    rewrite app_nil_r, <- !app_assoc. reflexivity. }
  assert (Hl : len (body ++ Struct.be_bytes 2 ty
                        ++ Struct.be_bytes 2 (len v) ++ v)
               = len body + 4 + len v).
  { rewrite !len_app. unfold len at 2 3. rewrite !be_bytes_length. lia. }
  rewrite (bytes_ok _ _ Hloop).
  - rewrite Hl. reflexivity.
  - exact Hty.
  - rewrite Hl. exact Hlen.
Qed.

Lemma add_fingerprint_overflow (self : Message) (data : bytes) :
  __bytes__ self = Ok data ->
  65536 <= len data - HEADER_LENGTH + 8 ->
  add_fingerprint self = Raise StructError.
Proof.
  intros Hdata Hlen. unfold add_fingerprint. rewrite Hdata, bind_Ok.
  unfold Struct.pack_H. rewrite pack_uint_error; [reflexivity|].
  change (256 ^ Z.of_nat 2) with 65536. lia.
Qed.

Lemma add_message_integrity_overflow (self : Message) (key data : bytes) :
  __bytes__ self = Ok data ->
  65536 <= len data - HEADER_LENGTH + 24 ->
  add_message_integrity self key = Raise StructError.
Proof.
  intros Hdata Hlen. unfold add_message_integrity. rewrite Hdata, bind_Ok.
  unfold Struct.pack_H. rewrite pack_uint_error; [reflexivity|].
  change (256 ^ Z.of_nat 2) with 65536. lia.
Qed.

(** ** The unpack functions *)

Lemma be_value_1 (b : byte) : Struct.be_value [b] = byte_to_Z b.
Proof. unfold Struct.be_value. simpl. lia. Qed.

Lemma unpack_address_eq (b0 b1 b2 b3 : byte) (rest : bytes) :
  unpack_address (b0 :: b1 :: b2 :: b3 :: rest)
  = let port := Struct.be_value [b2; b3] in
    if byte_to_Z b1 =? IPV4_PROTOCOL then
      if negb (len rest =? 4) then
        Raise (ValueError "STUN address has invalid length for IPv4")
      else Ok (VAddress (IPv4Address rest) port)
    else if byte_to_Z b1 =? IPV6_PROTOCOL then
      if negb (len rest =? 16) then
        Raise (ValueError "STUN address has invalid length for IPv6")
      else Ok (VAddress (IPv6Address rest) port)
    else Raise (ValueError "STUN address protocol is unsupported").
Proof.
  unfold unpack_address.
  destruct (Z.ltb_spec (len (b0 :: b1 :: b2 :: b3 :: rest)) 4) as [Hl|_].
  - unfold len in Hl. simpl in Hl. lia.
  - unfold slice, slice_from. simpl. rewrite be_value_1. reflexivity.
Qed.

Lemma unpack_address_short (v : bytes) :
  len v < 4 ->
  unpack_address v
  = Raise (ValueError "STUN address length is less than 4 bytes").
Proof.
  intros Hl. unfold unpack_address.
  destruct (Z.ltb_spec (len v) 4); [reflexivity | lia].
Qed.

Lemma unpack_address_accepts (v : bytes) :
  is_ok (unpack_address v) = valid_address v.
Proof.
  unfold valid_address, protocol_of.
  destruct v as [|b0 [|b1 [|b2 [|b3 rest]]]];
    try (rewrite unpack_address_short by (unfold len; simpl; lia);
         reflexivity).
  rewrite unpack_address_eq. cbv zeta. cbn [nth].
  replace (len (b0 :: b1 :: b2 :: b3 :: rest)) with (len rest + 4)
    by (unfold len; simpl length; lia).
  pose proof (len_nonneg rest) as Hr.
  destruct (Z.leb_spec 4 (len rest + 4)); [|lia].
  unfold IPV4_PROTOCOL, IPV6_PROTOCOL.
  destruct (Z.eqb_spec (byte_to_Z b1) 1) as [E1|N1];
    destruct (Z.eqb_spec (byte_to_Z b1) 2) as [E2|N2]; try lia;
    destruct (Z.eqb_spec (len rest) 4); destruct (Z.eqb_spec (len rest) 16);
    destruct (Z.eqb_spec (len rest + 4) 8);
    destruct (Z.eqb_spec (len rest + 4) 20); try lia; reflexivity.
Qed.

Lemma unpack_address_raises (v : bytes) (e : exn) :
  unpack_address v = Raise e -> exists msg, e = ValueError msg.
Proof.
  destruct v as [|b0 [|b1 [|b2 [|b3 rest]]]];
    try (rewrite unpack_address_short by (unfold len; simpl; lia);
         intros [= <-]; eauto).
  rewrite unpack_address_eq. cbv zeta.
  repeat match goal with
         | |- context [if ?c then _ else _] => destruct c
         end; intros [= <-]; eauto.
Qed.

Lemma xor_address_raises (data tid : bytes) (e : exn) :
  xor_address data tid = Raise e -> e = IndexError.
Proof.
  destruct (le_lt_dec (length data) (8 + length tid)) as [Hs|Hs].
  - rewrite xor_address_ok by exact Hs. discriminate.
  - rewrite xor_address_too_long by exact Hs. intros [= <-]. reflexivity.
Qed.

(** [xor_address] leaves the length and the protocol byte alone, so the
    xored form of an address is accepted when the plain form is. *)
Lemma valid_address_xor (data tid xdata : bytes) :
  xor_address data tid = Ok xdata ->
  valid_address xdata = valid_address data.
Proof.
  intros Hx. pose proof (xor_address_length _ _ _ Hx) as Hl.
  destruct (le_lt_dec (length data) (8 + length tid)) as [Hs|Hs];
    [|rewrite xor_address_too_long in Hx by exact Hs; discriminate].
  destruct (xor_address_xored data tid Hs) as (x' & Hx' & _ & Ht & _).
  rewrite Hx in Hx'. injection Hx' as <-.
  unfold valid_address, protocol_of, len. rewrite Hl.
  replace (nth 1 xdata x00) with (nth 1 data x00); [reflexivity|].
  destruct data as [|d0 [|d1 data]]; destruct xdata as [|y0 [|y1 xdata]];
    simpl in *; try discriminate; try reflexivity.
  congruence.
Qed.

Lemma valid_address_length (v : bytes) :
  valid_address v = true -> (length v <= 20)%nat.
Proof.
  unfold valid_address, len. intros Hv.
  apply andb_true_iff in Hv as [_ Hv]. apply orb_true_iff in Hv.
  destruct Hv as [Hv|Hv]; apply andb_true_iff in Hv as [_ Hv];
    apply Z.eqb_eq in Hv; lia.
Qed.

Lemma unpack_xor_address_accepts (v tid : bytes) :
  length tid = 12%nat ->
  is_ok (unpack_xor_address v tid) = valid_address v.
Proof.
  intros Ht. unfold unpack_xor_address.
  destruct (xor_address v tid) as [x|e] eqn:Hx.
  - rewrite bind_Ok, unpack_address_accepts. apply (valid_address_xor _ _ _ Hx).
  - rewrite bind_Raise. simpl. symmetry. apply not_true_is_false. intros Hv.
    apply valid_address_length in Hv.
    rewrite xor_address_ok in Hx by lia. discriminate.
Qed.

Lemma unpack_unsigned_accepts (v : bytes) :
  is_ok (unpack_unsigned v) = (len v =? 4).
Proof.
  unfold unpack_unsigned, Struct.unpack_I, Struct.sized, len.
  destruct (Nat.eqb_spec (length v) 4) as [E|N].
  - rewrite E. reflexivity.
  - simpl. symmetry. apply Z.eqb_neq. lia.
Qed.

Lemma unpack_string_accepts (v : bytes) :
  is_ok (unpack_string v) = is_ok (Utf8.decode v).
Proof. unfold unpack_string. destruct (Utf8.decode v); reflexivity. Qed.

Lemma continuation_raises (b : byte) (e : exn) :
  Utf8.continuation b = Raise e -> e = UnicodeDecodeError.
Proof.
  unfold Utf8.continuation. destruct (_ && _); [discriminate|]. congruence.
Qed.

Lemma checked_raises (lo c : Z) (e : exn) :
  Utf8.checked lo c = Raise e -> e = UnicodeDecodeError.
Proof.
  unfold Utf8.checked. destruct (_ || _); [congruence | discriminate].
Qed.

Lemma decode_raises (n : nat) :
  forall (data : bytes) (e : exn),
    (length data <= n)%nat ->
    Utf8.decode data = Raise e -> e = UnicodeDecodeError.
Proof.
  induction n as [|n IH]; intros data e Hn.
  - destruct data; [discriminate | simpl in Hn; lia].
  - destruct data as [|b0 t0]; [discriminate|].
    simpl in Hn. cbn [Utf8.decode]. cbv zeta.
    assert (Hrec : forall t, (length t <= length t0)%nat ->
              forall c, (s ← Utf8.decode t; Ok (c :: s)) = Raise e ->
                        e = UnicodeDecodeError).
    { intros t Ht c Hd. apply bind_Raise_inv in Hd as [Hd|(s & _ & Hd)];
        [|discriminate]. apply (IH t e); [lia | exact Hd]. }
    destruct (byte_to_Z b0 <? 128);
      [intros Hd; exact (Hrec t0 (le_n _) _ Hd)|].
    destruct (byte_to_Z b0 <? 192); [congruence|].
    destruct (byte_to_Z b0 <? 224).
    { destruct t0 as [|b1 t1]; [congruence|]. intros Hd.
      apply bind_Raise_inv in Hd as [Hd|(c1 & _ & Hd)];
        [exact (continuation_raises _ _ Hd)|].
      apply bind_Raise_inv in Hd as [Hd|(c & _ & Hd)];
        [exact (checked_raises _ _ _ Hd)|].
      refine (Hrec t1 _ _ Hd). simpl; lia. }
    destruct (byte_to_Z b0 <? 240).
    { destruct t0 as [|b1 [|b2 t2]]; try congruence. intros Hd.
      apply bind_Raise_inv in Hd as [Hd|(c1 & _ & Hd)];
        [exact (continuation_raises _ _ Hd)|].
      apply bind_Raise_inv in Hd as [Hd|(c2 & _ & Hd)];
        [exact (continuation_raises _ _ Hd)|].
      apply bind_Raise_inv in Hd as [Hd|(c & _ & Hd)];
        [exact (checked_raises _ _ _ Hd)|].
      refine (Hrec t2 _ _ Hd). simpl; lia. }
    destruct (byte_to_Z b0 <? 248); [|congruence].
    destruct t0 as [|b1 [|b2 [|b3 t3]]]; try congruence. intros Hd.
    apply bind_Raise_inv in Hd as [Hd|(c1 & _ & Hd)];
      [exact (continuation_raises _ _ Hd)|].
    apply bind_Raise_inv in Hd as [Hd|(c2 & _ & Hd)];
      [exact (continuation_raises _ _ Hd)|].
    apply bind_Raise_inv in Hd as [Hd|(c3 & _ & Hd)];
      [exact (continuation_raises _ _ Hd)|].
    apply bind_Raise_inv in Hd as [Hd|(c & _ & Hd)];
      [exact (checked_raises _ _ _ Hd)|].
    refine (Hrec t3 _ _ Hd). simpl; lia.
Qed.

(** What an unpack function of the table can raise. *)
Lemma call_unpack_raises (f : unpacker) (v : bytes) (e : exn) :
  call_unpack f v = Raise e ->
  (exists msg, e = ValueError msg) \/ e = StructError
  \/ e = UnicodeDecodeError \/ e = TypeError.
Proof.
  destruct f; simpl.
  - intros Hu. left. exact (unpack_address_raises _ _ Hu).
  - discriminate.
  - discriminate.
  - unfold unpack_string. intros Hu.
    apply bind_Raise_inv in Hu as [Hu|(s & _ & Hu)]; [|discriminate].
    right. right. left. exact (decode_raises _ _ _ (le_n _) Hu).
  - unfold unpack_unsigned, Struct.unpack_I, Struct.sized.
    destruct (Nat.eqb _ _); [discriminate|]. intros [= <-]. auto.
  - intros [= <-]. auto.
Qed.

Lemma unpack_xor_address_raises (v tid : bytes) (e : exn) :
  unpack_xor_address v tid = Raise e ->
  (exists msg, e = ValueError msg) \/ e = IndexError.
Proof.
  unfold unpack_xor_address. intros Hu.
  apply bind_Raise_inv in Hu as [Hu|(x & _ & Hu)].
  - right. exact (xor_address_raises _ _ _ Hu).
  - left. exact (unpack_address_raises _ _ Hu).
Qed.

(** ** parse_message: termination and the bytes it reads *)

Lemma pad_len_range (n : Z) : 0 <= pad_len n < 4.
Proof.
  unfold pad_len. pose proof (Z.div_mod (n + 3) 4 ltac:(lia)).
  pose proof (Z.mod_pos_bound (n + 3) 4 ltac:(lia)). lia.
Qed.

Lemma parse_loop_eq (fuel : nat) (data tid : bytes) (pos : Z) (attrs : odict) :
  parse_loop fuel data tid pos attrs
  = if pos <=? len data - 4 then
      match fuel with
      | O => Raise LoopBound
      | S fuel' =>
          '(attr_type, attr_len) ← Struct.unpack_HH (slice data pos (pos + 4));
          let v := slice data (pos + 4) (pos + 4 + attr_len) in
          attributes' ←
            match ATTRIBUTES_BY_TYPE !! attr_type with
            | Some (_, attr_name, _, attr_unpack) =>
                x ← (if decide (attr_unpack = UnpackXorAddress)
                     then unpack_xor_address v tid
                     else call_unpack attr_unpack v);
                Ok (odict_set attr_name x attrs)
            | None => Ok attrs
            end;
          parse_loop fuel' data tid (pos + 4 + attr_len + pad_len attr_len)
            attributes'
      end
    else Ok attrs.
Proof. destruct fuel; reflexivity. Qed.

Lemma walk_eq (fuel : nat) (data : bytes) (pos : Z) :
  walk fuel data pos
  = if pos <=? len data - 4 then
      match fuel with
      | O => []
      | S fuel' =>
          let attr_type := Struct.be_value (slice data pos (pos + 2)) in
          let attr_len := Struct.be_value (slice data (pos + 2) (pos + 4)) in
          (attr_type, slice data (pos + 4) (pos + 4 + attr_len))
            :: walk fuel' data (pos + 4 + attr_len + pad_len attr_len)
      end
    else [].
Proof. destruct fuel; reflexivity. Qed.

Lemma slice_length {A} (data : list A) (lo hi : Z) :
  0 <= lo -> lo <= hi -> hi <= len data ->
  length (slice data lo hi) = Z.to_nat (hi - lo).
Proof.
  unfold slice, len. intros. rewrite length_take, length_drop. lia.
Qed.

(** Inside the loop the four bytes at [pos] are there to unpack. *)
Lemma unpack_HH_slice (data : bytes) (pos : Z) :
  0 <= pos -> pos <= len data - 4 ->
  Struct.unpack_HH (slice data pos (pos + 4))
  = Ok (Struct.be_value (slice data pos (pos + 2)),
        Struct.be_value (slice data (pos + 2) (pos + 4))).
Proof.
  intros Hp Hl. unfold Struct.unpack_HH, Struct.sized.
  rewrite slice_length by lia.
  replace (Z.to_nat (pos + 4 - pos)) with 4%nat by lia. simpl.
  unfold slice.
  replace (Z.to_nat (pos + 4 - pos)) with 4%nat by lia.
  replace (Z.to_nat (pos + 2 - pos)) with 2%nat by lia.
  replace (Z.to_nat (pos + 4 - (pos + 2))) with 2%nat by lia.
  replace (Z.to_nat (pos + 2)) with (Z.to_nat pos + 2)%nat by lia.
  rewrite take_take. change (2 `min` 4)%nat with 2%nat.
  rewrite skipn_firstn_comm, drop_drop. reflexivity.
Qed.

(** Once the walk has the steps it takes, more change nothing. *)
Lemma walk_more_fuel (fuel : nat) :
  forall (fuel' : nat) (data : bytes) (pos : Z),
    0 <= pos -> len data - pos < 4 * (Z.of_nat fuel + 1) ->
    (fuel <= fuel')%nat ->
    walk fuel' data pos = walk fuel data pos.
Proof.
  induction fuel as [|fuel IH]; intros fuel' data pos Hp Hf Hle;
    rewrite (walk_eq fuel'), (walk_eq _ data pos);
    destruct (Z.leb_spec pos (len data - 4)) as [Hin|Hout]; try reflexivity.
  - lia.
  - destruct fuel' as [|fuel']; [lia|]. cbv zeta.
    pose proof (be_value_range (slice data (pos + 2) (pos + 4))) as Hlen.
    pose proof (pad_len_range
                  (Struct.be_value (slice data (pos + 2) (pos + 4)))) as Hpad.
    f_equal. apply IH; lia.
Qed.

Lemma raw_attributes_more_fuel (data : bytes) (fuel : nat) :
  (length data <= fuel)%nat ->
  walk fuel data HEADER_LENGTH = raw_attributes data.
Proof.
  intros Hle. apply walk_more_fuel; unfold HEADER_LENGTH, len; lia.
Qed.

Lemma store_all_app (tid : bytes) (items1 items2 : list (Z * bytes)) :
  forall attrs : odict,
    store_all tid (items1 ++ items2) attrs
    = (a ← store_all tid items1 attrs; store_all tid items2 a).
Proof.
  induction items1 as [|[t v] items1 IH]; intros attrs; [reflexivity|].
  cbn [app store_all].
  destruct (ATTRIBUTES_BY_TYPE !! t) as [[[[ty nm] pk] un]|]; [|reflexivity].
  destruct (if decide (un = UnpackXorAddress) then _ else _) as [x|e];
    [|reflexivity].
  rewrite !bind_Ok. apply IH.
Qed.

(** The loop unpacks and stores, in order, the attributes of the walk
    whose type code is registered. *)
Lemma parse_loop_walk (fuel : nat) :
  forall (data tid : bytes) (pos : Z) (attrs : odict),
    0 <= pos -> len data - pos < 4 * (Z.of_nat fuel + 1) ->
    parse_loop fuel data tid pos attrs
    = store_all tid (List.filter known (walk fuel data pos)) attrs.
Proof.
  induction fuel as [|fuel IH]; intros data tid pos attrs Hp Hf;
    rewrite parse_loop_eq, walk_eq;
    destruct (Z.leb_spec pos (len data - 4)) as [Hle|Hgt]; try reflexivity.
  - lia.
  - rewrite unpack_HH_slice, bind_Ok by lia. cbv zeta.
    set (attr_type := Struct.be_value (slice data pos (pos + 2))).
    set (attr_len := Struct.be_value (slice data (pos + 2) (pos + 4))).
    pose proof (be_value_range (slice data (pos + 2) (pos + 4))) as Hlen.
    pose proof (pad_len_range attr_len) as Hpad.
    cbn [List.filter]. unfold known at 1. cbn [fst].
    destruct (ATTRIBUTES_BY_TYPE !! attr_type) as [[[[ty nm] pk] un]|] eqn:Ea.
    + rewrite bool_decide_eq_true_2 by eauto. cbn [store_all]. rewrite Ea.
      destruct (if decide (un = UnpackXorAddress) then _ else _) as [x|e].
      * rewrite !bind_Ok. apply IH; fold attr_len; lia.
      * reflexivity.
    + rewrite bool_decide_eq_false_2 by (intros [? ?]; discriminate).
      rewrite bind_Ok. apply IH; fold attr_len; lia.
Qed.

Lemma store_all_raises (tid : bytes) (items : list (Z * bytes)) :
  forall (attrs : odict) (e : exn),
    store_all tid items attrs = Raise e -> e <> LoopBound.
Proof.
  induction items as [|[t v] items IH]; intros attrs e; [discriminate|].
  cbn [store_all].
  destruct (ATTRIBUTES_BY_TYPE !! t) as [[[[ty nm] pk] un]|];
    [|intros [= <-]; discriminate].
  intros Hs. apply bind_Raise_inv in Hs as [Hs|(x & _ & Hs)];
    [|exact (IH _ _ Hs)].
  destruct (decide (un = UnpackXorAddress)).
  - apply unpack_xor_address_raises in Hs as [[msg ->]| ->]; discriminate.
  - apply call_unpack_raises in Hs as [[msg ->]|[->|[->| ->]]]; discriminate.
Qed.

(** The loop of [parse_message] ends before its iteration bound. *)
Lemma parse_loop_terminates (data tid : bytes) :
  parse_loop (length data) data tid HEADER_LENGTH [] <> Raise LoopBound.
Proof.
  rewrite parse_loop_walk by (unfold HEADER_LENGTH, len; lia).
  intros Hs. exact (store_all_raises _ _ _ _ Hs eq_refl).
Qed.

(** When every type code is registered, [store_all] succeeds unless a
    value is rejected. *)
Lemma store_all_accepts (tid : bytes) (items : list (Z * bytes)) :
  length tid = 12%nat ->
  forall attrs : odict,
    is_ok (store_all tid (List.filter known items) attrs)
    = forallb (fun tv => negb (rejected tv)) items.
Proof.
  intros Ht. induction items as [|[t v] items IH]; intros attrs; [reflexivity|].
  cbn [List.filter]. unfold known at 1, rejected at 1. cbn [fst snd forallb].
  destruct (ATTRIBUTES_BY_TYPE !! t) as [[[[ty nm] pk] un]|] eqn:Ea.
  - rewrite bool_decide_eq_true_2 by eauto. cbn [store_all]. rewrite Ea.
    assert (Hacc : is_ok (if decide (un = UnpackXorAddress)
                          then unpack_xor_address v tid
                          else call_unpack un v) = accepts un v).
    { destruct (decide (un = UnpackXorAddress)) as [->|Hne].
      - apply unpack_xor_address_accepts, Ht.
      - destruct un; try contradiction; simpl.
        + apply unpack_address_accepts.
        + reflexivity.
        + reflexivity.
        + apply unpack_string_accepts.
        + apply unpack_unsigned_accepts. }
    destruct (if decide (un = UnpackXorAddress) then _ else _) as [x|e].
    + rewrite bind_Ok, IH, <- Hacc. reflexivity.
    + rewrite bind_Raise, <- Hacc. reflexivity.
  - rewrite bool_decide_eq_false_2 by (intros [? ?]; discriminate).
    rewrite IH. reflexivity.
Qed.

(** [parse_message] in terms of the walk. *)
Lemma parse_message_eq (data : bytes) :
  parse_message data
  = if len data <? 20 then
      Raise (ValueError "STUN message length is less than 20 bytes")
    else if negb (len data =? 20 + declared_length data) then
      Raise (ValueError "STUN message length does not match")
    else
      attrs ← store_all (slice data 8 20)
                (List.filter known (raw_attributes data)) [];
      Ok (mkMessage (Z.land (Struct.be_value (slice data 0 2)) 0x3eef)
            (Z.land (Struct.be_value (slice data 0 2)) 0x0100)
            (slice data 8 20) attrs).
Proof.
  unfold parse_message, HEADER_LENGTH.
  destruct (Z.ltb_spec (len data) 20) as [Hs|Hl]; [reflexivity|].
  unfold Struct.unpack_HHI12s, Struct.sized.
  rewrite slice_length by lia. change (Z.to_nat (20 - 0)) with 20%nat.
  cbn [Nat.eqb]. rewrite bind_Ok.
  assert (H02 : take 2 (slice data 0 20) = slice data 0 2).
  { unfold slice. change (Z.to_nat 0) with 0%nat. rewrite !drop_0.
    change (Z.to_nat (20 - 0)) with 20%nat.
    change (Z.to_nat (2 - 0)) with 2%nat. rewrite take_take. reflexivity. }
  assert (H24 : take 2 (drop 2 (slice data 0 20)) = slice data 2 4).
  { unfold slice. change (Z.to_nat 0) with 0%nat. rewrite !drop_0.
    change (Z.to_nat (20 - 0)) with 20%nat.
    change (Z.to_nat (4 - 2)) with 2%nat. change (Z.to_nat 2) with 2%nat.
    rewrite skipn_firstn_comm, take_take. reflexivity. }
  assert (H820 : drop 8 (slice data 0 20) = slice data 8 20).
  { unfold slice. change (Z.to_nat 0) with 0%nat. rewrite !drop_0.
    change (Z.to_nat (20 - 0)) with 20%nat.
    change (Z.to_nat (20 - 8)) with 12%nat. change (Z.to_nat 8) with 8%nat.
    rewrite skipn_firstn_comm. reflexivity. }
  cbv beta iota. rewrite H02, H24, H820. fold (declared_length data).
  rewrite bind_Ok.
  destruct (negb (len data =? 20 + declared_length data)); [reflexivity|].
  rewrite parse_loop_walk by (unfold len; lia). reflexivity.
Qed.

Lemma transaction_id_length (data : bytes) :
  20 <= len data -> length (slice data 8 20) = 12%nat.
Proof. intros Hl. rewrite slice_length by lia. reflexivity. Qed.

(** ** Bytes 4 to 7 *)

Lemma slice_below {A} (d1 d2 : list A) (n : nat) (lo hi : Z) :
  take n d1 = take n d2 -> 0 <= lo -> hi <= Z.of_nat n ->
  slice d1 lo hi = slice d2 lo hi.
Proof.
  intros Ht Hlo Hhi. unfold slice.
  destruct (Z.le_gt_cases hi lo) as [Hle|Hgt].
  - replace (Z.to_nat (hi - lo)) with 0%nat by lia. reflexivity.
  - assert (Hs : forall d : list A,
               take (Z.to_nat (hi - lo)) (drop (Z.to_nat lo) d)
               = take (Z.to_nat (hi - lo)) (drop (Z.to_nat lo) (take n d))).
    { intros d. rewrite skipn_firstn_comm, take_take. f_equal. lia. }
    rewrite (Hs d1), (Hs d2), Ht. reflexivity.
Qed.

Lemma slice_above {A} (d1 d2 : list A) (n : nat) (lo hi : Z) :
  drop n d1 = drop n d2 -> Z.of_nat n <= lo ->
  slice d1 lo hi = slice d2 lo hi.
Proof.
  intros Hd Hlo. unfold slice.
  replace (Z.to_nat lo) with (n + (Z.to_nat lo - n))%nat by lia.
  rewrite <- !drop_drop, Hd. reflexivity.
Qed.

Lemma walk_above (d1 d2 : bytes) (n : nat) (fuel : nat) :
  length d1 = length d2 -> drop n d1 = drop n d2 ->
  forall pos : Z, Z.of_nat n <= pos -> walk fuel d1 pos = walk fuel d2 pos.
Proof.
  intros Hl Hd. induction fuel as [|fuel IH]; intros pos Hp;
    rewrite !walk_eq; unfold len; rewrite Hl; [reflexivity|].
  destruct (pos <=? Z.of_nat (length d2) - 4); [|reflexivity]. cbv zeta.
  rewrite (slice_above d1 d2 n pos (pos + 2) Hd Hp).
  rewrite (slice_above d1 d2 n (pos + 2) (pos + 4) Hd) by lia.
  pose proof (be_value_range (slice d2 (pos + 2) (pos + 4))) as Hlen.
  pose proof (pad_len_range (Struct.be_value (slice d2 (pos + 2) (pos + 4)))).
  rewrite (slice_above d1 d2 n (pos + 4)) by (auto; lia).
  rewrite IH by lia. reflexivity.
Qed.

Lemma parse_message_ignores_cookie (d1 d2 : bytes) :
  length d1 = length d2 -> take 4 d1 = take 4 d2 -> drop 8 d1 = drop 8 d2 ->
  parse_message d1 = parse_message d2.
Proof.
  intros Hl Ht Hd. rewrite !parse_message_eq.
  unfold declared_length, raw_attributes, len, HEADER_LENGTH. rewrite Hl.
  rewrite (slice_below d1 d2 4 2 4 Ht) by lia.
  rewrite (slice_below d1 d2 4 0 2 Ht) by lia.
  rewrite (slice_above d1 d2 8 8 20 Hd) by lia.
  rewrite (walk_above d1 d2 8 (length d2) Hl Hd 20) by lia.
  reflexivity.
Qed.

(** ** The utf8 codec *)

Ltac cmp_lia :=
  repeat match goal with
         | |- context [?a <? ?b] => destruct (Z.ltb_spec a b); try lia
         | |- context [?a <=? ?b] => destruct (Z.leb_spec a b); try lia
         end.

Lemma byte_to_of_Z_small (z : Z) :
  0 <= z < 256 -> byte_to_Z (byte_of_Z z) = z.
Proof. intros Hz. rewrite byte_to_of_Z. apply Z.mod_small, Hz. Qed.

Lemma continuation_ok (r : Z) :
  0 <= r < 64 -> Utf8.continuation (byte_of_Z (0x80 + r)) = Ok r.
Proof.
  intros Hr. unfold Utf8.continuation.
  rewrite byte_to_of_Z_small by lia. cmp_lia. simpl. f_equal. lia.
Qed.

Lemma checked_ok (lo c : Z) :
  lo <= c -> ~ (0xD800 <= c <= 0xDFFF) -> c <= 0x10FFFF ->
  Utf8.checked lo c = Ok c.
Proof. intros H1 H2 H3. unfold Utf8.checked. cmp_lia; reflexivity. Qed.

Lemma decode_1 (b0 : byte) (t : bytes) :
  byte_to_Z b0 < 0x80 ->
  Utf8.decode (b0 :: t) = (s ← Utf8.decode t; Ok (byte_to_Z b0 :: s)).
Proof. intros Hb. cbn [Utf8.decode]. cbv zeta. cmp_lia. reflexivity. Qed.

Lemma decode_2 (b0 b1 : byte) (t : bytes) :
  0xC0 <= byte_to_Z b0 < 0xE0 ->
  Utf8.decode (b0 :: b1 :: t)
  = (c1 ← Utf8.continuation b1;
     c ← Utf8.checked 0x80 ((byte_to_Z b0 - 0xC0) * 64 + c1);
     s ← Utf8.decode t; Ok (c :: s)).
Proof. intros Hb. cbn [Utf8.decode]. cbv zeta. cmp_lia. reflexivity. Qed.

Lemma decode_3 (b0 b1 b2 : byte) (t : bytes) :
  0xE0 <= byte_to_Z b0 < 0xF0 ->
  Utf8.decode (b0 :: b1 :: b2 :: t)
  = (c1 ← Utf8.continuation b1;
     c2 ← Utf8.continuation b2;
     c ← Utf8.checked 0x800 ((byte_to_Z b0 - 0xE0) * 4096 + c1 * 64 + c2);
     s ← Utf8.decode t; Ok (c :: s)).
Proof. intros Hb. cbn [Utf8.decode]. cbv zeta. cmp_lia. reflexivity. Qed.

Lemma decode_4 (b0 b1 b2 b3 : byte) (t : bytes) :
  0xF0 <= byte_to_Z b0 < 0xF8 ->
  Utf8.decode (b0 :: b1 :: b2 :: b3 :: t)
  = (c1 ← Utf8.continuation b1;
     c2 ← Utf8.continuation b2;
     c3 ← Utf8.continuation b3;
     c ← Utf8.checked 0x10000
           ((byte_to_Z b0 - 0xF0) * 262144 + c1 * 4096 + c2 * 64 + c3);
     s ← Utf8.decode t; Ok (c :: s)).
Proof. intros Hb. cbn [Utf8.decode]. cbv zeta. cmp_lia. reflexivity. Qed.

Lemma decode_encode_cp (c : Z) (bs : bytes) :
  Utf8.encode_cp c = Ok bs ->
  forall t : bytes,
    Utf8.decode (bs ++ t) = (s ← Utf8.decode t; Ok (c :: s)).
Proof.
  unfold Utf8.encode_cp.
  destruct (Z.ltb_spec c 0); [discriminate|].
  destruct (Z.ltb_spec c 0x80).
  { intros [= <-] t. cbn [app].
    rewrite decode_1 by (rewrite byte_to_of_Z_small; lia).
    rewrite byte_to_of_Z_small by lia. reflexivity. }
  destruct (Z.ltb_spec c 0x800).
  { intros [= <-] t. cbn [app].
    assert (Hq : 2 <= c / 64 < 32) by (Z.div_mod_to_equations; lia).
    assert (Hr : 0 <= c mod 64 < 64) by (Z.div_mod_to_equations; lia).
    rewrite decode_2 by (rewrite byte_to_of_Z_small; lia).
    rewrite continuation_ok, bind_Ok, byte_to_of_Z_small by lia.
    replace ((192 + c / 64 - 192) * 64 + c mod 64) with c
      by (Z.div_mod_to_equations; lia).
    rewrite checked_ok by lia. reflexivity. }
  destruct (Z.ltb_spec c 0x10000).
  { destruct (Z.leb_spec 0xD800 c); destruct (Z.leb_spec c 0xDFFF);
      cbn [andb]; try discriminate.
    all: intros [= <-] t; cbn [app].
    all: assert (Hq : 0 <= c / 4096 < 16) by (Z.div_mod_to_equations; lia).
    all: assert (Hr : 0 <= (c / 64) mod 64 < 64)
           by (Z.div_mod_to_equations; lia).
    all: assert (Hs : 0 <= c mod 64 < 64) by (Z.div_mod_to_equations; lia).
    all: rewrite decode_3 by (rewrite byte_to_of_Z_small; lia).
    all: rewrite !continuation_ok, !bind_Ok, byte_to_of_Z_small by lia.
    all: replace ((224 + c / 4096 - 224) * 4096 + (c / 64) mod 64 * 64
                  + c mod 64) with c by (Z.div_mod_to_equations; lia).
    all: rewrite checked_ok by lia; reflexivity. }
  destruct (Z.ltb_spec c 0x110000); [|discriminate].
  intros [= <-] t. cbn [app].
  assert (Hq : 0 <= c / 262144 < 8) by (Z.div_mod_to_equations; lia).
  assert (Hr : 0 <= (c / 4096) mod 64 < 64) by (Z.div_mod_to_equations; lia).
  assert (Hs : 0 <= (c / 64) mod 64 < 64) by (Z.div_mod_to_equations; lia).
  assert (Hu : 0 <= c mod 64 < 64) by (Z.div_mod_to_equations; lia).
  rewrite decode_4 by (rewrite byte_to_of_Z_small; lia).
  rewrite !continuation_ok, !bind_Ok, byte_to_of_Z_small by lia.
  replace ((240 + c / 262144 - 240) * 262144 + (c / 4096) mod 64 * 4096
           + (c / 64) mod 64 * 64 + c mod 64) with c
    by (Z.div_mod_to_equations; lia).
  rewrite checked_ok by lia. reflexivity.
Qed.

Lemma decode_encode (s : str) (bs : bytes) :
  Utf8.encode s = Ok bs -> Utf8.decode bs = Ok s.
Proof.
  revert bs. induction s as [|c s IH]; intros bs.
  - intros [= <-]. reflexivity.
  - cbn [Utf8.encode]. intros He.
    apply bind_Ok_inv in He as (b & Hb & He).
    apply bind_Ok_inv in He as (r & Hr & He). injection He as <-.
    rewrite (decode_encode_cp c b Hb), (IH r Hr). reflexivity.
Qed.

(** ** Packing then unpacking a value *)

Lemma pack_address_inv (v : value) (vb : bytes) :
  pack_address v = Ok vb ->
  exists (h : ipaddress) (port : Z),
    v = VAddress h port /\ 0 <= port < 65536
    /\ vb = Struct.be_bytes 1 0
            ++ Struct.be_bytes 1 (match h with
                                  | IPv4Address _ => 1
                                  | IPv6Address _ => 2
                                  end)
            ++ Struct.be_bytes 2 port ++ packed h.
Proof.
  destruct v as [h port|n|[|c s]|[|b bs]|]; try discriminate.
  unfold pack_address, Struct.pack_BBH, Struct.pack_B, Struct.pack_H.
  intros Hp. exists h, port. split; [reflexivity|].
  apply bind_Ok_inv in Hp as (hd & Hh & Hp). injection Hp as <-.
  rewrite (pack_uint_ok 1 0) in Hh by (simpl; lia). rewrite bind_Ok in Hh.
  rewrite (pack_uint_ok 1) in Hh
    by (destruct h; unfold IPV4_PROTOCOL, IPV6_PROTOCOL; simpl; lia).
  rewrite bind_Ok in Hh.
  apply bind_Ok_inv in Hh as (z & Hz & Hh).
  apply pack_uint_inv in Hz as [Hport ->]. injection Hh as <-.
  change (256 ^ Z.of_nat 2) with 65536 in Hport. split; [exact Hport|].
  destruct h; reflexivity.
Qed.

Lemma be_bytes_1 (z : Z) : Struct.be_bytes 1 z = [byte_of_Z z].
Proof. reflexivity. Qed.

Lemma be_bytes_2 (z : Z) :
  Struct.be_bytes 2 z = [byte_of_Z (z / 256); byte_of_Z z].
Proof. reflexivity. Qed.

Lemma unpack_pack_address (v : value) (vb : bytes) :
  wf_value PackAddress v = true ->
  pack_address v = Ok vb -> unpack_address vb = Ok v.
Proof.
  intros Hwf Hp. destruct (pack_address_inv v vb Hp) as (h & port & -> & Hport & ->).
  simpl in Hwf. rewrite !be_bytes_1.
  assert (Hv : Struct.be_value (Struct.be_bytes 2 port) = port)
    by (apply be_value_be_bytes; simpl; lia).
  rewrite be_bytes_2 in *. cbn [app]. rewrite unpack_address_eq. cbv zeta.
  rewrite Hv.
  destruct h as [p|p]; simpl in Hwf; apply Nat.eqb_eq in Hwf;
    rewrite byte_to_of_Z_small by lia; cbn [packed]; unfold len; rewrite Hwf;
    reflexivity.
Qed.

Lemma pack_address_length (v : value) (vb : bytes) :
  wf_value PackAddress v = true -> pack_address v = Ok vb ->
  (length vb <= 20)%nat.
Proof.
  intros Hwf Hp. destruct (pack_address_inv v vb Hp) as (h & port & -> & _ & ->).
  rewrite !length_app, !be_bytes_length.
  destruct h as [p|p]; simpl in Hwf; apply Nat.eqb_eq in Hwf; simpl; lia.
Qed.

Lemma unpack_pack_xor_address (v : value) (tid vb : bytes) :
  length tid = 12%nat ->
  wf_value PackAddress v = true ->
  pack_xor_address v tid = Ok vb -> unpack_xor_address vb tid = Ok v.
Proof.
  intros Ht Hwf Hp. unfold pack_xor_address in Hp.
  apply bind_Ok_inv in Hp as (p & Hp & Hx).
  pose proof (pack_address_length v p Hwf Hp) as Hl.
  pose proof (xor_address_twice p tid ltac:(lia)) as H2.
  rewrite Hx, bind_Ok in H2. unfold unpack_xor_address.
  rewrite H2, bind_Ok. exact (unpack_pack_address v p Hwf Hp).
Qed.

Lemma unpack_pack_unsigned (v : value) (vb : bytes) :
  pack_unsigned v = Ok vb -> unpack_unsigned vb = Ok v.
Proof.
  destruct v as [| n | | |]; try discriminate. unfold pack_unsigned, Struct.pack_I.
  intros Hp. apply pack_uint_inv in Hp as [Hn ->].
  unfold unpack_unsigned, Struct.unpack_I, Struct.sized.
  rewrite be_bytes_length. cbn [Nat.eqb]. rewrite !bind_Ok.
  rewrite be_value_be_bytes by exact Hn. reflexivity.
Qed.

Lemma unpack_pack_string (v : value) (vb : bytes) :
  pack_string v = Ok vb -> unpack_string vb = Ok v.
Proof.
  destruct v as [| | s | |]; try discriminate. unfold pack_string.
  intros Hp. unfold unpack_string. rewrite (decode_encode s vb Hp).
  reflexivity.
Qed.

(** What [__bytes__] packs, [parse_message] unpacks to the same value. *)
Lemma unpack_pack (f : packer) (g : unpacker) (v : value) (tid vb : bytes) :
  paired f g = true -> wf_value f v = true -> length tid = 12%nat ->
  (if decide (f = PackXorAddress) then pack_xor_address v tid
   else call_pack f v) = Ok vb ->
  (if decide (g = UnpackXorAddress) then unpack_xor_address vb tid
   else call_unpack g vb) = Ok v.
Proof.
  intros Hfg Hwf Ht.
  destruct f; destruct g; try discriminate Hfg; simpl.
  - apply unpack_pack_address. exact Hwf.
  - unfold pack_bytes, unpack_bytes.
    destruct v as [| |s| |]; try discriminate;
      try (destruct (len s <? 65536); discriminate).
    intros [= <-]. reflexivity.
  - unfold pack_none, unpack_none. destruct v; try discriminate.
    reflexivity.
  - apply unpack_pack_string.
  - apply unpack_pack_unsigned.
  - apply unpack_pack_xor_address; assumption.
Qed.

(** ** The registry, both ways *)

Lemma ATTRIBUTES_paired :
  Forall (fun a : attribute => paired a.1.2 a.2 = true) ATTRIBUTES.
Proof. repeat constructor. Qed.

Lemma registry_by_name (name : string) (a : attribute) :
  ATTRIBUTES_BY_NAME !! name = Some a ->
  a ∈ ATTRIBUTES /\ name_of a = name /\ ATTRIBUTES_BY_TYPE !! type_of a = Some a.
Proof.
  unfold ATTRIBUTES_BY_NAME, ATTRIBUTES_BY_TYPE. intros Hn.
  assert (Hin : a ∈ ATTRIBUTES /\ name_of a = name).
  { rewrite index_attributes_eq in Hn. cbn [snd] in Hn.
    apply filled_lookup_inv in Hn as [Hin|Hn]; [exact Hin|].
    rewrite lookup_empty in Hn. discriminate. }
  destruct Hin as [Hin Hname]. split; [exact Hin|]. split; [exact Hname|].
  apply (registry_unique ATTRIBUTES ATTRIBUTES_types_NoDup
           ATTRIBUTES_names_NoDup a), Hin.
Qed.

Lemma registry_by_type (ty : Z) (a : attribute) :
  ATTRIBUTES_BY_TYPE !! ty = Some a -> a ∈ ATTRIBUTES /\ type_of a = ty.
Proof.
  unfold ATTRIBUTES_BY_TYPE. intros Hn.
  rewrite index_attributes_eq in Hn. cbn [fst] in Hn.
  apply filled_lookup_inv in Hn as [Hin|Hn]; [exact Hin|].
  rewrite lookup_empty in Hn. discriminate.
Qed.

Lemma ATTRIBUTES_in_paired (a : attribute) :
  a ∈ ATTRIBUTES -> paired a.1.2 a.2 = true.
Proof.
  intros Hin. pose proof ATTRIBUTES_paired as Hp.
  rewrite Forall_forall in Hp. apply Hp, Hin.
Qed.

(** ** The attribute section, written and walked *)

Lemma pack_item_range (tid : bytes) (item : string * value) (tv : Z * bytes) :
  pack_item tid item = Ok tv -> 0 <= tv.1 < 65536 /\ len tv.2 < 65536.
Proof.
  unfold pack_item.
  destruct (ATTRIBUTES_BY_NAME !! item.1) as [[[[ty nm] pk] un]|];
    [|discriminate].
  intros Hp. apply bind_Ok_inv in Hp as (v & _ & Hp).
  apply bind_Ok_inv in Hp as (h & Hh & Hp). injection Hp as <-.
  apply pack_HH_inv in Hh as (Hty & Hl & _). simpl. lia.
Qed.

(** The attribute section is the frames of the packed attributes. *)
Lemma bytes_loop_frames (tid : bytes) (items : odict) :
  forall body : bytes,
    bytes_loop tid items [] = Ok body ->
    exists tvs : list (Z * bytes),
      Forall2 (fun item tv => pack_item tid item = Ok tv) items tvs
      /\ body = concat (map frame tvs).
Proof.
  induction items as [|[name x] items IH]; intros body.
  - intros [= <-]. exists []. split; [constructor | reflexivity].
  - rewrite bytes_loop_cons.
    destruct (ATTRIBUTES_BY_NAME !! name) as [[[[ty nm] pk] un]|] eqn:En;
      [|discriminate].
    intros Hb. apply bind_Ok_inv in Hb as (v & Hv & Hb).
    apply bind_Ok_inv in Hb as (h & Hh & Hb).
    rewrite bytes_loop_acc in Hb.
    apply bind_Ok_inv in Hb as (body' & Hb' & Hb). injection Hb as <-.
    destruct (IH body' Hb') as (tvs & Htvs & ->).
    exists ((ty, v) :: tvs). split.
    + constructor; [|exact Htvs].
      unfold pack_item. cbn [fst snd]. rewrite En, Hv, bind_Ok, Hh.
      reflexivity.
    + apply pack_HH_inv in Hh as (_ & _ & ->).
      cbn [map concat]. unfold frame. cbn [fst snd].
      rewrite <- !app_assoc. reflexivity.
Qed.

Lemma slice_app_mid {A} (pre x post : list A) (lo hi : Z) :
  lo = len pre -> hi = len pre + len x ->
  slice (pre ++ x ++ post) lo hi = x.
Proof.
  intros -> ->. unfold slice, len.
  replace (Z.to_nat (Z.of_nat (length pre) + Z.of_nat (length x)
                     - Z.of_nat (length pre))) with (length x) by lia.
  rewrite Nat2Z.id, drop_app_length, take_app_length. reflexivity.
Qed.

Lemma len_be_bytes (n : nat) (z : Z) : len (Struct.be_bytes n z) = Z.of_nat n.
Proof. unfold len. rewrite be_bytes_length. reflexivity. Qed.

Lemma frame_length (tv : Z * bytes) :
  len (frame tv) = 4 + len tv.2 + pad_len (len tv.2).
Proof.
  unfold frame, zeros. rewrite !len_app. unfold len.
  rewrite !be_bytes_length, repeat_length.
  pose proof (pad_len_range (Z.of_nat (length tv.2))). lia.
Qed.

Lemma walk_frames (tvs : list (Z * bytes)) :
  forall (pre : bytes) (fuel : nat),
    Forall (fun tv => 0 <= tv.1 < 65536 /\ len tv.2 < 65536) tvs ->
    (length tvs <= fuel)%nat ->
    walk fuel (pre ++ concat (map frame tvs)) (len pre) = tvs.
Proof.
  induction tvs as [|[t vb] tvs IH]; intros pre fuel Hr Hf; rewrite walk_eq.
  - cbn [map concat]. rewrite app_nil_r.
    destruct (Z.leb_spec (len pre) (len pre - 4)); [lia | reflexivity].
  - apply Forall_cons in Hr as [[Ht Hl] Hr]. cbn [fst snd] in Ht, Hl.
    pose proof (len_nonneg vb) as Hvb.
    cbn [map concat].
    set (rest := concat (map frame tvs)).
    assert (Hlen : len (pre ++ frame (t, vb) ++ rest)
                   = len pre + len (frame (t, vb)) + len rest)
      by (rewrite !len_app; lia).
    pose proof (frame_length (t, vb)) as Hfl. cbn [snd] in Hfl.
    pose proof (pad_len_range (len vb)) as Hpad.
    pose proof (len_nonneg rest) as Hrest.
    destruct (Z.leb_spec (len pre) (len (pre ++ frame (t, vb) ++ rest) - 4));
      [|lia].
    destruct fuel as [|fuel]; [simpl in Hf; lia|]. cbv zeta.
    assert (H1 : slice (pre ++ frame (t, vb) ++ rest) (len pre) (len pre + 2)
                 = Struct.be_bytes 2 t).
    { unfold frame. cbn [fst snd]. rewrite <- !app_assoc.
      apply slice_app_mid; [reflexivity|]. rewrite len_be_bytes. lia. }
    assert (H2 : slice (pre ++ frame (t, vb) ++ rest) (len pre + 2)
                   (len pre + 4) = Struct.be_bytes 2 (len vb)).
    { unfold frame. cbn [fst snd]. rewrite <- !app_assoc.
      rewrite (app_assoc pre).
      apply slice_app_mid; rewrite ?len_app, ?len_be_bytes; lia. }
    rewrite H1, H2.
    rewrite !be_value_be_bytes by (change (256 ^ Z.of_nat 2) with 65536; lia).
    assert (H3 : slice (pre ++ frame (t, vb) ++ rest) (len pre + 4)
                   (len pre + 4 + len vb) = vb).
    { unfold frame. cbn [fst snd]. rewrite <- !app_assoc.
      rewrite (app_assoc pre), (app_assoc (pre ++ _)).
      apply slice_app_mid; rewrite ?len_app, ?len_be_bytes; lia. }
    rewrite H3. f_equal.
    replace (len pre + 4 + len vb + pad_len (len vb))
      with (len (pre ++ frame (t, vb))) by (rewrite len_app; lia).
    rewrite (app_assoc pre). apply IH; [exact Hr | simpl in Hf; lia].
Qed.

Lemma frames_length (tvs : list (Z * bytes)) :
  (length tvs <= length (concat (map frame tvs)))%nat.
Proof.
  induction tvs as [|tv tvs IH]; [simpl; lia|].
  cbn [map concat]. rewrite length_app. simpl length.
  pose proof (frame_length tv) as Hf. pose proof (len_nonneg tv.2).
  pose proof (pad_len_range (len tv.2)). unfold len in Hf at 1. lia.
Qed.

(** ** parse_message after __bytes__ *)

Lemma odict_get_absent (k : string) (d : odict) :
  k ∉ map fst d -> odict_get k d = None.
Proof.
  induction d as [|[k' v'] d IH]; [reflexivity|]. cbn [map fst odict_get].
  rewrite not_elem_of_cons. intros [Hne Hd].
  destruct (String.eqb_spec k k'); [contradiction | exact (IH Hd)].
Qed.

Lemma store_all_items (tid : bytes) :
  length tid = 12%nat ->
  forall (items : odict) (tvs : list (Z * bytes)) (done : odict),
    Forall2 (fun item tv => pack_item tid item = Ok tv) items tvs ->
    Forall (fun item => wf_item item = true) items ->
    NoDup (map fst done ++ map fst items) ->
    store_all tid tvs done = Ok (done ++ items)
    /\ List.filter known tvs = tvs.
Proof.
  intros Ht items tvs done Hp. revert done.
  induction Hp as [|[name x] [ty v] items tvs Hitem Hp IH]; intros done Hwf Hnd.
  - rewrite app_nil_r. split; reflexivity.
  - apply Forall_cons in Hwf as [Hx Hwf].
    unfold pack_item in Hitem. unfold wf_item in Hx. cbn [fst snd] in Hitem, Hx.
    destruct (ATTRIBUTES_BY_NAME !! name) as [[[[ty' nm] pk] un]|] eqn:En;
      [|discriminate].
    apply bind_Ok_inv in Hitem as (v' & Hv & Hitem).
    apply bind_Ok_inv in Hitem as (h & _ & Hitem).
    injection Hitem as -> ->.
    destruct (registry_by_name name _ En) as (Hin & Hname & Hty).
    unfold name_of, type_of in Hname, Hty. cbn [fst snd] in Hname, Hty.
    subst nm.
    pose proof (ATTRIBUTES_in_paired _ Hin) as Hpair. cbn [fst snd] in Hpair.
    pose proof (unpack_pack pk un x tid v Hpair Hx Ht Hv) as Hun.
    assert (Hnew : odict_get name done = None).
    { apply odict_get_absent. cbn [map fst] in Hnd.
      apply NoDup_app in Hnd as (_ & Hd & _). intros Hin'.
      apply (Hd name Hin'). apply elem_of_cons. auto. }
    destruct (IH (done ++ [(name, x)]) Hwf) as [Hs Hk].
    { rewrite map_app, <- app_assoc. exact Hnd. }
    split.
    + cbn [store_all]. rewrite Hty, Hun, bind_Ok.
      rewrite odict_set_new by exact Hnew. rewrite Hs, <- app_assoc.
      reflexivity.
    + cbn [List.filter]. unfold known at 1. cbn [fst]. rewrite Hty.
      rewrite bool_decide_eq_true_2 by eauto. rewrite Hk. reflexivity.
Qed.

Lemma land_method (m c : Z) :
  Z.land m METHOD_MASK = m -> In c classes ->
  Z.land (Z.lor m c) 0x3eef = m /\ Z.land (Z.lor m c) 0x0100 = Z.land c 0x0100.
Proof.
  unfold METHOD_MASK. intros Hm Hc. rewrite !Z.land_lor_distr_l, Hm.
  assert (Hc0 : Z.land c 0x3eef = 0).
  { simpl in Hc. destruct Hc as [<-|[<-|[<-|[<-|[]]]]]; reflexivity. }
  rewrite Hc0, Z.lor_0_r. split; [reflexivity|].
  rewrite <- Hm, <- Z.land_assoc. change (Z.land 0x3eef 0x100) with 0.
  rewrite Z.land_0_r. reflexivity.
Qed.

Lemma header_slices (ty n : Z) (tid body : bytes) :
  0 <= ty < 65536 -> 0 <= n < 65536 -> length tid = 12%nat ->
  Struct.be_value (slice (header ty n tid ++ body) 0 2) = ty
  /\ declared_length (header ty n tid ++ body) = n
  /\ slice (header ty n tid ++ body) 8 20 = tid.
Proof.
  intros Hty Hn Ht. unfold declared_length, header.
  rewrite (pack_12s_exact tid Ht). rewrite <- !app_assoc.
  split; [|split].
  - rewrite <- (app_nil_l (Struct.be_bytes 2 ty ++ _)).
    rewrite slice_app_mid by (rewrite ?len_be_bytes; reflexivity).
    apply be_value_be_bytes. change (256 ^ Z.of_nat 2) with 65536. lia.
  - rewrite slice_app_mid by (rewrite ?len_be_bytes; reflexivity).
    apply be_value_be_bytes. change (256 ^ Z.of_nat 2) with 65536. lia.
  - rewrite (app_assoc (Struct.be_bytes 2 ty)).
    rewrite (app_assoc (_ ++ _) (Struct.be_bytes 4 COOKIE)).
    apply slice_app_mid; rewrite ?len_app, ?len_be_bytes; unfold len;
      rewrite ?Ht; reflexivity.
Qed.

(** What [parse_message] makes of a serialized well-formed message: all
    of it, except that of the class only the bit 0x100 comes back. *)
Lemma parse_bytes (m : Message) (data : bytes) :
  wf_message m -> __bytes__ m = Ok data ->
  parse_message data
  = Ok (mkMessage (message_method m) (Z.land (message_class m) 0x0100)
          (transaction_id m) (attributes m)).
Proof.
  intros (Hmeth & Hclass & Htid & Hnd & Hwf) Hdata.
  destruct (bytes_inv m data Hdata) as (body & Hb & Hty & Hn & ->).
  destruct (bytes_loop_frames _ _ _ Hb) as (tvs & Htvs & ->).
  set (body := concat (map frame tvs)) in *.
  pose proof (len_nonneg body) as Hb0.
  destruct (header_slices (message_type m) (len body) (transaction_id m) body
              Hty ltac:(lia) Htid) as (H02 & Hdecl & H820).
  rewrite parse_message_eq, len_header_app.
  destruct (Z.ltb_spec (20 + len body) 20); [lia|].
  rewrite Hdecl, Z.eqb_refl. cbn [negb]. rewrite H02, H820.
  assert (Hwalk : raw_attributes (header (message_type m) (len body)
                                    (transaction_id m) ++ body) = tvs).
  { unfold raw_attributes, HEADER_LENGTH.
    replace 20 with (len (header (message_type m) (len body) (transaction_id m)))
      by (unfold len; rewrite header_length; reflexivity).
    apply walk_frames.
    - clear -Htvs. induction Htvs as [|item tv items tvs Hi _ IH]; constructor.
      + exact (pack_item_range _ _ _ Hi).
      + exact IH.
    - rewrite length_app. pose proof (frames_length tvs). fold body in H0. lia. }
  rewrite Hwalk.
  destruct (store_all_items (transaction_id m) Htid (attributes m) tvs []
              Htvs Hwf Hnd) as [Hs Hk].
  rewrite Hk, Hs, bind_Ok. cbn [app]. unfold message_type.
  destruct (land_method _ _ Hmeth Hclass) as [-> ->]. reflexivity.
Qed.

(** ** The specification, claim by claim *)

(** The round trip as the code has it: a well-formed message that
    serializes is parsed back with its method, transaction id and
    attributes (values and order); of its class only the bit 0x100 is
    read. *)
Theorem parse_message_after_bytes (m : Message) (data : bytes) :
  wf_message m -> __bytes__ m = Ok data ->
  parse_message data
  = Ok (mkMessage (message_method m) (Z.land (message_class m) 0x0100)
          (transaction_id m) (attributes m)).
Proof. exact (parse_bytes m data). Qed.

Lemma parse_message_after_bytes_witness :
  wf_message sample_request
  /\ is_ok (__bytes__ sample_request) = true
  /\ (data ← __bytes__ sample_request; parse_message data)
     = Ok sample_request.
Proof.
  assert (Hwf : wf_message sample_request).
  { unfold wf_message. split; [reflexivity|].
    split; [simpl; auto|]. split; [reflexivity|]. split.
    - apply (bool_decide_unpack _). vm_compute. exact I.
    - repeat constructor. }
  split; [exact Hwf|]. split; [vm_compute; reflexivity|].
  destruct (__bytes__ sample_request) as [data|e] eqn:Hdata.
  - rewrite bind_Ok. exact (parse_message_after_bytes _ _ Hwf Hdata).
  - vm_compute in Hdata. discriminate Hdata.
Defined.

(** [unpack_address] returns exactly on the packed addresses with at
    least 4 bytes, protocol 1 and 4 address bytes or protocol 2 and 16
    address bytes; on any other input it raises [ValueError]. *)
Theorem unpack_address_validation (data : bytes) :
  is_ok (unpack_address data) = valid_address data
  /\ (forall e : exn,
        unpack_address data = Raise e -> exists msg, e = ValueError msg).
Proof.
  split; [apply unpack_address_accepts|].
  intros e He. exact (unpack_address_raises data e He).
Qed.

(** C1 (violated by the code): [parse_message(bytes(message))] does not
    give back the class of a message of class INDICATION or ERROR.  The
    class is read with the mask 0x0100 although the classes are told
    apart by the two bits 0x0110: a binding indication comes back as a
    request and a binding error response as a (success) response. *)
Theorem parse_message_loses_class_bit :
  wf_message sample_indication /\ wf_message sample_error
  /\ (data ← __bytes__ sample_indication; parse_message data)
     = Ok (mkMessage Method.BINDING Class.REQUEST sample_tid [])
  /\ (data ← __bytes__ sample_error; parse_message data)
     = Ok (mkMessage Method.BINDING Class.RESPONSE sample_tid []).
Proof.
  assert (Hwf : forall c, In c classes ->
            wf_message (mkMessage Method.BINDING c sample_tid [])).
  { intros c Hc. unfold wf_message. cbn [message_method message_class
      transaction_id attributes map]. repeat split; auto; constructor. }
  split; [apply Hwf; simpl; auto|]. split; [apply Hwf; simpl; auto|].
  split; vm_compute; reflexivity.
Qed.

(** C2: a transaction whose [run()] is started and that gets no response
    sends its request exactly 7 times, the first at once and the others
    at 0.5, 1.5, 3.5, 7.5, 15.5 and 31.5 s, the delays asked of the loop
    being 0.5, 1, 2, 4, 8, 16 and 32 s; when the last delay has elapsed
    the awaited future fails with [Exception('Timeout')], which [run()]
    raises in its caller. *)
Theorem run_times_out_after_seven_sends (request : Message) (addr : address) (fuel : nat) :
  (7 <= fuel)%nat ->
  exists w : World,
    run fuel (init request addr) = Some (Raise (PyException "Timeout"), w)
    /\ future (txn w) = Failed (PyException "Timeout")
    /\ map (fun s => (Qred s.1.1, s.1.2, s.2)) (sent w)
       = map (fun t => (t, request, addr))
           [0; 1 # 2; 3 # 2; 7 # 2; 15 # 2; 31 # 2; 63 # 2]%Q
    /\ map (fun c => (Qred c.1, Qred c.2)) (call_later_log (loop w))
       = [(0, 1 # 2); (1 # 2, 1); (3 # 2, 2); (7 # 2, 4); (15 # 2, 8);
          (31 # 2, 16); (63 # 2, 32)]%Q
    /\ scheduled (loop w) = []
    /\ Qred (time (loop w)) = (127 # 2)%Q.
Proof.
  intros Hfuel. eexists. split.
  - apply (run_more_fuel 7 fuel); [exact Hfuel|]. vm_compute. reflexivity.
  - repeat split; vm_compute; reflexivity.
Qed.


Lemma run_times_out_after_seven_sends_witness :
  (7 <= 9)%nat
  /\ exists w : World,
      run 9 (init sample_request sample_address)
      = Some (Raise (PyException "Timeout"), w)
      /\ length (sent w) = 7%nat.
Proof.
  split; [lia|].
  destruct (run_times_out_after_seven_sends sample_request sample_address 9
              ltac:(lia)) as (w & Hrun & _ & Hsent & _).
  exists w. split; [exact Hrun|].
  apply (f_equal (@length _)) in Hsent. rewrite !length_map in Hsent.
  exact Hsent.
Defined.

(** The request with the long NONCE serializes, to 20 + 65528 bytes. *)
Lemma long_nonce_serialized :
  exists data : bytes,
    __bytes__ long_nonce_request = Ok data /\ len data = 20 + 65528.
Proof.
  assert (Hz : len (zeros 65524) = 65524).
  { unfold len, zeros. rewrite repeat_length. lia. }
  assert (Hloop : bytes_loop sample_tid
                    [("NONCE"%string, VBytes (zeros 65524))] []
                  = Ok (Struct.be_bytes 2 0x15 ++ Struct.be_bytes 2 65524
                          ++ zeros 65524)).
  { rewrite bytes_loop_cons.
    replace (ATTRIBUTES_BY_NAME !! "NONCE"%string)
      with (Some (0x15, "NONCE"%string, PackBytes, UnpackBytes))
      by (vm_compute; reflexivity).
    destruct (decide (PackBytes = PackXorAddress)) as [?|_]; [discriminate|].
    cbn [call_pack pack_bytes]. rewrite bind_Ok, Hz.
    rewrite pack_HH_ok, bind_Ok by lia.
    replace (pad_len 65524) with 0 by reflexivity.
    unfold zeros at 2. change (Z.to_nat 0) with 0%nat.
    cbn [repeat bytes_loop app]. rewrite app_nil_r, <- app_assoc.
    reflexivity. }
  assert (Hl : len (Struct.be_bytes 2 0x15 ++ Struct.be_bytes 2 65524
                      ++ zeros 65524) = 65528).
  { rewrite !len_app, !len_be_bytes, Hz. reflexivity. }
  eexists. split.
  - apply (bytes_ok long_nonce_request _ Hloop).
    + vm_compute. split; [discriminate | reflexivity].
    + rewrite Hl. reflexivity.
  - rewrite len_header_app, Hl. reflexivity.
Qed.

(** C3 (amended): for every message that serializes, with an attribute
    section of at most 65527 bytes, [add_fingerprint()] stores under
    FINGERPRINT the value [crc32(patched) ^ 0x5354554e], where [patched]
    is the serialization with the length field of its header replaced by
    the length of the attribute section plus 8 and every other byte kept;
    when the message had no FINGERPRINT the next serialization is
    [patched] followed by the FINGERPRINT attribute. *)
Theorem add_fingerprint_spec (self : Message) (data : bytes) :
  __bytes__ self = Ok data ->
  len data - HEADER_LENGTH + 8 < 65536 ->
  exists (body patched : bytes) (fingerprint : Z),
    data = header (message_type self) (len body) (transaction_id self)
           ++ body
    /\ patched = header (message_type self) (len body + 8)
                   (transaction_id self) ++ body
    /\ fingerprint = Z.lxor (Crc32.crc32 patched) FINGERPRINT_XOR
    /\ add_fingerprint self
       = Ok (set_attribute self "FINGERPRINT" (VInt fingerprint))
    /\ (odict_get "FINGERPRINT" (attributes self) = None ->
        __bytes__ (set_attribute self "FINGERPRINT" (VInt fingerprint))
        = Ok (patched ++ Struct.be_bytes 2 0x8028 ++ Struct.be_bytes 2 4
                ++ Struct.be_bytes 4 fingerprint)).
Proof.
  intros Hdata Hlen.
  destruct (bytes_inv self data Hdata) as (body & Hb & Hty & Hn & ->).
  rewrite len_header_app in Hlen. unfold HEADER_LENGTH in Hlen.
  pose proof (len_nonneg body) as Hb0.
  exists body. eexists. eexists. split; [reflexivity|].
  split; [reflexivity|]. split; [reflexivity|]. split.
  - unfold add_fingerprint. rewrite Hdata, bind_Ok, len_header_app.
    unfold HEADER_LENGTH, Struct.pack_H.
    rewrite pack_uint_ok by (change (256 ^ Z.of_nat 2) with 65536; lia).
    rewrite bind_Ok, patch_length.
    replace (20 + len body - 20 + 8) with (len body + 8) by lia.
    reflexivity.
  - intros Hnew.
    set (patched := header _ _ _ ++ body).
    pose proof (fingerprint_range patched) as Hfp.
    assert (Hlv : len (Struct.be_bytes 4
                         (Z.lxor (Crc32.crc32 patched) FINGERPRINT_XOR)) = 4)
      by (unfold len; rewrite be_bytes_length; reflexivity).
    rewrite (bytes_set_new self body
               (Struct.be_bytes 4 (Z.lxor (Crc32.crc32 patched) FINGERPRINT_XOR))
               "FINGERPRINT" _ 0x8028 PackUnsigned UnpackUnsigned Hb Hty Hnew).
    + rewrite Hlv. unfold patched.
      replace (len body + 4 + 4) with (len body + 8) by lia.
      rewrite <- !app_assoc. reflexivity.
    + vm_compute. reflexivity.
    + discriminate.
    + simpl. unfold Struct.pack_I. apply pack_uint_ok. exact Hfp.
    + lia.
    + rewrite Hlv. reflexivity.
    + rewrite Hlv. lia.
Qed.


Lemma add_fingerprint_spec_witness :
  __bytes__ sample_request = Ok sample_request_bytes
  /\ len sample_request_bytes - HEADER_LENGTH + 8 < 65536
  /\ exists fingerprint : Z,
      add_fingerprint sample_request
      = Ok (set_attribute sample_request "FINGERPRINT" (VInt fingerprint))
      /\ exists tail : bytes,
          __bytes__ (set_attribute sample_request "FINGERPRINT"
                       (VInt fingerprint))
          = Ok (take 2 sample_request_bytes ++ Struct.be_bytes 2 48
                  ++ tail).
Proof.
  assert (Hdata : __bytes__ sample_request = Ok sample_request_bytes)
    by (vm_compute; reflexivity).
  assert (Hlen : len sample_request_bytes - HEADER_LENGTH + 8 < 65536)
    by (vm_compute; reflexivity).
  split; [exact Hdata|]. split; [exact Hlen|].
  destruct (add_fingerprint_spec sample_request sample_request_bytes Hdata
              Hlen) as (body & patched & fingerprint & Hd & -> & _ & H & Hn).
  exists fingerprint. split; [exact H|].
  rewrite (Hn eq_refl).
  assert (Hb : len body = 40).
  { apply (f_equal len) in Hd. rewrite len_header_app in Hd.
    change (len sample_request_bytes) with 60 in Hd. lia. }
  rewrite Hb. eexists. unfold header. rewrite <- !app_assoc. reflexivity.
Defined.

(** The fingerprint of [sample_request], as [binascii.crc32] gives it. *)
Example add_fingerprint_sample :
  add_fingerprint sample_request
  = Ok (set_attribute sample_request "FINGERPRINT" (VInt 2797456145)).
Proof. vm_compute. reflexivity. Qed.

(** C3 as stated fails: the request with a 65524-byte NONCE serializes
    (its attribute section has 65528 bytes), and [add_fingerprint()]
    raises [struct.error] on the length 65536 instead of storing
    anything. *)
Lemma add_fingerprint_length_overflow :
  is_ok (__bytes__ long_nonce_request) = true
  /\ add_fingerprint long_nonce_request = Raise StructError.
Proof.
  destruct long_nonce_serialized as (data & Hdata & Hlen).
  split; [rewrite Hdata; reflexivity|].
  apply (add_fingerprint_overflow _ data Hdata).
  rewrite Hlen. unfold HEADER_LENGTH. lia.
Qed.

(** C4 (amended): for every message that serializes, with an attribute
    section of at most 65511 bytes, and every key,
    [add_message_integrity(key)] stores under MESSAGE-INTEGRITY the
    20-byte HMAC-SHA1 digest, keyed by [key], of the serialization with
    the length field of its header replaced by the length of the
    attribute section plus 24; when the message had no MESSAGE-INTEGRITY
    the next serialization is those patched bytes followed by the
    attribute. *)
Theorem add_message_integrity_spec (self : Message) (key data : bytes) :
  __bytes__ self = Ok data ->
  len data - HEADER_LENGTH + 24 < 65536 ->
  exists body patched digest : bytes,
    data = header (message_type self) (len body) (transaction_id self)
           ++ body
    /\ patched = header (message_type self) (len body + 24)
                   (transaction_id self) ++ body
    /\ digest = Sha1.hmac_sha1 key patched
    /\ length digest = 20%nat
    /\ add_message_integrity self key
       = Ok (set_attribute self "MESSAGE-INTEGRITY" (VBytes digest))
    /\ (odict_get "MESSAGE-INTEGRITY" (attributes self) = None ->
        __bytes__ (set_attribute self "MESSAGE-INTEGRITY" (VBytes digest))
        = Ok (patched ++ Struct.be_bytes 2 0x0008 ++ Struct.be_bytes 2 20
                ++ digest)).
Proof.
  intros Hdata Hlen.
  destruct (bytes_inv self data Hdata) as (body & Hb & Hty & Hn & ->).
  rewrite len_header_app in Hlen. unfold HEADER_LENGTH in Hlen.
  pose proof (len_nonneg body) as Hb0.
  exists body. eexists. eexists. split; [reflexivity|].
  split; [reflexivity|]. split; [reflexivity|].
  split; [apply hmac_sha1_length|]. split.
  - unfold add_message_integrity. rewrite Hdata, bind_Ok, len_header_app.
    unfold HEADER_LENGTH, Struct.pack_H.
    rewrite pack_uint_ok by (change (256 ^ Z.of_nat 2) with 65536; lia).
    rewrite bind_Ok, patch_length.
    replace (20 + len body - 20 + 24) with (len body + 24) by lia.
    reflexivity.
  - intros Hnew.
    set (patched := header _ _ _ ++ body).
    assert (Hd : len (Sha1.hmac_sha1 key patched) = 20)
      by (unfold len; rewrite hmac_sha1_length; reflexivity).
    rewrite (bytes_set_new self body (Sha1.hmac_sha1 key patched)
               "MESSAGE-INTEGRITY" _ 0x0008 PackBytes UnpackBytes Hb Hty Hnew).
    + rewrite Hd. unfold patched.
      replace (len body + 4 + 20) with (len body + 24) by lia.
      rewrite <- !app_assoc. reflexivity.
    + vm_compute. reflexivity.
    + discriminate.
    + reflexivity.
    + lia.
    + rewrite Hd. reflexivity.
    + rewrite Hd. lia.
Qed.


Lemma add_message_integrity_spec_witness :
  __bytes__ sample_request = Ok sample_request_bytes
  /\ len sample_request_bytes - HEADER_LENGTH + 24 < 65536
  /\ exists digest : bytes,
      length digest = 20%nat
      /\ add_message_integrity sample_request sample_tid
         = Ok (set_attribute sample_request "MESSAGE-INTEGRITY"
                 (VBytes digest)).
Proof.
  assert (Hdata : __bytes__ sample_request = Ok sample_request_bytes)
    by (vm_compute; reflexivity).
  assert (Hlen : len sample_request_bytes - HEADER_LENGTH + 24 < 65536)
    by (vm_compute; reflexivity).
  split; [exact Hdata|]. split; [exact Hlen|].
  destruct (add_message_integrity_spec sample_request sample_tid
              sample_request_bytes Hdata Hlen)
    as (_ & _ & digest & _ & _ & _ & Hd & H & _).
  exists digest. split; [exact Hd | exact H].
Defined.

(** The digest of [sample_request] under the key [sample_tid], as
    [hmac.new(key, data, 'sha1').digest()] gives it. *)
Example add_message_integrity_sample :
  add_message_integrity sample_request sample_tid
  = Ok (set_attribute sample_request "MESSAGE-INTEGRITY"
          (VBytes (map byte_of_Z
                     [74; 49; 141; 71; 118; 132; 112; 38; 139; 84; 105; 120;
                      32; 30; 229; 139; 209; 53; 243; 71]))).
Proof. vm_compute. reflexivity. Qed.

(** C4 as stated fails: for the request with a 65524-byte NONCE, which
    serializes, [add_message_integrity(key)] raises [struct.error] on
    the length 65552 and stores no digest. *)
Lemma add_message_integrity_length_overflow :
  is_ok (__bytes__ long_nonce_request) = true
  /\ add_message_integrity long_nonce_request sample_tid = Raise StructError.
Proof.
  destruct long_nonce_serialized as (data & Hdata & Hlen).
  split; [rewrite Hdata; reflexivity|].
  apply (add_message_integrity_overflow _ _ data Hdata).
  rewrite Hlen. unfold HEADER_LENGTH. lia.
Qed.

(** C5 (amended): for every byte string [b] of at most 20 bytes and every
    12-byte transaction id [t],
    [xor_address(xor_address(b, t), t) == b]; on a longer [b],
    [xor_address] raises [IndexError]. *)
Theorem xor_address_involution (b t : bytes) :
  length t = 12%nat ->
  ((length b <= 20)%nat -> (x ← xor_address b t; xor_address x t) = Ok b)
  /\ ((20 < length b)%nat -> xor_address b t = Raise IndexError).
Proof.
  intros Ht. split; intros Hb.
  - apply xor_address_twice. lia.
  - apply xor_address_too_long. lia.
Qed.

Lemma xor_address_involution_witness :
  length sample_tid = 12%nat
  /\ (length sample_packed_address <= 20)%nat
  /\ (x ← xor_address sample_packed_address sample_tid;
      xor_address x sample_tid) = Ok sample_packed_address.
Proof.
  split; [reflexivity|]. split; [simpl; lia|].
  apply (xor_address_involution sample_packed_address sample_tid eq_refl).
  simpl. lia.
Defined.

(** C5 as stated fails: on 21 bytes [xor_address] raises [IndexError],
    its pad having 18 bytes. *)
Lemma xor_address_involution_fails_on_21_bytes :
  length sample_tid = 12%nat
  /\ xor_address (zeros 21) sample_tid = Raise IndexError
  /\ (x ← xor_address (zeros 21) sample_tid; xor_address x sample_tid)
     <> Ok (zeros 21).
Proof.
  split; [reflexivity|].
  assert (H : xor_address (zeros 21) sample_tid = Raise IndexError)
    by (vm_compute; reflexivity).
  split; [exact H|]. rewrite H. discriminate.
Qed.

(** C6 (amended): for every [data] of at most 20 bytes and every 12-byte
    transaction id, [xor_address(data, transaction_id)] returns a byte
    string of the same length whose first 2 bytes are those of [data]
    and whose byte at each position [i >= 2] is [data[i] ^ pad[i - 2]],
    where [pad] is the upper 16 bits of the cookie (0x21 0x12), then the
    4-byte big-endian cookie, then the transaction id. *)
Theorem xor_address_spec (data tid : bytes) :
  length tid = 12%nat -> (length data <= 20)%nat ->
  length (xpad tid) = 18%nat
  /\ take 6 (xpad tid) = map byte_of_Z [0x21; 0x12; 0x21; 0x12; 0xa4; 0x42]
  /\ drop 6 (xpad tid) = tid
  /\ exists xdata : bytes,
      xor_address data tid = Ok xdata /\ xored_with (xpad tid) data xdata.
Proof.
  intros Ht Hd. split; [rewrite xpad_length; lia|].
  split; [reflexivity|]. split; [reflexivity|].
  apply xor_address_xored. lia.
Qed.

Lemma xor_address_spec_witness :
  length sample_tid = 12%nat
  /\ (length sample_packed_address <= 20)%nat
  /\ exists xdata : bytes,
      xor_address sample_packed_address sample_tid = Ok xdata
      /\ xored_with (xpad sample_tid) sample_packed_address xdata.
Proof.
  split; [reflexivity|]. split; [simpl; lia|].
  apply (xor_address_spec sample_packed_address sample_tid eq_refl).
  simpl. lia.
Defined.

(** C6 as stated fails: with the pad made of the 4-byte cookie and the
    transaction id, byte 4 of the packed address 192.168.1.2:8080 would
    be xored with 0xa4; the code xors it with 0x21. *)
Lemma xor_address_not_against_cookie_pad :
  length sample_tid = 12%nat
  /\ ~ exists xdata : bytes,
        xor_address sample_packed_address sample_tid = Ok xdata
        /\ xored_with (cookie_pad sample_tid) sample_packed_address xdata.
Proof.
  split; [reflexivity|]. intros (xdata & Hx & _ & _ & Hpad).
  vm_compute in Hx. injection Hx as <-.
  destruct (Hpad 4%nat (byte_of_Z 192) ltac:(lia) eq_refl) as (p & Hp & Hx).
  vm_compute in Hp. injection Hp as <-. vm_compute in Hx. discriminate Hx.
Qed.

(** C7 (amended): [parse_message(data)] raises if and only if the input
    is shorter than 20 bytes, or its length is not 20 plus the declared
    length, or the value bytes of an attribute with a registered type
    code (those the input holds, when the attribute is truncated) are
    refused by its unpack function: an address, plain or xored, that has
    fewer than 4 bytes, a protocol other than 1 and 2, or not 4 address
    bytes for IPv4 and 16 for IPv6; an unsigned integer not made of 4
    bytes; a string that is not utf8.  Attributes with a type code that
    is not registered are skipped: the message parsed is the one
    obtained by unpacking and storing the registered ones only, at the
    offsets of a walk that does not look at the registry. *)
Theorem parse_message_raises_iff (data : bytes) :
  (is_ok (parse_message data) = false <->
   len data < HEADER_LENGTH
   \/ len data <> HEADER_LENGTH + declared_length data
   \/ Exists (fun tv => rejected tv = true) (raw_attributes data))
  /\ parse_message data <> Raise LoopBound
  /\ (forall m : Message,
       parse_message data = Ok m ->
       store_all (transaction_id m) (List.filter known (raw_attributes data))
         [] = Ok (attributes m)).
Proof.
  rewrite parse_message_eq. unfold HEADER_LENGTH.
  destruct (Z.ltb_spec (len data) 20) as [Hs|Hl].
  { split; [split; auto|]. split; [discriminate | discriminate]. }
  destruct (Z.eqb_spec (len data) (20 + declared_length data)) as [He|Hne];
    cbn [negb].
  2: { split; [split; auto|]. split; [discriminate | discriminate]. }
  pose proof (store_all_accepts (slice data 8 20) (raw_attributes data)
                (transaction_id_length data Hl) []) as Hacc.
  destruct (store_all (slice data 8 20) _ []) as [attrs|e] eqn:Hst.
  - rewrite bind_Ok. split; [|split; [discriminate|]].
    + split; [discriminate|]. intros [H|[H|H]]; [lia | lia |].
      cbn [is_ok] in Hacc. symmetry in Hacc. rewrite forallb_forall in Hacc.
      apply Exists_exists in H as (tv & Hin & Hrej).
      apply list_elem_of_In, Hacc in Hin. rewrite Hrej in Hin. discriminate.
    + intros m [= <-]. exact Hst.
  - rewrite bind_Raise. split; [|split; [|discriminate]].
    + split; [|reflexivity]. intros _. right. right.
      cbn [is_ok] in Hacc. symmetry in Hacc.
      apply not_true_iff_false in Hacc. rewrite forallb_forall in Hacc.
      apply Exists_exists.
      destruct (existsb rejected (raw_attributes data)) eqn:Hex.
      * apply existsb_exists in Hex as (tv & Hin & Hrej).
        exists tv. split; [apply list_elem_of_In, Hin | exact Hrej].
      * exfalso. apply Hacc. intros tv Hin.
        destruct (rejected tv) eqn:Hrej; [|reflexivity].
        assert (existsb rejected (raw_attributes data) = true)
          by (apply existsb_exists; eauto).
        congruence.
    + intros [= ->]. exact (store_all_raises _ _ _ _ Hst eq_refl).
Qed.

Lemma parse_message_raises_iff_witness :
  parse_message (request_head ++ magic_cookie ++ request_tail)
  = Ok (mkMessage Method.BINDING Class.REQUEST sample_tid
          [("PRIORITY"%string, VInt 12345678)])
  /\ store_all sample_tid
       (List.filter known
          (raw_attributes (request_head ++ magic_cookie ++ request_tail))) []
     = Ok [("PRIORITY"%string, VInt 12345678)].
Proof.
  assert (H : parse_message (request_head ++ magic_cookie ++ request_tail)
              = Ok (mkMessage Method.BINDING Class.REQUEST sample_tid
                      [("PRIORITY"%string, VInt 12345678)]))
    by (vm_compute; reflexivity).
  split; [exact H|].
  destruct (parse_message_raises_iff
              (request_head ++ magic_cookie ++ request_tail)) as (_ & _ & Hs).
  exact (Hs _ H).
Defined.

(** C7 as stated fails, both ways.  A NONCE attribute that announces 8
    value bytes at the very end of the input is truncated, and the input
    is parsed, the NONCE being empty.  A complete PRIORITY attribute of
    2 bytes, as a USERNAME that is not utf8, makes [parse_message] raise
    though the input has its length, no attribute of it is truncated and
    it has no address. *)
Lemma parse_message_errors_are_not_the_four :
  (short_mismatched_truncated_or_bad_address truncated_nonce = true
   /\ parse_message truncated_nonce
      = Ok (mkMessage Method.BINDING Class.REQUEST sample_tid
              [("NONCE"%string, VBytes [])]))
  /\ (short_mismatched_truncated_or_bad_address short_priority = false
      /\ parse_message short_priority = Raise StructError)
  /\ (short_mismatched_truncated_or_bad_address bad_username = false
      /\ parse_message bad_username = Raise UnicodeDecodeError).
Proof. repeat split; vm_compute; reflexivity. Qed.

(** C8 (amended): building the registry never fails, whatever the table.
    For a table without duplicate type code and without duplicate name,
    lookup by code and lookup by name each return the one row of the
    table with that code, or that name, and nothing for a code or a name
    the table does not have. *)
Theorem build_registry_spec (table : list attribute) :
  exists (by_type : gmap Z attribute) (by_name : gmap string attribute),
    build_registry table = Ok (by_type, by_name)
    /\ (NoDup (map type_of table) -> NoDup (map name_of table) ->
        forall a : attribute,
          (forall code : Z,
             by_type !! code = Some a <-> a ∈ table /\ type_of a = code)
          /\ (forall name : string,
                by_name !! name = Some a <-> a ∈ table /\ name_of a = name)).
Proof.
  exists (index_attributes table).1, (index_attributes table).2.
  split; [unfold build_registry; destruct (index_attributes table); reflexivity|].
  intros Ht Hn a.
  destruct (registry_unique table Ht Hn a) as [Hty Hnm].
  rewrite index_attributes_eq in *. cbn [fst snd] in *. split.
  - intros code. split.
    + intros Hl. apply filled_lookup_inv in Hl as [Hin|Hl]; [exact Hin|].
      rewrite lookup_empty in Hl. discriminate.
    + intros [Hin <-]. apply Hty, Hin.
  - intros name. split.
    + intros Hl. apply filled_lookup_inv in Hl as [Hin|Hl]; [exact Hin|].
      rewrite lookup_empty in Hl. discriminate.
    + intros [Hin <-]. apply Hnm, Hin.
Qed.

Lemma build_registry_spec_witness :
  NoDup (map type_of ATTRIBUTES) /\ NoDup (map name_of ATTRIBUTES)
  /\ ATTRIBUTES_BY_TYPE !! 0x8028
     = Some (0x8028, "FINGERPRINT"%string, PackUnsigned, UnpackUnsigned)
  /\ ATTRIBUTES_BY_NAME !! "FINGERPRINT"%string
     = Some (0x8028, "FINGERPRINT"%string, PackUnsigned, UnpackUnsigned).
Proof.
  assert (Ht : NoDup (map type_of ATTRIBUTES))
    by (apply (bool_decide_unpack _); vm_compute; exact I).
  assert (Hn : NoDup (map name_of ATTRIBUTES))
    by (apply (bool_decide_unpack _); vm_compute; exact I).
  split; [exact Ht|]. split; [exact Hn|].
  destruct (build_registry_spec ATTRIBUTES) as (bt & bn & Hb & Hspec).
  assert (Hi : index_attributes ATTRIBUTES
               = (ATTRIBUTES_BY_TYPE, ATTRIBUTES_BY_NAME))
    by (unfold ATTRIBUTES_BY_TYPE, ATTRIBUTES_BY_NAME;
        destruct (index_attributes ATTRIBUTES); reflexivity).
  unfold build_registry in Hb. rewrite Hi in Hb.
  assert (Heq : (ATTRIBUTES_BY_TYPE, ATTRIBUTES_BY_NAME) = (bt, bn))
    by congruence.
  clear Hb Hi. injection Heq as <- <-.
  destruct (Hspec Ht Hn (0x8028, "FINGERPRINT"%string, PackUnsigned,
                          UnpackUnsigned)) as [Hc Hm].
  split; [apply Hc | apply Hm];
    (split; [|reflexivity]); repeat (first [apply list_elem_of_here | apply list_elem_of_further]).
Defined.

(** C8 as stated fails: a table with the type code 1 twice is indexed
    without error, the later row replacing the earlier one. *)
Lemma build_registry_accepts_duplicates :
  ~ NoDup (map type_of duplicate_table)
  /\ exists (by_type : gmap Z attribute) (by_name : gmap string attribute),
      build_registry duplicate_table = Ok (by_type, by_name)
      /\ by_type !! 1
         = Some (1, "USERNAME"%string, PackString, UnpackString).
Proof.
  split.
  - intros Hnd. simpl in Hnd. apply NoDup_cons in Hnd as [Hnotin _].
    apply Hnotin. apply list_elem_of_here.
  - eexists. eexists. split; [reflexivity|]. vm_compute. reflexivity.
Qed.

(** [run()] under a sequence of events. *)

Lemma await_future_under_resolved (evs : list event) (w : World)
    (r : result Message) :
  awaited (future (txn w)) = Some r ->
  await_future_under evs w = Some (r, w).
Proof. intros Hr. destruct evs; simpl; rewrite Hr; reflexivity. Qed.

Lemma await_future_under_app (pre : list event) :
  forall (rest : list event) (w : World) (x : result Message * World),
    await_future_under pre w = Some x ->
    await_future_under (pre ++ rest) w = Some x.
Proof.
  induction pre as [|ev pre IH]; intros rest w x Hx.
  - simpl in Hx.
    destruct (awaited (future (txn w))) as [r|] eqn:Hr; [|discriminate].
    rewrite (await_future_under_resolved _ w r Hr). exact Hx.
  - simpl in *. destruct (awaited (future (txn w))) as [r|]; [exact Hx|].
    destruct (handle ev w) as [w'|e]; [|exact Hx].
    apply IH. exact Hx.
Qed.

Lemma run_under_app (pre rest : list event) (w : World)
    (x : result Message * World) :
  run_under pre w = Some x -> run_under (pre ++ rest) w = Some x.
Proof.
  unfold run_under. destruct (__retry w) as [w'|e]; [|auto].
  apply await_future_under_app.
Qed.

Lemma await_future_under_timers (fuel : nat) :
  forall w : World,
    await_future_under (repeat Tick fuel) w = await_future fuel w.
Proof.
  induction fuel as [|fuel IH]; intros w; [reflexivity|].
  cbn [repeat await_future_under await_future handle].
  destruct (awaited (future (txn w))); [reflexivity|].
  destruct (fire w) as [w'|e]; [apply IH | reflexivity].
Qed.

(** With no response delivered, [run_under] is [run]. *)
Lemma run_under_timers (fuel : nat) (w : World) :
  run_under (repeat Tick fuel) w = run fuel w.
Proof.
  unfold run_under, run. destruct (__retry w) as [w'|e]; [|reflexivity].
  apply await_future_under_timers.
Qed.

(** C9: when [message_received] is called on a running transaction whose
    future is still pending (after the first send and [k <= 6] expired
    timers, that is after send number [k + 1]), the pending timer is
    cancelled, whatever the loop does next sends nothing more, and the
    awaited [run()] returns the received message: [run()], started on
    the transaction and awaiting while [k] timers expire and the response
    is then delivered, returns that message, in the state the delivery
    left (the [k + 1] sends and no timer), whatever events follow. *)
Theorem message_received_resolves (request message : Message) (addr from : address) (k : nat) :
  (k <= 6)%nat ->
  exists w0 w : World,
    (w1 ← __retry (init request addr); fire_n k w1) = Ok w0
    /\ awaited (future (txn w0)) = None
    /\ length (sent w0) = S k
    /\ message_received message from w0 = Ok w
    /\ scheduled (loop w) = []
    /\ sent w = sent w0
    /\ (forall n : nat, fire_n n w = Ok w)
    /\ (forall fuel : nat, await_future fuel w = Some (Ok message, w))
    /\ (forall rest : list event,
          run_under (repeat Tick k ++ Deliver message from :: rest)
            (init request addr)
          = Some (Ok message, w)).
Proof.
  intros Hk.
  assert (Hcases : (k = 0 \/ k = 1 \/ k = 2 \/ k = 3 \/ k = 4 \/ k = 5
                    \/ k = 6)%nat) by lia.
  destruct Hcases as [->|[->|[->|[->|[->|[->| ->]]]]]];
    (eexists; eexists; split; [vm_compute; reflexivity|];
     split; [reflexivity|]; split; [reflexivity|];
     split; [vm_compute; reflexivity|];
     split; [reflexivity|]; split; [reflexivity|];
     split; [intros n; apply fire_n_idle; reflexivity|];
     split; [intros fuel; apply await_future_resolved; reflexivity|];
     intros rest;
     match goal with
     | |- run_under (?pre ++ ?ev :: rest) _ = _ =>
         change (pre ++ ev :: rest) with ((pre ++ [ev]) ++ rest)
     end;
     apply run_under_app; vm_compute; reflexivity).
Qed.

Lemma message_received_resolves_witness :
  (2 <= 6)%nat
  /\ exists w0 w : World,
      (w1 ← __retry (init sample_request sample_address); fire_n 2 w1) = Ok w0
      /\ message_received sample_response sample_address w0 = Ok w
      /\ length (sent w) = 3%nat
      /\ await_future 0 w = Some (Ok sample_response, w)
      /\ run_under [Tick; Tick; Deliver sample_response sample_address; Tick]
           (init sample_request sample_address)
         = Some (Ok sample_response, w).
Proof.
  split; [lia|].
  destruct (message_received_resolves sample_request sample_response
              sample_address sample_address 2 ltac:(lia))
    as (w0 & w & H0 & _ & Hl & Hr & _ & Hs & _ & Ha & Hrun).
  exists w0, w. split; [exact H0|]. split; [exact Hr|].
  split; [rewrite Hs; exact Hl|]. split; [apply Ha | exact (Hrun [Tick])].
Defined.

(** C10: [parse_message] does not look at the cookie field: two inputs
    that differ only in bytes 4 to 7 are both parsed, into the same
    message, or both refused, with the same exception; a cookie other
    than 0x2112a442 is accepted and leaves no trace in the message. *)
Theorem parse_message_ignores_cookie_field (head cookie cookie' tail : bytes) :
  length head = 4%nat -> length cookie = 4%nat -> length cookie' = 4%nat ->
  parse_message (head ++ cookie ++ tail)
  = parse_message (head ++ cookie' ++ tail).
Proof.
  intros Hh Hc Hc'. apply parse_message_ignores_cookie.
  - rewrite !length_app. lia.
  - rewrite !take_app_length' by lia. reflexivity.
  - rewrite !(app_assoc head), !drop_app_length' by (rewrite length_app; lia).
    reflexivity.
Qed.

Lemma parse_message_ignores_cookie_field_witness :
  length request_head = 4%nat /\ length magic_cookie = 4%nat
  /\ length other_cookie = 4%nat
  /\ parse_message (request_head ++ other_cookie ++ request_tail)
     = Ok (mkMessage Method.BINDING Class.REQUEST sample_tid
             [("PRIORITY"%string, VInt 12345678)]).
Proof.
  split; [reflexivity|]. split; [reflexivity|]. split; [reflexivity|].
  rewrite <- (parse_message_ignores_cookie_field request_head magic_cookie
                other_cookie request_tail eq_refl eq_refl eq_refl).
  vm_compute. reflexivity.
Defined.

(** ** The value codecs, both ways *)

Lemma byte_of_Z_mod (z : Z) : byte_of_Z (z mod 256) = byte_of_Z z.
Proof. unfold byte_of_Z. rewrite Z.mod_mod by lia. reflexivity. Qed.

Lemma be_bytes_be_value (bs : bytes) :
  Struct.be_bytes (length bs) (Struct.be_value bs) = bs.
Proof.
  induction bs as [|b bs IH] using rev_ind; [reflexivity|].
  rewrite length_app, Nat.add_comm. cbn [length Nat.add].
  rewrite be_bytes_S, be_value_app.
  pose proof (byte_to_Z_range b) as Hb.
  replace ((Struct.be_value bs * 256 + byte_to_Z b) / 256)
    with (Struct.be_value bs) by (Z.div_mod_to_equations; lia).
  rewrite IH. f_equal. f_equal.
  rewrite <- byte_of_Z_mod.
  replace ((Struct.be_value bs * 256 + byte_to_Z b) mod 256)
    with (byte_to_Z b) by (Z.div_mod_to_equations; lia).
  apply byte_of_to_Z.
Qed.

Lemma pack_address_ok (host : ipaddress) (port : Z) :
  0 <= port < 65536 ->
  pack_address (VAddress host port)
  = Ok (x00 :: byte_of_Z (match host with
                          | IPv4Address _ => IPV4_PROTOCOL
                          | IPv6Address _ => IPV6_PROTOCOL
                          end)
          :: Struct.be_bytes 2 port ++ packed host).
Proof.
  intros Hport. unfold pack_address, Struct.pack_BBH, Struct.pack_B,
    Struct.pack_H.
  rewrite (pack_uint_ok 1 0) by (simpl; lia). rewrite bind_Ok.
  rewrite (pack_uint_ok 1)
    by (destruct host; unfold IPV4_PROTOCOL, IPV6_PROTOCOL; simpl; lia).
  rewrite bind_Ok.
  rewrite (pack_uint_ok 2 port) by (change (256 ^ Z.of_nat 2) with 65536; lia).
  rewrite !bind_Ok. reflexivity.
Qed.

Lemma pack_address_port_error (host : ipaddress) (port : Z) :
  ~ (0 <= port < 65536) ->
  pack_address (VAddress host port) = Raise StructError.
Proof.
  intros Hport. unfold pack_address, Struct.pack_BBH, Struct.pack_B,
    Struct.pack_H.
  rewrite (pack_uint_ok 1 0) by (simpl; lia). rewrite bind_Ok.
  rewrite (pack_uint_ok 1)
    by (destruct host; unfold IPV4_PROTOCOL, IPV6_PROTOCOL; simpl; lia).
  rewrite bind_Ok.
  rewrite (pack_uint_error 2 port)
    by (change (256 ^ Z.of_nat 2) with 65536; exact Hport).
  reflexivity.
Qed.

(** [pack_address] takes any port of 16 bits and raises [struct.error] on
    any other; what it packs, 4 bytes and the address, [unpack_address]
    gives back. *)
Theorem pack_address_round_trip (host : ipaddress) (port : Z) :
  wf_host host = true ->
  (0 <= port < 65536 ->
   exists data : bytes,
     pack_address (VAddress host port) = Ok data
     /\ len data = 4 + len (packed host)
     /\ unpack_address data = Ok (VAddress host port))
  /\ (~ (0 <= port < 65536) ->
      pack_address (VAddress host port) = Raise StructError).
Proof.
  intros Hwf. split; [|apply pack_address_port_error].
  intros Hport. eexists. split; [apply pack_address_ok, Hport|]. split.
  - unfold len. cbn [length]. rewrite length_app, be_bytes_length. lia.
  - apply (unpack_pack_address (VAddress host port)); [exact Hwf|].
    apply pack_address_ok, Hport.
Qed.

Lemma pack_address_round_trip_witness :
  wf_host sample_host6 = true
  /\ exists data : bytes,
      pack_address (VAddress sample_host6 3478) = Ok data
      /\ len data = 20
      /\ unpack_address data = Ok (VAddress sample_host6 3478).
Proof.
  split; [reflexivity|].
  destruct (pack_address_round_trip sample_host6 3478 eq_refl) as [Hok _].
  destruct (Hok ltac:(lia)) as (data & Hp & Hl & Hu).
  exists data. split; [exact Hp|]. split; [exact Hl | exact Hu].
Defined.

(** The reserved byte is not looked at by [unpack_address]: packing what
    it returns gives the input back with that byte set to zero. *)
Theorem pack_after_unpack_address (data : bytes) (v : value) :
  unpack_address data = Ok v ->
  exists (reserved : byte) (rest : bytes),
    data = reserved :: rest /\ pack_address v = Ok (x00 :: rest).
Proof.
  destruct data as [|b0 [|b1 [|b2 [|b3 rest]]]];
    try (rewrite unpack_address_short by (unfold len; simpl; lia);
         discriminate).
  rewrite unpack_address_eq. cbv zeta. intros Hu.
  exists b0, (b1 :: b2 :: b3 :: rest). split; [reflexivity|].
  pose proof (be_value_range [b2; b3]) as Hport.
  change (256 ^ Z.of_nat (length [b2; b3])) with 65536 in Hport.
  pose proof (be_bytes_be_value [b2; b3]) as Hbe. cbn [length] in Hbe.
  destruct (Z.eqb_spec (byte_to_Z b1) IPV4_PROTOCOL) as [E1|N1].
  - destruct (negb (len rest =? 4)); [discriminate|]. injection Hu as <-.
    rewrite pack_address_ok by exact Hport. rewrite Hbe, <- E1, byte_of_to_Z.
    reflexivity.
  - destruct (Z.eqb_spec (byte_to_Z b1) IPV6_PROTOCOL) as [E2|N2];
      [|discriminate].
    destruct (negb (len rest =? 16)); [discriminate|]. injection Hu as <-.
    rewrite pack_address_ok by exact Hport. rewrite Hbe, <- E2, byte_of_to_Z.
    reflexivity.
Qed.

Lemma pack_after_unpack_address_witness :
  unpack_address (x01 :: tl sample_packed_address)
  = Ok (VAddress sample_host4 8080)
  /\ pack_address (VAddress sample_host4 8080) = Ok sample_packed_address.
Proof.
  assert (Hu : unpack_address (x01 :: tl sample_packed_address)
               = Ok (VAddress sample_host4 8080)) by (vm_compute; reflexivity).
  split; [exact Hu|].
  destruct (pack_after_unpack_address _ _ Hu) as (r & rest & Hd & Hp).
  injection Hd as _ <-. exact Hp.
Defined.

(** [pack_unsigned] and [unpack_unsigned] are inverse of each other
    between the integers of 32 bits and the strings of 4 bytes, and raise
    [struct.error] on any other integer and any other length. *)
Theorem unsigned_round_trips :
  (forall n : Z,
     0 <= n < 2 ^ 32 ->
     exists data : bytes,
       pack_unsigned (VInt n) = Ok data /\ length data = 4%nat
       /\ unpack_unsigned data = Ok (VInt n))
  /\ (forall n : Z,
        ~ (0 <= n < 2 ^ 32) -> pack_unsigned (VInt n) = Raise StructError)
  /\ (forall data : bytes,
        length data = 4%nat ->
        exists n : Z,
          0 <= n < 2 ^ 32 /\ unpack_unsigned data = Ok (VInt n)
          /\ pack_unsigned (VInt n) = Ok data)
  /\ (forall data : bytes,
        length data <> 4%nat -> unpack_unsigned data = Raise StructError).
Proof.
  split; [|split; [|split]].
  - intros n Hn. exists (Struct.be_bytes 4 n).
    assert (Hp : pack_unsigned (VInt n) = Ok (Struct.be_bytes 4 n))
      by (apply pack_uint_ok; exact Hn).
    split; [exact Hp|]. split; [apply be_bytes_length|].
    exact (unpack_pack_unsigned _ _ Hp).
  - intros n Hn. apply pack_uint_error. exact Hn.
  - intros data Hl. exists (Struct.be_value data).
    pose proof (be_value_range data) as Hr. rewrite Hl in Hr.
    change (256 ^ Z.of_nat 4) with (2 ^ 32) in Hr.
    split; [exact Hr|]. split.
    + unfold unpack_unsigned, Struct.unpack_I, Struct.sized. rewrite Hl.
      reflexivity.
    + unfold pack_unsigned, Struct.pack_I. rewrite pack_uint_ok by exact Hr.
      rewrite <- Hl at 1. rewrite be_bytes_be_value. reflexivity.
  - intros data Hl. unfold unpack_unsigned, Struct.unpack_I, Struct.sized.
    destruct (Nat.eqb_spec (length data) 4); [contradiction | reflexivity].
Qed.

(** ** XOR addresses *)

Lemma xor_address_prefix (data tid tid' : bytes) :
  (length data <= 8)%nat -> xor_address data tid = xor_address data tid'.
Proof.
  intros Hl. rewrite !xor_address_ok by lia. f_equal. f_equal.
  apply map_ext_in. intros j Hj. apply in_seq in Hj. unfold xor_at. f_equal.
  unfold xpad. rewrite !app_assoc.
  rewrite !(app_nth1 (_ ++ _))
    by (rewrite length_app, !be_bytes_length; lia).
  reflexivity.
Qed.

(** The xored form of an IPv4 address does not depend on the transaction
    id: port and address are xored with the cookie only. *)
Theorem pack_xor_address_ipv4_ignores_tid (p tid tid' : bytes) (port : Z) :
  length p = 4%nat ->
  pack_xor_address (VAddress (IPv4Address p) port) tid
  = pack_xor_address (VAddress (IPv4Address p) port) tid'.
Proof.
  intros Hp. unfold pack_xor_address.
  destruct (pack_address (VAddress (IPv4Address p) port)) as [d|e] eqn:Hd;
    [|reflexivity].
  rewrite !bind_Ok. apply xor_address_prefix.
  destruct (pack_address_inv _ _ Hd) as (h & port' & Hv & _ & ->).
  injection Hv as <- <-.
  rewrite !length_app, !be_bytes_length. cbn [packed]. lia.
Qed.

Lemma pack_xor_address_ipv4_ignores_tid_witness :
  length (packed sample_host4) = 4%nat
  /\ pack_xor_address (VAddress sample_host4 8080) sample_tid
     = pack_xor_address (VAddress sample_host4 8080) other_tid
  /\ pack_xor_address (VAddress sample_host4 8080) other_tid
     = Ok (map byte_of_Z [0; 1; 0x3e; 0x82; 0xe1; 0xba; 0xa5; 0x40]).
Proof.
  split; [reflexivity|]. split.
  - apply (pack_xor_address_ipv4_ignores_tid _ sample_tid other_tid 8080).
    reflexivity.
  - vm_compute. reflexivity.
Defined.

(** A well-formed address with a 16-bit port survives
    [pack_xor_address] then [unpack_xor_address] under the same 12-byte
    transaction id; the xored form keeps the reserved and protocol bytes
    and the length of the plain form. *)
Theorem pack_xor_address_round_trip (host : ipaddress) (port : Z)
    (tid : bytes) :
  wf_host host = true -> 0 <= port < 65536 -> length tid = 12%nat ->
  exists plain xored : bytes,
    pack_address (VAddress host port) = Ok plain
    /\ pack_xor_address (VAddress host port) tid = Ok xored
    /\ length xored = length plain
    /\ take 2 xored = take 2 plain
    /\ unpack_xor_address xored tid = Ok (VAddress host port).
Proof.
  intros Hwf Hport Ht.
  pose proof (pack_address_ok host port Hport) as Hplain.
  pose proof (pack_address_length (VAddress host port) _ Hwf Hplain) as Hlen.
  match type of Hplain with _ = Ok ?d => set (plain := d) in * end.
  assert (Hfit : (length plain <= 8 + length tid)%nat) by lia.
  destruct (xor_address_xored plain tid Hfit) as (xored & Hx & Hl & Ht2 & _).
  eexists. exists xored. split; [exact Hplain|].
  assert (Hp : pack_xor_address (VAddress host port) tid = Ok xored)
    by (unfold pack_xor_address; rewrite Hplain, bind_Ok; exact Hx).
  split; [exact Hp|]. split; [exact Hl|]. split; [exact Ht2|].
  exact (unpack_pack_xor_address (VAddress host port) _ _ Ht Hwf Hp).
Qed.

Lemma pack_xor_address_round_trip_witness :
  wf_host sample_host6 = true /\ 0 <= 3478 < 65536
  /\ length sample_tid = 12%nat
  /\ exists xored : bytes,
      pack_xor_address (VAddress sample_host6 3478) sample_tid = Ok xored
      /\ unpack_xor_address xored sample_tid
         = Ok (VAddress sample_host6 3478).
Proof.
  split; [reflexivity|]. split; [lia|]. split; [reflexivity|].
  destruct (pack_xor_address_round_trip sample_host6 3478 sample_tid
              eq_refl ltac:(lia) eq_refl)
    as (plain & xored & _ & Hp & _ & _ & Hu).
  exists xored. split; [exact Hp | exact Hu].
Defined.

(** ** The shape of a serialization *)

Lemma pad_len_aligned (n : Z) : (n + pad_len n) mod 4 = 0.
Proof.
  unfold pad_len.
  replace (n + (4 * ((n + 3) / 4) - n)) with ((n + 3) / 4 * 4) by lia.
  apply Z.mod_mul. lia.
Qed.

Lemma frames_aligned (tvs : list (Z * bytes)) :
  len (concat (map frame tvs)) mod 4 = 0.
Proof.
  induction tvs as [|tv tvs IH]; [reflexivity|].
  cbn [map concat]. rewrite len_app, frame_length.
  pose proof (pad_len_aligned (len tv.2)) as Hp.
  replace (4 + len tv.2 + pad_len (len tv.2) + len (concat (map frame tvs)))
    with (len tv.2 + pad_len (len tv.2) + len (concat (map frame tvs)) + 1 * 4)
    by lia.
  rewrite Z.mod_add by lia. rewrite Z.add_mod, Hp, IH by lia. reflexivity.
Qed.

Lemma header_fields (ty n : Z) (tid body : bytes) :
  slice (header ty n tid ++ body) 0 2 = Struct.be_bytes 2 ty
  /\ slice (header ty n tid ++ body) 2 4 = Struct.be_bytes 2 n
  /\ slice (header ty n tid ++ body) 4 8 = Struct.be_bytes 4 COOKIE
  /\ slice (header ty n tid ++ body) 8 20 = Struct.pack_12s tid.
Proof.
  unfold header. rewrite <- !app_assoc. split; [|split; [|split]].
  - rewrite <- (app_nil_l (Struct.be_bytes 2 ty ++ _)).
    apply slice_app_mid; rewrite ?len_be_bytes; reflexivity.
  - apply slice_app_mid; rewrite ?len_be_bytes; reflexivity.
  - rewrite (app_assoc (Struct.be_bytes 2 ty)).
    apply slice_app_mid; rewrite ?len_app, ?len_be_bytes; reflexivity.
  - rewrite (app_assoc (Struct.be_bytes 2 ty)).
    rewrite (app_assoc (_ ++ _) (Struct.be_bytes 4 COOKIE)).
    apply slice_app_mid; rewrite ?len_app, ?len_be_bytes; unfold len;
      rewrite ?pack_12s_length; reflexivity.
Qed.

(** Whatever serializes has the shape [parse_message] checks first: 20
    bytes of header and as many bytes of attributes as its length field
    says, a multiple of 4 below 65536; the header holds
    [message_method | message_class], the magic cookie and the
    transaction id cut or zero-padded to 12 bytes. *)
Theorem bytes_shape (self : Message) (data : bytes) :
  __bytes__ self = Ok data ->
  len data = HEADER_LENGTH + declared_length data
  /\ 0 <= declared_length data < 65536
  /\ declared_length data mod 4 = 0
  /\ 0 <= message_type self < 65536
  /\ slice data 0 2 = Struct.be_bytes 2 (message_type self)
  /\ slice data 4 8 = Struct.be_bytes 4 COOKIE
  /\ slice data 8 20 = Struct.pack_12s (transaction_id self).
Proof.
  intros Hdata.
  destruct (bytes_inv self data Hdata) as (body & Hb & Hty & Hn & ->).
  destruct (bytes_loop_frames _ _ _ Hb) as (tvs & _ & Hbody).
  pose proof (len_nonneg body) as Hb0.
  destruct (header_fields (message_type self) (len body)
              (transaction_id self) body) as (H02 & H24 & H48 & H820).
  assert (Hdecl : declared_length
                    (header (message_type self) (len body)
                       (transaction_id self) ++ body) = len body).
  { unfold declared_length. rewrite H24. apply be_value_be_bytes.
    change (256 ^ Z.of_nat 2) with 65536. lia. }
  rewrite Hdecl, len_header_app. unfold HEADER_LENGTH.
  split; [reflexivity|]. split; [lia|].
  split; [rewrite Hbody; apply frames_aligned|].
  split; [exact Hty|]. split; [exact H02|]. split; [exact H48 | exact H820].
Qed.

Lemma bytes_shape_witness :
  __bytes__ sample_request = Ok sample_request_bytes
  /\ len sample_request_bytes = 20 + 40
  /\ declared_length sample_request_bytes = 40.
Proof.
  assert (Hdata : __bytes__ sample_request = Ok sample_request_bytes)
    by (vm_compute; reflexivity).
  split; [exact Hdata|].
  destruct (bytes_shape _ _ Hdata) as (Hl & _).
  assert (Hd : declared_length sample_request_bytes = 40) by reflexivity.
  rewrite Hd in Hl. split; [exact Hl | exact Hd].
Defined.

(** ** What __bytes__ raises on a name that is not registered *)

Lemma encode_raises (s : str) (e : exn) :
  Utf8.encode s = Raise e -> e = UnicodeEncodeError.
Proof.
  induction s as [|c s IH]; [discriminate|]. cbn [Utf8.encode]. intros He.
  apply bind_Raise_inv in He as [He|(b & _ & He)].
  - unfold Utf8.encode_cp in He.
    repeat match type of He with
           | (if ?c then _ else _) = _ => destruct c
           end; congruence.
  - apply bind_Raise_inv in He as [He|(r & _ & He)]; [auto | discriminate].
Qed.

Lemma pack_address_raises (v : value) (e : exn) :
  pack_address v = Raise e -> e <> KeyError.
Proof.
  destruct v as [h port|n|[|c s]|[|b bs]|]; cbn [pack_address];
    try (intros [= <-]; discriminate).
  intros Hp. apply bind_Raise_inv in Hp as [Hp|(x & _ & Hp)]; [|discriminate].
  unfold Struct.pack_BBH, Struct.pack_B, Struct.pack_H, Struct.pack_uint in Hp.
  repeat match type of Hp with
         | context [if ?c then _ else _] => destruct c
         end; cbn in Hp; congruence.
Qed.

Lemma call_pack_raises (f : packer) (v : value) (tid : bytes) (e : exn) :
  (if decide (f = PackXorAddress) then pack_xor_address v tid
   else call_pack f v) = Raise e ->
  e <> KeyError.
Proof.
  destruct f; cbn [decide decide_rel packer_eq_dec call_pack]; simpl.
  - apply pack_address_raises.
  - destruct v as [| |s| |]; cbn [pack_bytes];
      try (intros [= <-]; discriminate).
    destruct (len s <? 65536); intros [= <-]; discriminate.
  - discriminate.
  - destruct v as [| |s| |]; cbn [pack_string];
      try (intros [= <-]; discriminate).
    intros He. rewrite (encode_raises _ _ He). discriminate.
  - destruct v as [|n| | |]; cbn [pack_unsigned];
      try (intros [= <-]; discriminate).
    unfold Struct.pack_I, Struct.pack_uint.
    destruct (_ && _); [discriminate | intros [= <-]; discriminate].
  - unfold pack_xor_address. intros Hp.
    apply bind_Raise_inv in Hp as [Hp|(p & _ & Hp)].
    + exact (pack_address_raises _ _ Hp).
    + rewrite (xor_address_raises _ _ _ Hp). discriminate.
Qed.

Lemma pack_HH_raises (a b : Z) (e : exn) :
  Struct.pack_HH a b = Raise e -> e = StructError.
Proof.
  unfold Struct.pack_HH, Struct.pack_H, Struct.pack_uint.
  repeat match goal with
         | |- context [if ?c then _ else _] => destruct c
         end; cbn; congruence.
Qed.

Lemma pack_HHI12s_raises (a b c : Z) (s : bytes) (e : exn) :
  Struct.pack_HHI12s a b c s = Raise e -> e = StructError.
Proof.
  unfold Struct.pack_HHI12s, Struct.pack_H, Struct.pack_I, Struct.pack_uint.
  repeat match goal with
         | |- context [if ?c then _ else _] => destruct c
         end; cbn; congruence.
Qed.

Lemma bytes_loop_from_empty (tid : bytes) (items : odict) (data : bytes)
    (e : exn) :
  bytes_loop tid items data = Raise e <-> bytes_loop tid items [] = Raise e.
Proof.
  rewrite (bytes_loop_acc tid items data).
  destruct (bytes_loop tid items []) as [body|e']; [|reflexivity].
  rewrite bind_Ok. split; discriminate.
Qed.

Lemma bytes_loop_is_ok (tid : bytes) (items : odict) (data : bytes) :
  is_ok (bytes_loop tid items data) = is_ok (bytes_loop tid items []).
Proof.
  rewrite (bytes_loop_acc tid items data).
  destruct (bytes_loop tid items []); reflexivity.
Qed.

Lemma bytes_loop_KeyError (tid : bytes) (items : odict) :
  bytes_loop tid items [] = Raise KeyError <->
  exists (pre : odict) (name : string) (v : value) (post : odict),
    items = pre ++ (name, v) :: post
    /\ ATTRIBUTES_BY_NAME !! name = None
    /\ is_ok (bytes_loop tid pre []) = true.
Proof.
  split.
  - induction items as [|[name x] items IH]; [discriminate|].
    rewrite bytes_loop_cons.
    destruct (ATTRIBUTES_BY_NAME !! name) as [[[[ty nm] pk] un]|] eqn:En.
    + intros Hb.
      apply bind_Raise_inv in Hb as [Hb|(v & Hv & Hb)];
        [destruct (call_pack_raises _ _ _ _ Hb eq_refl)|].
      apply bind_Raise_inv in Hb as [Hb|(h & Hh & Hb)];
        [apply pack_HH_raises in Hb; discriminate|].
      apply bytes_loop_from_empty in Hb.
      destruct (IH Hb) as (pre & name' & v' & post & -> & Hnone & Hok).
      exists ((name, x) :: pre), name', v', post.
      split; [reflexivity|]. split; [exact Hnone|].
      rewrite bytes_loop_cons, En, Hv, bind_Ok, Hh, bind_Ok.
      rewrite bytes_loop_is_ok. exact Hok.
    + intros _. exists [], name, x, items. auto.
  - intros (pre & name & v & post & -> & Hnone & Hok).
    rewrite bytes_loop_app.
    destruct (bytes_loop tid pre []) as [r|e]; [|discriminate].
    rewrite bind_Ok, bytes_loop_cons, Hnone. reflexivity.
Qed.

(** [bytes(message)] raises [KeyError] exactly when some attribute name
    is not in the registry and every attribute before it packs: the
    first name that is not registered stops the serialization, whatever
    follows it. *)
Theorem bytes_raises_KeyError (self : Message) :
  __bytes__ self = Raise KeyError <->
  exists (pre : odict) (name : string) (v : value) (post : odict),
    attributes self = pre ++ (name, v) :: post
    /\ ATTRIBUTES_BY_NAME !! name = None
    /\ is_ok (bytes_loop (transaction_id self) pre []) = true.
Proof.
  rewrite <- bytes_loop_KeyError. unfold __bytes__. split.
  - intros Hb. apply bind_Raise_inv in Hb as [Hb|(data & _ & Hb)];
      [exact Hb|].
    apply bind_Raise_inv in Hb as [Hb|(h & _ & Hb)]; [|discriminate].
    apply pack_HHI12s_raises in Hb. discriminate.
  - intros ->. reflexivity.
Qed.

(** ** MESSAGE-INTEGRITY, then FINGERPRINT *)

Lemma odict_get_set_ne (k k' : string) (v : value) (d : odict) :
  k <> k' -> odict_get k (odict_set k' v d) = odict_get k d.
Proof.
  intros Hne. induction d as [|[k0 v0] d IH]; cbn [odict_set odict_get].
  - destruct (String.eqb_spec k k'); [contradiction | reflexivity].
  - destruct (String.eqb_spec k' k0) as [->|Hk0]; cbn [odict_get].
    + destruct (String.eqb_spec k k0); [contradiction | reflexivity].
    + destruct (String.eqb_spec k k0); [reflexivity | exact IH].
Qed.

Lemma bytes_loop_set_new (tid : bytes) (items : odict) (body v : bytes)
    (name : string) (x : value) (ty : Z) (pk : packer) (un : unpacker) :
  bytes_loop tid items [] = Ok body ->
  odict_get name items = None ->
  ATTRIBUTES_BY_NAME !! name = Some (ty, name, pk, un) ->
  pk <> PackXorAddress ->
  call_pack pk x = Ok v ->
  0 <= ty < 65536 ->
  pad_len (len v) = 0 ->
  len v < 65536 ->
  bytes_loop tid (odict_set name x items) []
  = Ok (body ++ Struct.be_bytes 2 ty ++ Struct.be_bytes 2 (len v) ++ v).
Proof.
  intros Hb Hnew Hreg Hpk Hv Hcode Hpad Hlen.
  pose proof (len_nonneg v) as Hv0.
  rewrite odict_set_new by exact Hnew.
  rewrite bytes_loop_app, Hb, bind_Ok, bytes_loop_cons, Hreg.
  destruct (decide (pk = PackXorAddress)) as [?|_]; [contradiction|].
  rewrite Hv, bind_Ok, pack_HH_ok, bind_Ok, Hpad by lia.
  unfold zeros. change (Z.to_nat 0) with 0%nat. cbn [repeat bytes_loop].
  rewrite app_nil_r, <- !app_assoc. reflexivity.
Qed.

Lemma patched_inv (self : Message) (extra : Z) (f : bytes -> Message)
    (m : Message) :
  (data ← __bytes__ self;
   l ← Struct.pack_H (len data - HEADER_LENGTH + extra);
   Ok (f (slice data 0 2 ++ l ++ slice_from data 4))) = Ok m ->
  exists body : bytes,
    bytes_loop (transaction_id self) (attributes self) [] = Ok body
    /\ 0 <= message_type self < 65536
    /\ 0 <= len body + extra < 65536
    /\ m = f (header (message_type self) (len body + extra)
                (transaction_id self) ++ body).
Proof.
  intros Hm. apply bind_Ok_inv in Hm as (data & Hdata & Hm).
  apply bind_Ok_inv in Hm as (l & Hl & [= <-]).
  destruct (bytes_inv self data Hdata) as (body & Hb & Hty & Hn & ->).
  apply pack_uint_inv in Hl as [Hr ->].
  rewrite len_header_app in *. unfold HEADER_LENGTH in *.
  change (256 ^ Z.of_nat 2) with 65536 in Hr.
  exists body. split; [exact Hb|]. split; [exact Hty|]. split; [lia|].
  rewrite patch_length.
  replace (20 + len body - 20 + extra) with (len body + extra) by lia.
  reflexivity.
Qed.

(** A message with neither attribute, signed with
    [add_message_integrity(key)] and then [add_fingerprint()], serializes
    to its attributes followed by the 24 bytes of MESSAGE-INTEGRITY and
    the 8 bytes of FINGERPRINT.  The digest covers the header with the
    length up to and including MESSAGE-INTEGRITY and the attributes before
    it; the checksum covers every byte before the FINGERPRINT attribute,
    the header holding the final length. *)
Theorem integrity_then_fingerprint (self m1 m2 : Message) (key : bytes) :
  odict_get "MESSAGE-INTEGRITY" (attributes self) = None ->
  odict_get "FINGERPRINT" (attributes self) = None ->
  add_message_integrity self key = Ok m1 ->
  add_fingerprint m1 = Ok m2 ->
  exists (body digest signed : bytes) (fingerprint : Z),
    bytes_loop (transaction_id self) (attributes self) [] = Ok body
    /\ digest = Sha1.hmac_sha1 key
                  (header (message_type self) (len body + 24)
                     (transaction_id self) ++ body)
    /\ signed = header (message_type self) (len body + 32)
                  (transaction_id self)
                ++ body ++ Struct.be_bytes 2 0x0008 ++ Struct.be_bytes 2 20
                ++ digest
    /\ fingerprint = Z.lxor (Crc32.crc32 signed) FINGERPRINT_XOR
    /\ attributes m2
       = attributes self ++ [("MESSAGE-INTEGRITY"%string, VBytes digest);
                             ("FINGERPRINT"%string, VInt fingerprint)]
    /\ __bytes__ m2
       = Ok (signed ++ Struct.be_bytes 2 0x8028 ++ Struct.be_bytes 2 4
               ++ Struct.be_bytes 4 fingerprint).
Proof.
  intros Hmi Hfp H1 H2.
  apply (patched_inv self 24
           (fun data => set_attribute self "MESSAGE-INTEGRITY"
                          (VBytes (Sha1.hmac_sha1 key data))))
    in H1 as (body & Hb & Hty & Hn & ->).
  set (digest := Sha1.hmac_sha1 key _) in *.
  assert (Hld : len digest = 20)
    by (unfold len, digest; rewrite hmac_sha1_length; reflexivity).
  assert (Hb1 : bytes_loop (transaction_id self)
                  (odict_set "MESSAGE-INTEGRITY" (VBytes digest)
                     (attributes self)) []
                = Ok (body ++ Struct.be_bytes 2 0x0008
                        ++ Struct.be_bytes 2 20 ++ digest)).
  { replace (Struct.be_bytes 2 20) with (Struct.be_bytes 2 (len digest))
      by (rewrite Hld; reflexivity).
    apply (bytes_loop_set_new _ _ body digest "MESSAGE-INTEGRITY"
             (VBytes digest) 0x0008 PackBytes UnpackBytes Hb Hmi).
    - vm_compute. reflexivity.
    - discriminate.
    - reflexivity.
    - lia.
    - rewrite Hld. reflexivity.
    - rewrite Hld. lia. }
  apply (patched_inv _ 8
           (fun data => set_attribute _ "FINGERPRINT"
                          (VInt (Z.lxor (Crc32.crc32 data) FINGERPRINT_XOR))))
    in H2 as (body1 & Hb1' & _ & Hn1 & ->).
  cbn [set_attribute transaction_id attributes] in Hb1'.
  rewrite Hb1 in Hb1'.
  assert (Hbody1 : body1 = body ++ Struct.be_bytes 2 0x0008
                             ++ Struct.be_bytes 2 20 ++ digest)
    by congruence.
  clear Hb1'. subst body1.
  assert (Hl1 : len (body ++ Struct.be_bytes 2 8 ++ Struct.be_bytes 2 20
                       ++ digest) = len body + 24).
  { rewrite !len_app, !len_be_bytes, Hld. lia. }
  rewrite Hl1 in *.
  replace (len body + 24 + 8) with (len body + 32) in * by lia.
  change (message_type (set_attribute self "MESSAGE-INTEGRITY" (VBytes digest)))
    with (message_type self) in *.
  change (transaction_id
            (set_attribute self "MESSAGE-INTEGRITY" (VBytes digest)))
    with (transaction_id self) in *.
  set (signed := header _ (len body + 32) _ ++ _).
  set (fingerprint := Z.lxor (Crc32.crc32 signed) FINGERPRINT_XOR).
  pose proof (fingerprint_range signed) as Hfr. fold fingerprint in Hfr.
  exists body, digest, signed, fingerprint.
  split; [exact Hb|]. split; [reflexivity|].
  split; [unfold signed; rewrite <- ?app_assoc; reflexivity|].
  split; [reflexivity|].
  assert (Hfp1 : odict_get "FINGERPRINT"
                   (odict_set "MESSAGE-INTEGRITY" (VBytes digest)
                      (attributes self)) = None).
  { rewrite odict_get_set_ne by discriminate. exact Hfp. }
  split.
  - cbn [set_attribute attributes].
    rewrite (odict_set_new "FINGERPRINT") by exact Hfp1.
    rewrite odict_set_new by exact Hmi. rewrite <- app_assoc. reflexivity.
  - assert (Hlf : len (Struct.be_bytes 4 fingerprint) = 4)
      by apply len_be_bytes.
    pose proof (bytes_loop_set_new (transaction_id self) _ _
                  (Struct.be_bytes 4 fingerprint) "FINGERPRINT"
                  (VInt fingerprint) 0x8028 PackUnsigned UnpackUnsigned
                  Hb1 Hfp1) as Hb2.
    rewrite Hlf in Hb2.
    assert (Hloop := Hb2 ltac:(vm_compute; reflexivity)
                       ltac:(discriminate)
                       ltac:(cbn [call_pack pack_unsigned];
                             unfold Struct.pack_I; apply pack_uint_ok;
                             exact Hfr)
                       ltac:(lia) ltac:(reflexivity) ltac:(lia)).
    clear Hb2.
    assert (Hl2 : len ((body ++ Struct.be_bytes 2 8 ++ Struct.be_bytes 2 20
                          ++ digest)
                         ++ Struct.be_bytes 2 32808 ++ Struct.be_bytes 2 4
                         ++ Struct.be_bytes 4 fingerprint) = len body + 32).
    { rewrite len_app, Hl1, !len_app, !len_be_bytes. lia. }
    rewrite (bytes_ok (set_attribute
                         (set_attribute self "MESSAGE-INTEGRITY"
                            (VBytes digest))
                         "FINGERPRINT" (VInt fingerprint)) _ Hloop).
    + rewrite Hl2. unfold signed. rewrite <- !app_assoc. reflexivity.
    + exact Hty.
    + rewrite Hl2. lia.
Qed.

Lemma integrity_then_fingerprint_witness :
  exists (m1 m2 : Message) (digest : bytes) (fingerprint : Z),
    add_message_integrity sample_request sample_tid = Ok m1
    /\ add_fingerprint m1 = Ok m2
    /\ attributes m2
       = attributes sample_request
           ++ [("MESSAGE-INTEGRITY"%string, VBytes digest);
               ("FINGERPRINT"%string, VInt fingerprint)].
Proof.
  destruct (add_message_integrity sample_request sample_tid) as [m1|] eqn:E1;
    [|vm_compute in E1; discriminate].
  destruct (add_fingerprint m1) as [m2|] eqn:E2.
  - destruct (integrity_then_fingerprint sample_request m1 m2 sample_tid
                eq_refl eq_refl E1 E2)
      as (body & digest & signed & fingerprint & _ & _ & _ & _ & Ha & _).
    exists m1, m2, digest, fingerprint. auto.
  - exfalso. assert (Hm1 : Ok m1 = add_message_integrity sample_request sample_tid)
      by (symmetry; exact E1).
    vm_compute in Hm1. injection Hm1 as ->. vm_compute in E2. discriminate.
Defined.

(** ** What parse_message returns *)

Lemma unpack_address_wf (v : bytes) (x : value) :
  unpack_address v = Ok x ->
  exists (host : ipaddress) (port : Z),
    x = VAddress host port /\ wf_host host = true.
Proof.
  destruct (Z.ltb_spec (len v) 4) as [Hs|Hl].
  { rewrite unpack_address_short by exact Hs. discriminate. }
  destruct v as [|b0 [|b1 [|b2 [|b3 rest]]]];
    try (unfold len in Hl; simpl in Hl; lia).
  rewrite unpack_address_eq. cbv zeta.
  destruct (byte_to_Z b1 =? IPV4_PROTOCOL).
  - destruct (Z.eqb_spec (len rest) 4) as [He|]; [|discriminate].
    intros [= <-]. eexists _, _. split; [reflexivity|].
    cbn [wf_host]. apply Nat.eqb_eq. unfold len in He. lia.
  - destruct (byte_to_Z b1 =? IPV6_PROTOCOL); [|discriminate].
    destruct (Z.eqb_spec (len rest) 16) as [He|]; [|discriminate].
    intros [= <-]. eexists _, _. split; [reflexivity|].
    cbn [wf_host]. apply Nat.eqb_eq. unfold len in He. lia.
Qed.

Lemma unpack_wf (f : packer) (g : unpacker) (v tid : bytes) (x : value) :
  paired f g = true ->
  (if decide (g = UnpackXorAddress) then unpack_xor_address v tid
   else call_unpack g v) = Ok x ->
  wf_value f x = true.
Proof.
  destruct f, g; try discriminate; intros _;
    cbn [decide decide_rel unpacker_eq_dec call_unpack]; simpl.
  - intros Hx. apply unpack_address_wf in Hx as (h & p & -> & Hh). exact Hh.
  - intros [= <-]. reflexivity.
  - intros [= <-]. reflexivity.
  - unfold unpack_string. intros Hx.
    apply bind_Ok_inv in Hx as (s & _ & [= <-]). reflexivity.
  - unfold unpack_unsigned. intros Hx.
    apply bind_Ok_inv in Hx as (n & _ & [= <-]). reflexivity.
  - unfold unpack_xor_address. intros Hx.
    apply bind_Ok_inv in Hx as (d & _ & Hx).
    apply unpack_address_wf in Hx as (h & p & -> & Hh). exact Hh.
Qed.

Lemma ATTRIBUTES_by_name :
  Forall (fun a : attribute => ATTRIBUTES_BY_NAME !! name_of a = Some a)
    ATTRIBUTES.
Proof.
  unfold ATTRIBUTES.
  repeat (constructor; [vm_compute; reflexivity|]). constructor.
Qed.

Lemma registry_type_to_name (ty : Z) (a : attribute) :
  ATTRIBUTES_BY_TYPE !! ty = Some a ->
  ATTRIBUTES_BY_NAME !! name_of a = Some a.
Proof.
  intros Ht. apply registry_by_type in Ht as [Hin _].
  pose proof ATTRIBUTES_by_name as Hall. rewrite Forall_forall in Hall.
  exact (Hall a Hin).
Qed.

Lemma odict_set_keys (k : string) (v : value) (d : odict) :
  map fst (odict_set k v d)
  = match odict_get k d with
    | Some _ => map fst d
    | None => map fst d ++ [k]
    end.
Proof.
  induction d as [|[k' v'] d IH]; cbn [odict_set odict_get]; [reflexivity|].
  destruct (String.eqb k k'); [reflexivity|].
  cbn [map fst]. rewrite IH. destruct (odict_get k d); reflexivity.
Qed.

Lemma odict_get_keys (k : string) (d : odict) :
  odict_get k d = None -> k ∉ map fst d.
Proof.
  induction d as [|[k' v'] d IH]; cbn [odict_get map fst].
  - intros _. apply not_elem_of_nil.
  - destruct (String.eqb_spec k k') as [|Hne]; [discriminate|].
    intros Hd. apply not_elem_of_cons. split; [exact Hne | exact (IH Hd)].
Qed.

Lemma odict_set_NoDup (k : string) (v : value) (d : odict) :
  NoDup (map fst d) -> NoDup (map fst (odict_set k v d)).
Proof.
  intros Hd. rewrite odict_set_keys.
  destruct (odict_get k d) eqn:Eg; [exact Hd|].
  apply NoDup_app. split; [exact Hd|]. split.
  - intros x Hx Hk. apply list_elem_of_singleton in Hk as ->.
    exact (odict_get_keys _ _ Eg Hx).
  - apply NoDup_singleton.
Qed.

Lemma odict_set_Forall (P : string * value -> Prop) (k : string) (v : value)
    (d : odict) :
  P (k, v) -> Forall P d -> Forall P (odict_set k v d).
Proof.
  intros Hk. induction d as [|[k' v'] d IH]; cbn [odict_set]; intros Hd.
  - constructor; [exact Hk | constructor].
  - apply Forall_cons in Hd as [Hkv Hd].
    destruct (String.eqb_spec k k') as [<-|_].
    + constructor; [exact Hk | exact Hd].
    + constructor; [exact Hkv | exact (IH Hd)].
Qed.

Lemma store_all_wf (tid : bytes) (items : list (Z * bytes)) :
  forall attrs out : odict,
    store_all tid items attrs = Ok out ->
    NoDup (map fst attrs) ->
    Forall (fun item => wf_item item = true) attrs ->
    NoDup (map fst out) /\ Forall (fun item => wf_item item = true) out.
Proof.
  induction items as [|[ty v] items IH]; intros attrs out; cbn [store_all].
  - intros [= <-]. auto.
  - destruct (ATTRIBUTES_BY_TYPE !! ty) as [[[[ty' name] pk] un]|] eqn:Et;
      [|discriminate].
    intros Hs Hnd Hwf. apply bind_Ok_inv in Hs as (x & Hx & Hs).
    apply (IH _ _ Hs); [apply odict_set_NoDup, Hnd|].
    apply odict_set_Forall; [|exact Hwf].
    unfold wf_item. cbn [fst snd].
    pose proof (registry_type_to_name _ _ Et) as Hn. cbn in Hn. rewrite Hn.
    apply registry_by_type in Et as [Hin _].
    apply ATTRIBUTES_in_paired in Hin. cbn [fst snd] in Hin.
    exact (unpack_wf _ _ _ _ _ Hin Hx).
Qed.

Lemma land_bit8 (x : Z) : Z.land x 0x0100 = 0 \/ Z.land x 0x0100 = 0x0100.
Proof.
  change 0x0100 with (2 ^ 8).
  destruct (Z.testbit x 8) eqn:Eb; [right | left]; apply Z.bits_inj';
    intros n Hn; rewrite Z.land_spec, ?Z.bits_0, Z.pow2_bits_eqb by lia;
    destruct (Z.eqb_spec 8 n) as [<-|_]; rewrite ?Eb, ?andb_false_r;
    reflexivity.
Qed.

Lemma parsed_wf (data : bytes) (m : Message) :
  parse_message data = Ok m ->
  wf_message m
  /\ (message_class m = Class.REQUEST \/ message_class m = Class.RESPONSE).
Proof.
  rewrite parse_message_eq.
  destruct (Z.ltb_spec (len data) 20) as [|Hl]; [discriminate|].
  destruct (negb _); [discriminate|].
  intros Hm. apply bind_Ok_inv in Hm as (attrs & Hst & [= <-]).
  destruct (store_all_wf _ _ _ _ Hst (NoDup_nil_2) (Forall_nil_2 _))
    as [Hnd Hwf].
  set (ty := Struct.be_value (slice data 0 2)).
  assert (Hc : Z.land ty 0x0100 = Class.REQUEST
               \/ Z.land ty 0x0100 = Class.RESPONSE) by apply land_bit8.
  split; [|exact Hc].
  unfold wf_message. cbn [message_method message_class transaction_id attributes].
  split.
  { unfold METHOD_MASK. rewrite <- Z.land_assoc. reflexivity. }
  split.
  { unfold classes. destruct Hc as [->| ->]; simpl; auto. }
  split; [exact (transaction_id_length data Hl)|].
  split; [exact Hnd | exact Hwf].
Qed.

(** A message that [parse_message] returns is well formed: a 12-byte
    transaction id, a method within the mask 0x3eef, a class that is
    REQUEST or RESPONSE and nothing else, attribute names that are all
    different, each one registered and holding a value of the type its
    pack function takes. *)
Theorem parse_message_well_formed (data : bytes) (m : Message) :
  parse_message data = Ok m ->
  length (transaction_id m) = 12%nat
  /\ Z.land (message_method m) METHOD_MASK = message_method m
  /\ (message_class m = Class.REQUEST \/ message_class m = Class.RESPONSE)
  /\ NoDup (map fst (attributes m))
  /\ Forall (fun item => wf_item item = true) (attributes m).
Proof.
  intros Hm. destruct (parsed_wf data m Hm) as ((H1 & _ & H3 & H4 & H5) & Hc).
  auto.
Qed.

Lemma parse_message_well_formed_witness :
  parse_message truncated_nonce
  = Ok (mkMessage Method.BINDING Class.REQUEST sample_tid
          [("NONCE"%string, VBytes [])])
  /\ wf_item ("NONCE"%string, VBytes []) = true.
Proof.
  assert (H : parse_message truncated_nonce
              = Ok (mkMessage Method.BINDING Class.REQUEST sample_tid
                      [("NONCE"%string, VBytes [])]))
    by (vm_compute; reflexivity).
  split; [exact H|].
  destruct (parse_message_well_formed _ _ H) as (_ & _ & _ & _ & Hwf).
  exact (Forall_inv Hwf).
Defined.

(** Parsing is a fixed point of serialize-then-parse: when the message
    parsed from [data] serializes, to bytes that need not be [data], those
    bytes parse to the same message. *)
Theorem parse_bytes_parse (data data' : bytes) (m : Message) :
  parse_message data = Ok m ->
  __bytes__ m = Ok data' ->
  parse_message data' = Ok m.
Proof.
  intros Hm Hd. destruct (parsed_wf data m Hm) as [Hwf Hc].
  rewrite (parse_bytes m data' Hwf Hd). destruct m as [meth cls tid attrs].
  cbn [message_method message_class transaction_id attributes] in *.
  destruct Hc as [->| ->]; reflexivity.
Qed.

Lemma parse_bytes_parse_witness :
  exists data' : bytes,
    __bytes__ (mkMessage Method.BINDING Class.REQUEST sample_tid
                 [("NONCE"%string, VBytes [])]) = Ok data'
    /\ data' <> truncated_nonce
    /\ parse_message data' = parse_message truncated_nonce.
Proof.
  assert (H : parse_message truncated_nonce
              = Ok (mkMessage Method.BINDING Class.REQUEST sample_tid
                      [("NONCE"%string, VBytes [])]))
    by (vm_compute; reflexivity).
  eexists. split; [vm_compute; reflexivity|]. split; [discriminate|].
  rewrite H. apply (parse_bytes_parse truncated_nonce _ _ H).
  vm_compute. reflexivity.
Defined.

(** ** The exception of parse_message *)

Lemma unpack_is_ok (un : unpacker) (v tid : bytes) :
  length tid = 12%nat ->
  is_ok (if decide (un = UnpackXorAddress) then unpack_xor_address v tid
         else call_unpack un v) = accepts un v.
Proof.
  intros Ht. destruct (decide (un = UnpackXorAddress)) as [->|Hne].
  - apply unpack_xor_address_accepts, Ht.
  - destruct un; try contradiction; simpl.
    + apply unpack_address_accepts.
    + reflexivity.
    + reflexivity.
    + apply unpack_string_accepts.
    + apply unpack_unsigned_accepts.
Qed.

Lemma unpack_refusal (un : unpacker) (v tid : bytes) (e : exn) :
  length tid = 12%nat ->
  (if decide (un = UnpackXorAddress) then unpack_xor_address v tid
   else call_unpack un v) = Raise e ->
  refusal un v e.
Proof.
  intros Ht Hr. pose proof (unpack_is_ok un v tid Ht) as Hacc.
  rewrite Hr in Hacc. cbn [is_ok] in Hacc. symmetry in Hacc.
  destruct un; cbn [decide decide_rel unpacker_eq_dec call_unpack] in Hr;
    simpl in Hr; cbn [accepts] in Hacc; cbn [refusal].
  - split; [exact Hacc|]. exact (unpack_address_raises _ _ Hr).
  - discriminate.
  - discriminate.
  - split; [exact Hacc|]. unfold unpack_string in Hr.
    apply bind_Raise_inv in Hr as [Hr|(s & _ & Hr)]; [|discriminate].
    exact (decode_raises _ _ _ (le_n _) Hr).
  - split; [apply Z.eqb_neq, Hacc|]. unfold unpack_unsigned in Hr.
    apply bind_Raise_inv in Hr as [Hr|(s & _ & Hr)]; [|discriminate].
    unfold Struct.unpack_I in Hr.
    apply bind_Raise_inv in Hr as [Hr|(u & _ & Hr)]; [|discriminate].
    unfold Struct.sized in Hr.
    destruct (Nat.eqb _ _); [discriminate | congruence].
  - unfold unpack_xor_address in Hr.
    apply bind_Raise_inv in Hr as [Hr|(d & Hd & Hr)].
    + left. split; [|exact (xor_address_raises _ _ _ Hr)].
      destruct (le_lt_dec (length v) (8 + length tid)) as [Hs|Hs].
      * rewrite xor_address_ok in Hr by exact Hs. discriminate.
      * unfold len. lia.
    + right. split; [|split; [exact Hacc|]].
      * destruct (le_lt_dec (length v) (8 + length tid)) as [Hs|Hs].
        -- unfold len. lia.
        -- rewrite xor_address_too_long in Hd by exact Hs. discriminate.
      * exact (unpack_address_raises _ _ Hr).
Qed.

Lemma store_all_first_refusal (tid : bytes) (items : list (Z * bytes)) :
  length tid = 12%nat ->
  forall (attrs : odict) (e : exn),
    store_all tid (List.filter known items) attrs = Raise e ->
    exists (pre : list (Z * bytes)) (tv : Z * bytes) (post : list (Z * bytes))
           (a : attribute),
      items = pre ++ tv :: post
      /\ Forall (fun tv' => rejected tv' = false) pre
      /\ ATTRIBUTES_BY_TYPE !! tv.1 = Some a
      /\ refusal a.2 tv.2 e.
Proof.
  intros Ht. induction items as [|[t v] items IH]; intros attrs e;
    [discriminate|].
  cbn [List.filter]. unfold known at 1. cbn [fst].
  destruct (ATTRIBUTES_BY_TYPE !! t) as [[[[ty nm] pk] un]|] eqn:Ea.
  - rewrite bool_decide_eq_true_2 by eauto. cbn [store_all]. rewrite Ea.
    pose proof (unpack_is_ok un v tid Ht) as Hacc.
    destruct (if decide (un = UnpackXorAddress) then _ else _) as [x|e']
      eqn:Hx.
    + rewrite bind_Ok. intros Hs.
      destruct (IH _ _ Hs) as (pre & tv & post & a & -> & Hpre & Ha & Hr).
      exists ((t, v) :: pre), tv, post, a. split; [reflexivity|].
      split; [|auto]. constructor; [|exact Hpre].
      unfold rejected. cbn [fst snd]. rewrite Ea, <- Hacc. reflexivity.
    + rewrite bind_Raise. intros [= <-].
      exists [], (t, v), items, (ty, nm, pk, un). split; [reflexivity|].
      split; [constructor|]. split; [exact Ea|].
      exact (unpack_refusal _ _ _ _ Ht Hx).
  - rewrite bool_decide_eq_false_2 by (intros [? ?]; discriminate).
    intros Hs.
    destruct (IH _ _ Hs) as (pre & tv & post & a & -> & Hpre & Ha & Hr).
    exists ((t, v) :: pre), tv, post, a. split; [reflexivity|].
    split; [|auto]. constructor; [|exact Hpre].
    unfold rejected. cbn [fst]. rewrite Ea. reflexivity.
Qed.

(** The exception of [parse_message] is that of the first check that
    fails: the [ValueError] of a short input, the [ValueError] of a length
    mismatch, or what the unpack function of the first refused attribute
    raises: [ValueError] for an address, [IndexError] for a xored address
    of more than 20 bytes, [struct.error] for an unsigned integer not of
    4 bytes, [UnicodeDecodeError] for a string.  It is never [KeyError]:
    unknown type codes are skipped. *)
Theorem parse_message_exception (data : bytes) (e : exn) :
  parse_message data = Raise e ->
  (len data < HEADER_LENGTH
   /\ e = ValueError "STUN message length is less than 20 bytes")
  \/ (HEADER_LENGTH <= len data
      /\ len data <> HEADER_LENGTH + declared_length data
      /\ e = ValueError "STUN message length does not match")
  \/ (len data = HEADER_LENGTH + declared_length data
      /\ exists (pre : list (Z * bytes)) (tv : Z * bytes)
                (post : list (Z * bytes)) (a : attribute),
          raw_attributes data = pre ++ tv :: post
          /\ Forall (fun tv' => rejected tv' = false) pre
          /\ ATTRIBUTES_BY_TYPE !! tv.1 = Some a
          /\ refusal a.2 tv.2 e).
Proof.
  rewrite parse_message_eq. unfold HEADER_LENGTH.
  destruct (Z.ltb_spec (len data) 20) as [Hs|Hl].
  { intros [= <-]. left. auto. }
  destruct (Z.eqb_spec (len data) (20 + declared_length data)) as [He|Hne];
    cbn [negb].
  2: { intros [= <-]. right. left. auto. }
  intros Hr. right. right. split; [exact He|].
  apply bind_Raise_inv in Hr as [Hr|(attrs & _ & Hr)]; [|discriminate].
  exact (store_all_first_refusal _ _ (transaction_id_length data Hl) _ _ Hr).
Qed.

Lemma parse_message_exception_witness :
  parse_message long_xor_address = Raise IndexError
  /\ exists tv : Z * bytes,
       tv ∈ raw_attributes long_xor_address /\ 20 < len tv.2.
Proof.
  assert (H : parse_message long_xor_address = Raise IndexError)
    by (vm_compute; reflexivity).
  split; [exact H|].
  destruct (parse_message_exception _ _ H)
    as [[_ He]|[(_ & _ & He)|(_ & pre & tv & post & a & Hraw & _ & Ha & Hr)]];
    [discriminate He | discriminate He |].
  exists tv. split; [rewrite Hraw; apply elem_of_app; right; left|].
  destruct a as [[[ty nm] pk] un]. cbn [snd] in Hr.
  destruct un; cbn [refusal] in Hr.
  - destruct Hr as [_ [msg Hm]]. discriminate Hm.
  - destruct Hr.
  - destruct Hr.
  - destruct Hr as [_ Hm]. discriminate Hm.
  - destruct Hr as [_ Hm]. discriminate Hm.
  - destruct Hr as [[Hl _]|(_ & _ & msg & Hm)]; [exact Hl | discriminate Hm].
Defined.

(** ** Padding bytes *)

Lemma frame_padded_length (tv : Z * bytes) (pad : bytes) :
  len (frame_padded tv pad) = 4 + len tv.2 + len pad.
Proof. unfold frame_padded. rewrite !len_app, !len_be_bytes. lia. Qed.

Lemma padded_frames_length (tvs : list (Z * bytes)) (pads : list bytes) :
  pads_fit tvs pads ->
  len (padded_frames tvs pads) = len (concat (map frame tvs)).
Proof.
  unfold padded_frames. induction 1 as [|tv pad tvs pads Hp _ IH];
    [reflexivity|].
  cbn [zip_with map concat].
  rewrite !len_app, IH, frame_padded_length, frame_length, Hp. reflexivity.
Qed.

Lemma walk_padded_frames (tvs : list (Z * bytes)) (pads : list bytes) :
  pads_fit tvs pads ->
  forall (pre : bytes) (fuel : nat),
    Forall (fun tv => 0 <= tv.1 < 65536 /\ len tv.2 < 65536) tvs ->
    (length tvs <= fuel)%nat ->
    walk fuel (pre ++ padded_frames tvs pads) (len pre) = tvs.
Proof.
  unfold padded_frames.
  induction 1 as [|[t vb] pad tvs pads Hp _ IH]; intros pre fuel Hr Hf;
    rewrite walk_eq.
  - cbn [zip_with concat]. rewrite app_nil_r.
    destruct (Z.leb_spec (len pre) (len pre - 4)); [lia | reflexivity].
  - apply Forall_cons in Hr as [[Ht Hl] Hr]. cbn [fst snd] in Ht, Hl, Hp.
    pose proof (len_nonneg vb) as Hvb.
    cbn [zip_with concat].
    set (rest := concat (zip_with frame_padded tvs pads)).
    assert (Hlen : len (pre ++ frame_padded (t, vb) pad ++ rest)
                   = len pre + len (frame_padded (t, vb) pad) + len rest)
      by (rewrite !len_app; lia).
    pose proof (frame_padded_length (t, vb) pad) as Hfl. cbn [snd] in Hfl.
    pose proof (pad_len_range (len vb)) as Hpad.
    pose proof (len_nonneg rest) as Hrest.
    destruct (Z.leb_spec (len pre)
                (len (pre ++ frame_padded (t, vb) pad ++ rest) - 4));
      [|lia].
    destruct fuel as [|fuel]; [simpl in Hf; lia|]. cbv zeta.
    assert (H1 : slice (pre ++ frame_padded (t, vb) pad ++ rest) (len pre)
                   (len pre + 2) = Struct.be_bytes 2 t).
    { unfold frame_padded. cbn [fst snd]. rewrite <- !app_assoc.
      apply slice_app_mid; [reflexivity|]. rewrite len_be_bytes. lia. }
    assert (H2 : slice (pre ++ frame_padded (t, vb) pad ++ rest)
                   (len pre + 2) (len pre + 4)
                 = Struct.be_bytes 2 (len vb)).
    { unfold frame_padded. cbn [fst snd]. rewrite <- !app_assoc.
      rewrite (app_assoc pre).
      apply slice_app_mid; rewrite ?len_app, ?len_be_bytes; lia. }
    rewrite H1, H2.
    rewrite !be_value_be_bytes by (change (256 ^ Z.of_nat 2) with 65536; lia).
    assert (H3 : slice (pre ++ frame_padded (t, vb) pad ++ rest)
                   (len pre + 4) (len pre + 4 + len vb) = vb).
    { unfold frame_padded. cbn [fst snd]. rewrite <- !app_assoc.
      rewrite (app_assoc pre), (app_assoc (pre ++ _)).
      apply slice_app_mid; rewrite ?len_app, ?len_be_bytes; lia. }
    rewrite H3. f_equal.
    replace (len pre + 4 + len vb + pad_len (len vb))
      with (len (pre ++ frame_padded (t, vb) pad))
      by (rewrite len_app; lia).
    rewrite (app_assoc pre). apply IH; [exact Hr | simpl in Hf; lia].
Qed.

Lemma length_le_len {A} (n : nat) (l : list A) :
  Z.of_nat n <= len l -> (n <= length l)%nat.
Proof. unfold len. lia. Qed.

(** [parse_message] never looks at padding bytes: an attribute section
    whose values are followed by any bytes at all, as many as the padding
    takes, parses as the one that is padded with zeros. *)
Theorem parse_message_ignores_padding (ty n : Z) (tid : bytes)
    (tvs : list (Z * bytes)) (pads : list bytes) :
  pads_fit tvs pads ->
  Forall (fun tv => 0 <= tv.1 < 65536 /\ len tv.2 < 65536) tvs ->
  parse_message (header ty n tid ++ padded_frames tvs pads)
  = parse_message (header ty n tid ++ concat (map frame tvs)).
Proof.
  intros Hp Hr.
  pose proof (padded_frames_length _ _ Hp) as Hlen.
  pose proof (frames_length tvs) as Hfl.
  assert (Hfl' : (length tvs <= length (padded_frames tvs pads))%nat).
  { apply length_le_len. rewrite Hlen. unfold len. lia. }
  assert (Hh : len (header ty n tid) = 20)
    by (unfold len; rewrite header_length; reflexivity).
  rewrite !parse_message_eq, !len_header_app, Hlen.
  destruct (header_fields ty n tid (padded_frames tvs pads))
    as (A1 & A2 & _ & A4).
  destruct (header_fields ty n tid (concat (map frame tvs)))
    as (B1 & B2 & _ & B4).
  unfold declared_length. rewrite A1, A2, A4, B1, B2, B4.
  unfold raw_attributes, HEADER_LENGTH. rewrite <- Hh.
  rewrite walk_padded_frames, walk_frames
    by (try assumption; rewrite length_app; lia).
  reflexivity.
Qed.

Lemma parse_message_ignores_padding_witness :
  parse_message
    (header 1 8 sample_tid
       ++ padded_frames [(0x0006, [x41; x42])] [[xde; xad]])
  = Ok (mkMessage Method.BINDING Class.REQUEST sample_tid
          [("USERNAME"%string, VStr [0x41; 0x42])]).
Proof.
  rewrite (parse_message_ignores_padding 1 8 sample_tid
             [(0x0006, [x41; x42])] [[xde; xad]]).
  - vm_compute. reflexivity.
  - constructor; [reflexivity | constructor].
  - constructor; [|constructor]. unfold len; simpl; lia.
Defined.

(** ** A transaction under any sequence of events *)

Lemma cancel_only (h : nat) (deadline : Q) (l : Loop) :
  scheduled l = [(h, deadline)] -> scheduled (cancel h l) = [].
Proof.
  intros Hs. unfold cancel. cbn [scheduled]. rewrite Hs.
  rewrite filter_cons_False; [reflexivity|].
  cbn [fst]. rewrite Nat.eqb_refl. intros [].
Qed.

Lemma cancel_none (h : nat) (l : Loop) :
  scheduled l = [] -> scheduled (cancel h l) = [].
Proof. intros Hs. unfold cancel. cbn [scheduled]. rewrite Hs. reflexivity. Qed.

Lemma pow2_succ (n : Z) : 1 <= n -> 2 ^ n = 2 * 2 ^ (n - 1).
Proof.
  intros Hn. replace n with (Z.succ (n - 1)) at 1 by lia.
  apply Z.pow_succ_r. lia.
Qed.

Lemma backoff_double (n : Z) (d : Q) :
  1 <= n -> (d == backoff n)%Q -> (2 * d == backoff (n + 1))%Q.
Proof.
  intros Hn Hd. rewrite Hd. unfold backoff.
  replace (n + 1 - 1) with n by lia. rewrite (pow2_succ n Hn).
  rewrite inject_Z_mult. change (inject_Z 2) with 2%Q. ring.
Qed.

Lemma send_time_next (n : Z) (d deadline : Q) :
  1 <= n ->
  (d == backoff n)%Q -> (deadline == send_time (Z.to_nat n))%Q ->
  (deadline + 2 * d == send_time (Z.to_nat (n + 1)))%Q.
Proof.
  intros Hn Hd Hdl. rewrite Hdl, Hd. unfold send_time, backoff.
  rewrite !Z2Nat.id by lia.
  rewrite (pow2_succ (n + 1)) by lia. replace (n + 1 - 1) with n by lia.
  rewrite (pow2_succ n Hn).
  set (p := 2 ^ (n - 1)).
  replace (2 * (2 * p) - 1) with ((2 * p - 1) + 2 * p) by lia.
  rewrite !inject_Z_plus, !inject_Z_mult. change (inject_Z 2) with 2%Q. ring.
Qed.

Lemma running_start (req : Message) (peer : address) (w : World) :
  __retry (init req peer) = Ok w -> running req peer w.
Proof.
  intros [= <-]. unfold running. cbn.
  split; [unfold RETRY_MAX; lia|]. split; [reflexivity|].
  split; [reflexivity|]. split; [reflexivity|]. split.
  { intros [|i] s Hs; [|destruct i; discriminate Hs].
    injection Hs as <-. cbn. split; [reflexivity | auto]. }
  split.
  { eexists. split; [reflexivity|]. reflexivity. }
  eexists. split; [reflexivity|]. eexists. split; [reflexivity|].
  reflexivity.
Qed.

Lemma __retry_started (req : Message) (peer : address) :
  exists w : World, __retry (init req peer) = Ok w.
Proof. eexists. reflexivity. Qed.

Lemma running_fire (req : Message) (peer : address) (w w' : World) :
  running req peer w -> fire w = Ok w' -> running req peer w'.
Proof.
  intros Hr Hw.
  pose proof Hr
    as (Ht & Hreq & Haddr & Hlen & Hsent & (d & Hd & Hdq) & h & Hh & Hf).
  destruct (future (txn w)) as [|m|e] eqn:Ef.
  2: { rewrite fire_idle in Hw by exact Hf. injection Hw as <-. exact Hr. }
  2: { destruct Hf as (Hs & He & Ht7).
       rewrite fire_idle in Hw by exact Hs. injection Hw as <-. exact Hr. }
  destruct Hf as (deadline & Hs & Hdl).
  unfold fire in Hw. rewrite Hs in Hw. cbn [earliest] in Hw.
  rewrite (cancel_only h deadline _ Hs) in Hw.
  unfold __retry in Hw. cbn [txn loop sent time] in Hw.
  destruct (Z.leb_spec RETRY_MAX (tries (txn w))) as [Hmax|Hlt].
  - rewrite Ef in Hw. cbn [set_exception] in Hw. rewrite bind_Ok in Hw.
    injection Hw as <-. unfold running. cbn.
    split; [exact Ht|]. split; [exact Hreq|]. split; [exact Haddr|].
    split; [exact Hlen|]. split; [exact Hsent|].
    split; [eauto|]. exists h. split; [exact Hh|].
    split; [reflexivity|]. split; [reflexivity | lia].
  - destruct (Z.eqb_spec (tries (txn w)) 0) as [H0|_]; [lia|].
    cbn [negb] in Hw. rewrite Hd, bind_Ok in Hw.
    unfold call_later in Hw. cbn in Hw. injection Hw as <-.
    unfold running. cbn. rewrite Ef.
    split; [lia|]. split; [exact Hreq|]. split; [exact Haddr|].
    split; [rewrite length_app; cbn; lia|]. split.
    { intros i s Hi. apply lookup_app_Some in Hi as [Hi|[Hge Hi]].
      - exact (Hsent i s Hi).
      - destruct (i - length (sent w))%nat as [|k] eqn:Ek;
          [|destruct k; discriminate Hi].
        injection Hi as <-. cbn.
        assert (Hi : i = Z.to_nat (tries (txn w))) by lia.
        rewrite Hi. auto. }
    split.
    { eexists. split; [reflexivity|]. apply backoff_double; [lia | exact Hdq]. }
    eexists. split; [reflexivity|]. eexists. split; [reflexivity|].
    apply send_time_next; [lia | exact Hdq | exact Hdl].
Qed.

Lemma running_received (req : Message) (peer : address) (message : Message)
    (from : address) (w w' : World) :
  running req peer w -> message_received message from w = Ok w' ->
  running req peer w'
  /\ future (txn w) = Pending /\ future (txn w') = Done message.
Proof.
  intros (Ht & Hreq & Haddr & Hlen & Hsent & Hd & h & Hh & Hf) Hw.
  unfold message_received in Hw. rewrite Hh in Hw.
  destruct (future (txn w)) as [|m|e] eqn:Ef; [|discriminate..].
  cbn [set_result] in Hw. rewrite bind_Ok in Hw. injection Hw as <-.
  destruct Hf as (deadline & Hs & _).
  split; [|auto]. unfold running. cbn.
  split; [exact Ht|]. split; [exact Hreq|]. split; [exact Haddr|].
  split; [exact Hlen|]. split; [exact Hsent|]. split; [exact Hd|].
  exists h. split; [reflexivity|]. exact (cancel_only h deadline _ Hs).
Qed.

Lemma running_events (req : Message) (peer : address) (evs : list event) :
  forall w w' : World,
    running req peer w -> run_events evs w = Ok w' -> running req peer w'.
Proof.
  induction evs as [|ev evs IH]; intros w w' Hr; cbn [run_events].
  - intros [= <-]. exact Hr.
  - intros Hw. apply bind_Ok_inv in Hw as (w1 & H1 & Hw).
    apply (IH w1 w'); [|exact Hw].
    destruct ev as [|message from]; cbn [handle] in H1.
    + exact (running_fire _ _ _ _ Hr H1).
    + exact (proj1 (running_received _ _ _ _ _ _ Hr H1)).
Qed.

Lemma started_running (req : Message) (peer : address) (evs : list event)
    (w : World) :
  started req peer evs = Ok w -> running req peer w.
Proof.
  unfold started. intros Hw. apply bind_Ok_inv in Hw as (w0 & H0 & Hw).
  exact (running_events _ _ _ _ _ (running_start _ _ _ H0) Hw).
Qed.

Lemma done_stays (req : Message) (peer : address) (evs : list event) :
  forall (w w' : World) (m : Message),
    running req peer w -> run_events evs w = Ok w' ->
    future (txn w) = Done m -> future (txn w') = Done m.
Proof.
  induction evs as [|ev evs IH]; intros w w' m Hr; cbn [run_events].
  - intros [= <-]. auto.
  - intros Hw Hm. apply bind_Ok_inv in Hw as (w1 & H1 & Hw).
    destruct ev as [|message from]; cbn [handle] in H1.
    + pose proof Hr as (_ & _ & _ & _ & _ & _ & h & _ & Hf).
      rewrite Hm in Hf. rewrite fire_idle in H1 by exact Hf.
      injection H1 as <-. exact (IH _ _ _ Hr Hw Hm).
    + destruct (running_received _ _ _ _ _ _ Hr H1) as (_ & Hp & _).
      congruence.
Qed.

Lemma done_delivered (req : Message) (peer : address) (evs : list event) :
  forall (w w' : World) (m : Message),
    running req peer w -> run_events evs w = Ok w' ->
    future (txn w) = Pending -> future (txn w') = Done m ->
    exists from : address, Deliver m from ∈ evs.
Proof.
  induction evs as [|ev evs IH]; intros w w' m Hr; cbn [run_events].
  - intros [= <-]. congruence.
  - intros Hw Hp Hm. apply bind_Ok_inv in Hw as (w1 & H1 & Hw).
    destruct ev as [|message from]; cbn [handle] in H1.
    + pose proof (running_fire _ _ _ _ Hr H1) as Hr1.
      destruct (future (txn w1)) as [|m1|e1] eqn:E1.
      * destruct (IH _ _ _ Hr1 Hw E1 Hm) as (from & Hin).
        exists from. apply list_elem_of_further, Hin.
      * exfalso. unfold fire in H1.
        destruct (earliest _) as [[h deadline]|]; [|congruence].
        unfold __retry in H1. cbn [txn loop sent time] in H1.
        rewrite Hp in H1. destruct (RETRY_MAX <=? _).
        -- cbn in H1. injection H1 as <-. discriminate E1.
        -- apply bind_Ok_inv in H1 as (d & _ & H1).
           cbn in H1. injection H1 as <-. cbn in E1. congruence.
      * pose proof (running_events _ _ _ _ _ Hr1 Hw) as Hr'.
        exfalso. clear IH.
        assert (Hstay : forall evs w w', running req peer w ->
                  run_events evs w = Ok w' ->
                  future (txn w) = Failed e1 -> future (txn w') = Failed e1).
        { clear. induction evs as [|ev evs IH]; intros w w' Hr;
            cbn [run_events].
          - intros [= <-]. auto.
          - intros Hw Hm. apply bind_Ok_inv in Hw as (w1 & H1 & Hw).
            destruct ev as [|message from]; cbn [handle] in H1.
            + pose proof Hr as (_ & _ & _ & _ & _ & _ & h & _ & Hf).
              rewrite Hm in Hf. destruct Hf as (Hf & _).
              rewrite fire_idle in H1 by exact Hf.
              injection H1 as <-. exact (IH _ _ Hr Hw Hm).
            + destruct (running_received _ _ _ _ _ _ Hr H1) as (_ & Hp & _).
              congruence. }
        rewrite (Hstay _ _ _ Hr1 Hw E1) in Hm. discriminate.
    + destruct (running_received _ _ _ _ _ _ Hr H1) as (Hr1 & _ & Hd).
      pose proof (done_stays _ _ _ _ _ _ Hr1 Hw Hd) as Hd'.
      assert (message = m) by congruence. subst message.
      exists from. apply list_elem_of_here.
Qed.

(** Once [run()] has made its first send, whatever timers expire and
    whatever is delivered, in any order, as long as no call raises: the
    [request] property is the request given, which was sent between 1 and
    7 times, always to the same address, send number [i] (from 0) at
    [(2 ^ i - 1) * 0.5] seconds; at most one timer is set, and none once the future is
    resolved; a failure is the timeout after the seventh send, a result
    is a message that was delivered. *)
Theorem transaction_invariant (req : Message) (peer : address)
    (evs : list event) (w : World) :
  started req peer evs = Ok w ->
  request (txn w) = req
  /\ 1 <= tries (txn w) <= RETRY_MAX
  /\ Z.of_nat (length (sent w)) = tries (txn w)
  /\ (forall (i : nat) (s : Q * Message * address),
        sent w !! i = Some s ->
        (s.1.1 == send_time i)%Q /\ s.1.2 = req /\ s.2 = peer)
  /\ (length (scheduled (loop w)) <= 1)%nat
  /\ (awaited (future (txn w)) <> None -> scheduled (loop w) = [])
  /\ (forall e : exn,
        future (txn w) = Failed e ->
        e = PyException "Timeout" /\ tries (txn w) = RETRY_MAX)
  /\ (forall m : Message,
        future (txn w) = Done m -> exists from : address, Deliver m from ∈ evs).
Proof.
  intros Hw. pose proof (started_running _ _ _ _ Hw) as Hr.
  pose proof Hr as (Ht & Hreq & _ & Hlen & Hsent & _ & h & _ & Hf).
  split; [exact Hreq|].
  split; [exact Ht|]. split; [exact Hlen|]. split; [exact Hsent|].
  split; [|split; [|split]].
  - destruct (future (txn w)).
    + destruct Hf as (dl & -> & _). cbn. lia.
    + rewrite Hf. cbn. lia.
    + destruct Hf as (-> & _). cbn. lia.
  - destruct (future (txn w)); [intros H; destruct (H eq_refl)|..].
    + intros _. exact Hf.
    + intros _. exact (proj1 Hf).
  - intros e He. rewrite He in Hf. destruct Hf as (_ & H1 & H2). auto.
  - intros m Hm. unfold started in Hw.
    apply bind_Ok_inv in Hw as (w0 & H0 & Hw).
    apply (done_delivered req peer evs w0 w m); auto.
    + exact (running_start _ _ _ H0).
    + injection H0 as <-. reflexivity.
Qed.

Lemma transaction_invariant_witness :
  exists w : World,
    started sample_request sample_address
      [Tick; Tick; Deliver sample_response sample_address; Tick] = Ok w
    /\ 1 <= tries (txn w) <= RETRY_MAX
    /\ Z.of_nat (length (sent w)) = tries (txn w)
    /\ (length (scheduled (loop w)) <= 1)%nat.
Proof.
  destruct (started sample_request sample_address
              [Tick; Tick; Deliver sample_response sample_address; Tick])
    as [w|e] eqn:E.
  - exists w. split; [reflexivity|].
    destruct (transaction_invariant _ _ _ _ E)
      as (_ & H1 & H2 & _ & H4 & _).
    auto.
  - vm_compute in E. discriminate E.
Defined.

(** ** Calls that raise *)

(** A response handed to a transaction that was not started raises
    [AttributeError], there being no timer to cancel; one handed to a
    transaction whose future is resolved, by an earlier response or by
    the timeout, raises [InvalidStateError], and that is the only
    exception a started transaction meets; the loop has nothing left to
    run for it. *)
Theorem message_received_raises (req message : Message)
    (peer from : address) (evs : list event) :
  message_received message from (init req peer) = Raise AttributeError
  /\ (forall w : World,
        started req peer evs = Ok w ->
        awaited (future (txn w)) <> None ->
        message_received message from w = Raise InvalidStateError
        /\ fire w = Ok w)
  /\ (forall e : exn,
        started req peer evs = Raise e -> e = InvalidStateError).
Proof.
  split; [reflexivity|]. split.
  - intros w Hw Hres. pose proof (started_running _ _ _ _ Hw) as Hr.
    destruct Hr as (_ & _ & _ & _ & _ & _ & h & Hh & Hf).
    unfold message_received. rewrite Hh.
    destruct (future (txn w)) as [|m|e]; [destruct (Hres eq_refl)|..].
    + split; [reflexivity | apply fire_idle, Hf].
    + split; [reflexivity | apply fire_idle, Hf].
  - unfold started. intros e He.
    apply bind_Raise_inv in He as [He|(w0 & H0 & He)]; [discriminate|].
    apply running_start in H0. revert w0 H0 He.
    induction evs as [|ev evs IH]; intros w0 H0; cbn [run_events];
      [discriminate|].
    intros He. apply bind_Raise_inv in He as [He|(w1 & H1 & He)].
    + destruct ev as [|m a]; cbn [handle] in He.
      * exfalso.
        destruct H0 as (Ht & _ & _ & _ & _ & (d & Hd & _) & h & Hh & Hf).
        unfold fire in He.
        destruct (earliest _) as [[h' dl]|] eqn:Ee; [|discriminate].
        destruct (future (txn w0)) as [|m0|e0] eqn:Ef.
        -- unfold __retry in He. cbn [txn loop sent time] in He.
           rewrite Ef, Hd in He.
           destruct (_ <=? _); [discriminate|].
           destruct (Z.eqb_spec (tries (txn w0)) 0); [lia|].
           discriminate.
        -- rewrite Hf in Ee. discriminate.
        -- rewrite (proj1 Hf) in Ee. discriminate.
      * destruct H0 as (_ & _ & _ & _ & _ & _ & h & Hh & _).
        unfold message_received in He. rewrite Hh in He.
        destruct (future (txn w0)); [discriminate|..]; cbn in He; congruence.
    + apply (IH w1); [|exact He].
      destruct ev as [|m a]; cbn [handle] in H1.
      * exact (running_fire _ _ _ _ H0 H1).
      * exact (proj1 (running_received _ _ _ _ _ _ H0 H1)).
Qed.

(** ** Strings *)

Lemma continuation_inv (b : byte) (c : Z) :
  Utf8.continuation b = Ok c -> 0 <= c < 64 /\ byte_to_Z b = 0x80 + c.
Proof.
  unfold Utf8.continuation. cbv zeta.
  destruct (Z.leb_spec 0x80 (byte_to_Z b)); [|discriminate].
  destruct (Z.ltb_spec (byte_to_Z b) 0xC0); [|discriminate].
  intros [= <-]. lia.
Qed.

Lemma checked_inv (lo c c' : Z) :
  Utf8.checked lo c = Ok c' ->
  c' = c /\ lo <= c /\ c <= 0x10FFFF /\ ~ (0xD800 <= c <= 0xDFFF).
Proof.
  unfold Utf8.checked.
  destruct (Z.ltb_spec c lo); [discriminate|].
  destruct (Z.leb_spec 0xD800 c); destruct (Z.leb_spec c 0xDFFF);
    try discriminate;
    (destruct (Z.ltb_spec 0x10FFFF c); [discriminate|]);
    intros [= <-]; lia.
Qed.

Lemma encode_cp_scalar (c : Z) : is_ok (Utf8.encode_cp c) = scalar c.
Proof.
  unfold Utf8.encode_cp, scalar.
  destruct (Z.ltb_spec c 0); destruct (Z.leb_spec 0 c); try lia;
    [reflexivity|].
  destruct (Z.ltb_spec c 0x80).
  { destruct (Z.ltb_spec c 0x110000); destruct (Z.leb_spec 0xD800 c);
      try lia. reflexivity. }
  destruct (Z.ltb_spec c 0x800).
  { destruct (Z.ltb_spec c 0x110000); destruct (Z.leb_spec 0xD800 c);
      try lia. reflexivity. }
  destruct (Z.ltb_spec c 0x10000).
  { destruct (Z.ltb_spec c 0x110000); [|lia].
    destruct (Z.leb_spec 0xD800 c); destruct (Z.leb_spec c 0xDFFF);
      reflexivity. }
  destruct (Z.ltb_spec c 0x110000); [|reflexivity].
  destruct (Z.leb_spec 0xD800 c); destruct (Z.leb_spec c 0xDFFF);
    try lia; reflexivity.
Qed.

Lemma encode_scalar (s : str) :
  is_ok (Utf8.encode s) = forallb scalar s.
Proof.
  induction s as [|c s IH]; [reflexivity|]. cbn [Utf8.encode forallb].
  rewrite <- encode_cp_scalar, <- IH.
  destruct (Utf8.encode_cp c) as [b|]; [|reflexivity]. rewrite bind_Ok.
  destruct (Utf8.encode s) as [r|]; reflexivity.
Qed.

Lemma encode_cons (c : Z) (s : str) (b r : bytes) :
  Utf8.encode_cp c = Ok b -> Utf8.encode s = Ok r ->
  Utf8.encode (c :: s) = Ok (b ++ r).
Proof. intros Hb Hr. cbn [Utf8.encode]. rewrite Hb, bind_Ok, Hr. reflexivity. Qed.

Lemma encode_cp_1 (b0 : byte) :
  byte_to_Z b0 < 0x80 -> Utf8.encode_cp (byte_to_Z b0) = Ok [b0].
Proof.
  intros Hb. pose proof (byte_to_Z_range b0). unfold Utf8.encode_cp.
  cmp_lia. rewrite byte_of_to_Z. reflexivity.
Qed.

Lemma encode_cp_2 (b0 b1 : byte) (c1 c : Z) :
  0xC0 <= byte_to_Z b0 < 0xE0 ->
  Utf8.continuation b1 = Ok c1 ->
  Utf8.checked 0x80 ((byte_to_Z b0 - 0xC0) * 64 + c1) = Ok c ->
  Utf8.encode_cp c = Ok [b0; b1].
Proof.
  intros Hb H1 Hc. apply continuation_inv in H1 as [Hr1 Hz1].
  apply checked_inv in Hc as (-> & Hlo & _ & _).
  set (a := byte_to_Z b0 - 0xC0) in *.
  assert (Hd : (a * 64 + c1) / 64 = a)
    by (symmetry; apply Z.div_unique with c1; lia).
  assert (Hm : (a * 64 + c1) mod 64 = c1)
    by (symmetry; apply Z.mod_unique with a; lia).
  unfold Utf8.encode_cp. cmp_lia. rewrite Hd, Hm.
  replace (0xC0 + a) with (byte_to_Z b0) by (unfold a; lia).
  rewrite <- Hz1, !byte_of_to_Z. reflexivity.
Qed.

Lemma encode_cp_3 (b0 b1 b2 : byte) (c1 c2 c : Z) :
  0xE0 <= byte_to_Z b0 < 0xF0 ->
  Utf8.continuation b1 = Ok c1 ->
  Utf8.continuation b2 = Ok c2 ->
  Utf8.checked 0x800 ((byte_to_Z b0 - 0xE0) * 4096 + c1 * 64 + c2) = Ok c ->
  Utf8.encode_cp c = Ok [b0; b1; b2].
Proof.
  intros Hb H1 H2 Hc. apply continuation_inv in H1 as [Hr1 Hz1].
  apply continuation_inv in H2 as [Hr2 Hz2].
  apply checked_inv in Hc as (-> & Hlo & _ & Hsur).
  set (a := byte_to_Z b0 - 0xE0) in *.
  set (c := a * 4096 + c1 * 64 + c2) in *.
  assert (Hd1 : c / 4096 = a)
    by (symmetry; apply Z.div_unique with (c1 * 64 + c2); unfold c; lia).
  assert (Hd2 : c / 64 = a * 64 + c1)
    by (symmetry; apply Z.div_unique with c2; unfold c; lia).
  assert (Hm2 : c mod 64 = c2)
    by (symmetry; apply Z.mod_unique with (a * 64 + c1); unfold c; lia).
  assert (Hm1 : (a * 64 + c1) mod 64 = c1)
    by (symmetry; apply Z.mod_unique with a; lia).
  unfold Utf8.encode_cp.
  destruct (Z.ltb_spec c 0); [unfold c in *; lia|].
  destruct (Z.ltb_spec c 0x80); [lia|].
  destruct (Z.ltb_spec c 0x800); [lia|].
  destruct (Z.ltb_spec c 0x10000); [|unfold c in *; lia].
  destruct (Z.leb_spec 0xD800 c); destruct (Z.leb_spec c 0xDFFF);
    try lia; cbn [andb];
    rewrite Hd1, Hd2, Hm1, Hm2;
    replace (0xE0 + a) with (byte_to_Z b0) by (unfold a; lia);
    rewrite <- Hz1, <- Hz2, !byte_of_to_Z; reflexivity.
Qed.

Lemma encode_cp_4 (b0 b1 b2 b3 : byte) (c1 c2 c3 c : Z) :
  0xF0 <= byte_to_Z b0 < 0xF8 ->
  Utf8.continuation b1 = Ok c1 ->
  Utf8.continuation b2 = Ok c2 ->
  Utf8.continuation b3 = Ok c3 ->
  Utf8.checked 0x10000
    ((byte_to_Z b0 - 0xF0) * 262144 + c1 * 4096 + c2 * 64 + c3) = Ok c ->
  Utf8.encode_cp c = Ok [b0; b1; b2; b3].
Proof.
  intros Hb H1 H2 H3 Hc. apply continuation_inv in H1 as [Hr1 Hz1].
  apply continuation_inv in H2 as [Hr2 Hz2].
  apply continuation_inv in H3 as [Hr3 Hz3].
  apply checked_inv in Hc as (-> & Hlo & Hhi & _).
  set (a := byte_to_Z b0 - 0xF0) in *.
  set (c := a * 262144 + c1 * 4096 + c2 * 64 + c3) in *.
  assert (Hd1 : c / 262144 = a)
    by (symmetry; apply Z.div_unique with (c1 * 4096 + c2 * 64 + c3);
        unfold c; lia).
  assert (Hd2 : c / 4096 = a * 64 + c1)
    by (symmetry; apply Z.div_unique with (c2 * 64 + c3); unfold c; lia).
  assert (Hd3 : c / 64 = (a * 64 + c1) * 64 + c2)
    by (symmetry; apply Z.div_unique with c3; unfold c; lia).
  assert (Hm3 : c mod 64 = c3)
    by (symmetry; apply Z.mod_unique with ((a * 64 + c1) * 64 + c2);
        unfold c; lia).
  assert (Hm2 : ((a * 64 + c1) * 64 + c2) mod 64 = c2)
    by (symmetry; apply Z.mod_unique with (a * 64 + c1); lia).
  assert (Hm1 : (a * 64 + c1) mod 64 = c1)
    by (symmetry; apply Z.mod_unique with a; lia).
  unfold Utf8.encode_cp.
  destruct (Z.ltb_spec c 0); [lia|].
  destruct (Z.ltb_spec c 0x80); [lia|].
  destruct (Z.ltb_spec c 0x800); [lia|].
  destruct (Z.ltb_spec c 0x10000); [lia|].
  destruct (Z.ltb_spec c 0x110000); [|lia].
  rewrite Hd1, Hd2, Hd3, Hm1, Hm2, Hm3.
  replace (0xF0 + a) with (byte_to_Z b0) by (unfold a; lia).
  rewrite <- Hz1, <- Hz2, <- Hz3, !byte_of_to_Z. reflexivity.
Qed.

Lemma encode_decode (n : nat) :
  forall (data : bytes) (s : str),
    (length data <= n)%nat ->
    Utf8.decode data = Ok s -> Utf8.encode s = Ok data.
Proof.
  induction n as [|n IH]; intros data s Hn.
  - destruct data; [intros [= <-]; reflexivity | simpl in Hn; lia].
  - destruct data as [|b0 t0]; [intros [= <-]; reflexivity|].
    simpl in Hn. pose proof (byte_to_Z_range b0) as Hr0.
    destruct (Z.ltb_spec (byte_to_Z b0) 0x80) as [H1|H1].
    { rewrite decode_1 by exact H1. intros Hd.
      apply bind_Ok_inv in Hd as (s' & Hs' & [= <-]).
      apply (encode_cons _ _ [b0] t0); [apply encode_cp_1, H1|].
      apply IH; [lia | exact Hs']. }
    destruct (Z.ltb_spec (byte_to_Z b0) 0xC0) as [H2|H2].
    { cbn [Utf8.decode]. cbv zeta. cmp_lia. discriminate. }
    destruct (Z.ltb_spec (byte_to_Z b0) 0xE0) as [H3|H3].
    { destruct t0 as [|b1 t1];
        [cbn [Utf8.decode]; cbv zeta; cmp_lia; discriminate|].
      rewrite decode_2 by lia. intros Hd.
      apply bind_Ok_inv in Hd as (c1 & Hc1 & Hd).
      apply bind_Ok_inv in Hd as (c & Hc & Hd).
      apply bind_Ok_inv in Hd as (s' & Hs' & [= <-]).
      apply (encode_cons _ _ [b0; b1] t1).
      - apply (encode_cp_2 b0 b1 c1 c); [lia | exact Hc1 | exact Hc].
      - apply IH; [simpl in Hn; lia | exact Hs']. }
    destruct (Z.ltb_spec (byte_to_Z b0) 0xF0) as [H4|H4].
    { destruct t0 as [|b1 [|b2 t2]];
        try (cbn [Utf8.decode]; cbv zeta; cmp_lia; discriminate).
      rewrite decode_3 by lia. intros Hd.
      apply bind_Ok_inv in Hd as (c1 & Hc1 & Hd).
      apply bind_Ok_inv in Hd as (c2 & Hc2 & Hd).
      apply bind_Ok_inv in Hd as (c & Hc & Hd).
      apply bind_Ok_inv in Hd as (s' & Hs' & [= <-]).
      apply (encode_cons _ _ [b0; b1; b2] t2).
      - apply (encode_cp_3 b0 b1 b2 c1 c2 c); [lia|assumption..].
      - apply IH; [simpl in Hn; lia | exact Hs']. }
    destruct (Z.ltb_spec (byte_to_Z b0) 0xF8) as [H5|H5].
    { destruct t0 as [|b1 [|b2 [|b3 t3]]];
        try (cbn [Utf8.decode]; cbv zeta; cmp_lia; discriminate).
      rewrite decode_4 by lia. intros Hd.
      apply bind_Ok_inv in Hd as (c1 & Hc1 & Hd).
      apply bind_Ok_inv in Hd as (c2 & Hc2 & Hd).
      apply bind_Ok_inv in Hd as (c3 & Hc3 & Hd).
      apply bind_Ok_inv in Hd as (c & Hc & Hd).
      apply bind_Ok_inv in Hd as (s' & Hs' & [= <-]).
      apply (encode_cons _ _ [b0; b1; b2; b3] t3).
      - apply (encode_cp_4 b0 b1 b2 b3 c1 c2 c3 c); [lia|assumption..].
      - apply IH; [simpl in Hn; lia | exact Hs']. }
    cbn [Utf8.decode]. cbv zeta. cmp_lia. discriminate.
Qed.

(** [pack_string] and [unpack_string] are inverse of each other: a string
    is packed exactly when all its code points are scalar values (no
    surrogate), [UnicodeEncodeError] being raised otherwise, and its
    bytes unpack to it; bytes that unpack, to a string, are what that
    string packs to, so that the bytes [unpack_string] accepts are the
    encodings and nothing else, overlong forms included. *)
Theorem string_round_trips :
  (forall s : str,
     is_ok (pack_string (VStr s)) = forallb scalar s
     /\ (forall e : exn, pack_string (VStr s) = Raise e ->
                         e = UnicodeEncodeError)
     /\ (forall data : bytes, pack_string (VStr s) = Ok data ->
                              unpack_string data = Ok (VStr s)))
  /\ (forall (data : bytes) (v : value),
        unpack_string data = Ok v ->
        exists s : str,
          v = VStr s /\ forallb scalar s = true
          /\ pack_string v = Ok data).
Proof.
  split.
  - intros s. cbn [pack_string]. split; [apply encode_scalar|]. split.
    + intros e He. exact (encode_raises _ _ He).
    + intros data Hd. unfold unpack_string.
      rewrite (decode_encode _ _ Hd). reflexivity.
  - intros data v Hv. unfold unpack_string in Hv.
    apply bind_Ok_inv in Hv as (s & Hs & [= <-]).
    pose proof (encode_decode _ _ _ (le_n _) Hs) as He.
    exists s. split; [reflexivity|]. split; [|exact He].
    rewrite <- encode_scalar, He. reflexivity.
Qed.

(** ** Xored addresses and short transaction ids *)

(** [pack_xor_address] reads [4 + len(packed address) - 2] bytes of a pad
    that has [6 + len(transaction_id)]: an IPv4 address is packed
    whatever the transaction id, an IPv6 address only with a transaction
    id of 12 bytes or more, [IndexError] being raised with a shorter one
    (which [__bytes__] would have padded to 12 bytes in the header). *)
Theorem pack_xor_address_needs_tid (host : ipaddress) (port : Z)
    (tid : bytes) :
  wf_host host = true -> 0 <= port < 65536 ->
  match host with
  | IPv4Address _ => is_ok (pack_xor_address (VAddress host port) tid) = true
  | IPv6Address _ =>
      if 12 <=? len tid
      then is_ok (pack_xor_address (VAddress host port) tid) = true
      else pack_xor_address (VAddress host port) tid = Raise IndexError
  end.
Proof.
  intros Hwf Hport. unfold pack_xor_address.
  rewrite (pack_address_ok host port Hport), bind_Ok.
  set (data := x00 :: _ :: _ ++ packed host).
  assert (Hl : length data = (4 + length (packed host))%nat).
  { unfold data. cbn [length]. rewrite length_app, be_bytes_length. lia. }
  destruct host as [p|p]; cbn [wf_host packed] in Hwf, Hl;
    apply Nat.eqb_eq in Hwf.
  - rewrite xor_address_ok by lia. reflexivity.
  - unfold len. destruct (Z.leb_spec 12 (Z.of_nat (length tid))).
    + rewrite xor_address_ok by lia. reflexivity.
    + apply xor_address_too_long. lia.
Qed.

Lemma pack_xor_address_needs_tid_witness :
  pack_xor_address (VAddress sample_host6 3478)
    (map byte_of_Z [1; 2; 3; 4; 5; 6; 7; 8]) = Raise IndexError
  /\ __bytes__ short_tid_message = Raise IndexError.
Proof.
  split; [|vm_compute; reflexivity].
  exact (pack_xor_address_needs_tid sample_host6 3478
           (map byte_of_Z [1; 2; 3; 4; 5; 6; 7; 8]) eq_refl
           ltac:(lia)).
Defined.

(** ** Serialization, attribute by attribute *)

Lemma frames_bytes_loop (tid : bytes) (items : odict)
    (tvs : list (Z * bytes)) :
  Forall2 (fun item tv => pack_item tid item = Ok tv) items tvs ->
  bytes_loop tid items [] = Ok (concat (map frame tvs)).
Proof.
  induction 1 as [|[name x] [ty v] items tvs Hp _ IH]; [reflexivity|].
  rewrite bytes_loop_cons. unfold pack_item in Hp. cbn [fst snd] in Hp.
  destruct (ATTRIBUTES_BY_NAME !! name) as [[[[ty' nm] pk] un]|];
    [|discriminate].
  apply bind_Ok_inv in Hp as (v' & Hv & Hp).
  apply bind_Ok_inv in Hp as (h & Hh & [= -> ->]).
  rewrite Hv, bind_Ok, Hh, bind_Ok, bytes_loop_acc, IH, bind_Ok.
  apply pack_HH_inv in Hh as (_ & _ & ->).
  cbn [map concat]. unfold frame. cbn [fst snd app].
  rewrite <- !app_assoc. reflexivity.
Qed.

(** [bytes(message)] succeeds exactly when every attribute packs, with a
    registered name, a value its pack function takes and at most 65535
    value bytes, when the message type fits 16 bits and the attribute
    section is shorter than 65536 bytes; the result is then the header
    followed by the frame of each attribute in turn: type, length, value
    and zero padding up to a multiple of 4. *)
Theorem bytes_iff_frames (self : Message) (data : bytes) :
  __bytes__ self = Ok data <->
  exists tvs : list (Z * bytes),
    Forall2 (fun item tv => pack_item (transaction_id self) item = Ok tv)
      (attributes self) tvs
    /\ 0 <= message_type self < 65536
    /\ len (concat (map frame tvs)) < 65536
    /\ data = header (message_type self) (len (concat (map frame tvs)))
                (transaction_id self) ++ concat (map frame tvs).
Proof.
  split.
  - intros Hd. destruct (bytes_inv self data Hd) as (body & Hb & Hty & Hn & ->).
    destruct (bytes_loop_frames _ _ _ Hb) as (tvs & Htvs & ->).
    exists tvs. auto.
  - intros (tvs & Htvs & Hty & Hn & ->).
    apply bytes_ok; [apply frames_bytes_loop, Htvs | exact Hty | exact Hn].
Qed.

(** ** The registry of the module *)

(** The table has no two rows with the same type code or the same name,
    so each dictionary holds every row: looking up a code or a name gives
    the row of the table that has it, and nothing otherwise.  In every
    row the pack function goes with the unpack function of the same
    kind, and the type code fits the 16 bits [__bytes__] packs it in. *)
Theorem registry_of_ATTRIBUTES :
  (forall (ty : Z) (a : attribute),
     ATTRIBUTES_BY_TYPE !! ty = Some a <-> a ∈ ATTRIBUTES /\ type_of a = ty)
  /\ (forall (name : string) (a : attribute),
        ATTRIBUTES_BY_NAME !! name = Some a
        <-> a ∈ ATTRIBUTES /\ name_of a = name)
  /\ (forall a : attribute,
        a ∈ ATTRIBUTES ->
        paired a.1.2 a.2 = true /\ 0 < type_of a < 65536).
Proof.
  split; [|split].
  - intros ty a. split; [apply registry_by_type|]. intros [Hin <-].
    apply (registry_unique ATTRIBUTES ATTRIBUTES_types_NoDup
             ATTRIBUTES_names_NoDup a), Hin.
  - intros name a. split.
    + intros Hn. apply registry_by_name in Hn as (Hin & Hname & _). auto.
    + intros [Hin <-].
      apply (registry_unique ATTRIBUTES ATTRIBUTES_types_NoDup
               ATTRIBUTES_names_NoDup a), Hin.
  - intros a Hin. split; [exact (ATTRIBUTES_in_paired a Hin)|].
    assert (Hall : Forall (fun a : attribute => 0 < type_of a < 65536)
                     ATTRIBUTES)
      by (unfold ATTRIBUTES; repeat constructor).
    rewrite Forall_forall in Hall. exact (Hall a Hin).
Qed.
